(** * creator-copilot: the video analysis endpoint

    A shallow embedding of the handler of [POST /api/video/analyze]
    (apps/server, the Express application) and the properties of
    its report, followed by the computations of the other routes that need
    no service: the de-duplication of ideas, the OAuth state of the TikTok
    sign-in, and the statistics and tasks over the recent videos.

    Conventions of the embedding.
    - A JavaScript number is an exact rational ([Q]).  [NaN], the infinities
      and the rounding of binary floating point are outside the model.
    - A JavaScript string is the list of its UTF-16 code units.
    - The external tools (ffprobe, ffmpeg, Tesseract, the OpenAI client and
      the file system) are an environment [Env] of answers: what a tool
      printed on stderr is kept as the list of its lines, each line reduced
      to what the handler's regular expressions capture from it.
    - The handler is written in a small monad with a world (the two files
      the request owns and the log of the stages that ran), exceptions and
      early [return]. *)

From Stdlib Require Import QArith Qround Qabs Qminmax Lqa ZArith NArith.
From Stdlib Require Import List Bool Lia Ascii String.
Import ListNotations.

(* ------------------------------------------------------------------ *)
(** ** JavaScript numbers *)
(* ------------------------------------------------------------------ *)

Module JsNum.
Local Open Scope Q_scope.

(** [Math.round(x)]: the integer nearest to [x], ties towards +infinity. *)
Definition Math_round (x : Q) : Q := inject_Z (Qfloor (x + (1 # 2))).

(** [Math.max(a, b)] and [Math.abs(a)]. *)
Definition Math_max (a b : Q) : Q := Qmax a b.
Definition Math_abs (a : Q) : Q := Qabs a.

(** [10 ** d] as a rational. *)
Definition pow10 (d : nat) : Q := inject_Z (10 ^ Z.of_nat d).

(** [Number(x.toFixed(d))]: [x] rounded to [d] decimals, ties away from
    zero ([toFixed] rounds the absolute value and puts the sign back). *)
Definition toFixed (d : nat) (x : Q) : Q :=
  let r := inject_Z (Qfloor (Qabs x * pow10 d + (1 # 2))) / pow10 d in
  if Qle_bool 0 x then r else - r.

(** [a < b], [a <= b], [a >= b], [a === b] on numbers. *)
Definition ltb (a b : Q) : bool := negb (Qle_bool b a).
Definition leb (a b : Q) : bool := Qle_bool a b.
Definition geb (a b : Q) : bool := Qle_bool b a.
Definition eqb (a b : Q) : bool := Qeq_bool a b.

(** A [length] read as a number. *)
Definition ofNat (n : nat) : Q := inject_Z (Z.of_nat n).
End JsNum.

(* ------------------------------------------------------------------ *)
(** ** JavaScript strings *)
(* ------------------------------------------------------------------ *)

Module JsString.
Local Open Scope N_scope.

Definition jsstring := list N.

(** An ASCII literal of the source as code units. *)
Definition lit (s : string) : jsstring :=
  List.map N_of_ascii (list_ascii_of_string s).

(** The class [\s] of regular expressions, which is also what [trim]
    strips: WhiteSpace and LineTerminator of ECMAScript. *)
Definition is_space (c : N) : bool :=
  ((9 <=? c) && (c <=? 13)) || (c =? 32) || (c =? 160) || (c =? 5760)
  || ((8192 <=? c) && (c <=? 8202)) || (c =? 8232) || (c =? 8233)
  || (c =? 8239) || (c =? 8287) || (c =? 12288) || (c =? 65279).

Fixpoint dropWhile (p : N -> bool) (s : jsstring) : jsstring :=
  match s with
  | [] => []
  | c :: r => if p c then dropWhile p r else s
  end.

(** [s.trim()] *)
Definition trim (s : jsstring) : jsstring :=
  rev (dropWhile is_space (rev (dropWhile is_space s))).

(** [s.replace(/\s+/g, ' ')]: [in_ws] says that the previous code unit
    belonged to the run of white space being replaced. *)
Fixpoint replace_ws (in_ws : bool) (s : jsstring) : jsstring :=
  match s with
  | [] => []
  | c :: r =>
      if is_space c
      then (if in_ws then replace_ws true r else 32 :: replace_ws true r)
      else c :: replace_ws false r
  end.

(** [s.slice(0, n)] *)
Definition slice0 (n : nat) (s : jsstring) : jsstring := firstn n s.

(** [s.split(sep)] for a separator that matches one code unit
    ([split(',')], [split(/\n|\r/)]); [cur] is the piece being read,
    reversed. *)
Fixpoint split_by (sep : N -> bool) (cur : jsstring) (s : jsstring)
  : list jsstring :=
  match s with
  | [] => [rev cur]
  | c :: r =>
      if sep c then rev cur :: split_by sep [] r
      else split_by sep (c :: cur) r
  end.

(** [s.split(/\s+/)] *)
Fixpoint split_ws (cur : jsstring) (in_ws : bool) (s : jsstring)
  : list jsstring :=
  match s with
  | [] => [rev cur]
  | c :: r =>
      if is_space c
      then (if in_ws then split_ws [] true r
            else rev cur :: split_ws [] true r)
      else split_ws (c :: cur) false r
  end.

(** Truthiness of a string: [Boolean(s)], [!!s], [s || d]. *)
Definition truthy (s : jsstring) : bool :=
  match s with [] => false | _ :: _ => true end.

Definition or_else (s d : jsstring) : jsstring :=
  if truthy s then s else d.

(** [parts.join(sep)] *)
Fixpoint join (sep : jsstring) (parts : list jsstring) : jsstring :=
  match parts with
  | [] => []
  | [p] => p
  | p :: rest => p ++ sep ++ join sep rest
  end.

Definition comma : N := 44.
Definition is_newline (c : N) : bool := (c =? 10) || (c =? 13).
End JsString.

(* ------------------------------------------------------------------ *)
(** ** JavaScript values and [JSON.stringify] *)
(* ------------------------------------------------------------------ *)

Module Json.
Import JsString.

Local Unset Elimination Schemes.

(** What an object literal of the handler can hold. *)
Inductive JsVal : Type :=
| JsUndefined
| JsNull
| JsBool (b : bool)
| JsNum (q : Q)
| JsStr (s : jsstring)
| JsArr (items : list JsVal)
| JsObj (props : list (string * JsVal)).

(** A JSON document: there is no [undefined] in it. *)
Inductive json : Type :=
| JNull
| JBool (b : bool)
| JNum (q : Q)
| JStr (s : jsstring)
| JArr (items : list json)
| JObj (props : list (string * json)).

Local Set Elimination Schemes.

(** [JSON.stringify], which [res.json] applies to its argument: a
    property whose value is [undefined] is left out of its object, an
    [undefined] array element becomes [null], and [undefined] itself has
    no JSON text. *)
Fixpoint stringify (v : JsVal) : option json :=
  match v with
  | JsUndefined => None
  | JsNull => Some JNull
  | JsBool b => Some (JBool b)
  | JsNum q => Some (JNum q)
  | JsStr s => Some (JStr s)
  | JsArr items =>
      Some (JArr (List.map
                    (fun x => match stringify x with
                              | Some j => j
                              | None => JNull
                              end) items))
  | JsObj props =>
      Some (JObj ((fix members (ps : list (string * JsVal)) :=
                     match ps with
                     | [] => []
                     | (k, x) :: r =>
                         match stringify x with
                         | Some j => (k, j) :: members r
                         | None => members r
                         end
                     end) props))
  end.

(** The property names of a document. *)
Definition keys (j : json) : list string :=
  match j with JObj props => List.map fst props | _ => [] end.

Fixpoint assoc {A : Type} (k : string) (ps : list (string * A)) : option A :=
  match ps with
  | [] => None
  | (k', x) :: r => if String.eqb k k' then Some x else assoc k r
  end.
End Json.

(* ------------------------------------------------------------------ *)
(** ** The request, the tools and the report *)
(* ------------------------------------------------------------------ *)

Module Analyze.
Import JsNum JsString Json.
Local Open Scope Q_scope.

(** *** The request *)

(** [req.file], as multer leaves it: with a [path] (disk storage) or
    with a [buffer]. *)
Record UploadedFile := {
  file_path : bool;
  file_buffer : bool
}.

(** [req.body]: the plain-text form fields. *)
Record Body := {
  body_niche : option jsstring;
  body_tone : option jsstring;
  body_goals : option jsstring;
  body_pillars : option jsstring
}.

(** *** What the tools print: one record per stderr line, holding the
    captures of the regular expressions the handler applies to it. *)

(** [/pts_time:([0-9\.]+)/] and [/scene_score=([0-9\.]+)/] *)
Record ShowinfoLine := {
  pts_time : option Q;
  scene_score : option Q
}.

(** [/silence_start: ([0-9\.]+)/] and [/silence_end: ([0-9\.]+) \|/] *)
Record SilenceLine := {
  silence_start : option Q;
  silence_end : option Q
}.

(** [/mean_volume:\s*(-?[0-9\.]+) dB/] and [/max_volume:.../] *)
Record VolumeLine := {
  mean_volume : option Q;
  max_volume : option Q
}.

(** [/YAVG:([0-9\.]+)/], [/YMIN:([0-9]+)/], [/YMAX:([0-9]+)/] *)
Record SignalLine := {
  YAVG : option Q;
  YMIN : option Q;
  YMAX : option Q
}.

(** [ffmpeg.ffprobe(inputPath, (err, data) => ...)]: [err], or [data]
    with the number that [data?.format?.duration] holds ([None] when it is
    missing or falsy).  A duration that [Number] does not read as a number
    makes [durationSec] NaN and is, like NaN everywhere, outside the
    model. *)
Inductive ProbeAnswer :=
| ProbeErr
| ProbeData (duration : option Q).

(** [Tesseract.recognize(f, 'eng')]: it throws, or resolves to a value
    whose [data.text] may be missing. *)
Inductive OcrAnswer :=
| OcrThrows
| OcrData (text : option jsstring).

(** A transcript segment after
    [{ start: Number(s.start||0), end: Number(s.end||0), text: String(s.text||'') }]. *)
Record Segment := {
  seg_start : Q;
  seg_end : Q;
  seg_text : jsstring
}.

(** [openai.audio.transcriptions.create(...)]: it throws, or resolves to
    [tr] with [tr.text] and [tr.segments] (present when it is an array). *)
Inductive TranscriptionAnswer :=
| TrThrows
| TrData (text : option jsstring) (segs : option (list Segment)).

(** An element of [parsed.suggestions]: a string, or an object with a
    [tip]. *)
Inductive SuggestionItem :=
| TipString (s : jsstring)
| TipObject (tip : option jsstring).

(** The completion for the suggestion prompt: the call throws, or its
    content (fence removed, [JSON.parse]d) has an array [suggestions] or
    has none. *)
Inductive SuggestionAnswer :=
| SugThrows
| SugParsed (items : option (list SuggestionItem)).

(** The completion for the critique prompt: the call throws, or
    [choices?.[0]?.message?.content] is a string or is missing. *)
Inductive CritiqueAnswer :=
| CritThrows
| CritContent (content : option jsstring).

(** The values the template literal [promptSug] interpolates.  The
    keywords line is a function of [transcript] alone, which stands for
    it. *)
Record SuggestionPrompt := {
  p_niche : jsstring;
  p_tone : jsstring;
  p_goals : jsstring;
  p_pillars : jsstring;
  p_durationSec : Q;
  p_cuts : Z;
  p_first3Cuts : Z;
  p_avgCutSec : Q;
  p_silencePct : Q;
  p_firstSoundSec : Q;
  p_hookText : jsstring;
  p_first2sText : jsstring;
  p_captionsPresent : bool;
  p_meanDb : option Q;
  p_maxDb : option Q;
  p_wordsPerSec : option Q;
  p_yavg : option Q;
  p_ymin : option Q;
  p_ymax : option Q;
  p_contrast : option Q;
  p_transcript : option jsstring
}.

(** The values the critique [prompt] interpolates. *)
Record CritiquePrompt := {
  c_durationSec : Q;
  c_cuts : Z;
  c_avgCutSec : Q;
  c_hookText : jsstring;
  c_silences : Z;
  c_captionsPresent : bool
}.

(** The client [openai], when [OPENAI_API_KEY] configured one. *)
Record OpenAI := {
  transcriptions_create : TranscriptionAnswer;
  suggestions_create : SuggestionPrompt -> SuggestionAnswer;
  critique_create : CritiquePrompt -> CritiqueAnswer
}.

(** Everything outside the handler.  The tools that run after the
    cleanup are not forced to fail here although their input has been
    removed: the theorems hold whatever they answer. *)
Record Env := {
  req_file : option UploadedFile;
  mkdtemp_ok : bool;
  writeFile_ok : bool;
  ffprobe : ProbeAnswer;
  showinfo : Q -> list ShowinfoLine;
  silencedetect : list SilenceLine;
  recognize : Q -> OcrAnswer;
  rm_ok : bool;
  unlink_ok : bool;
  cut_samples : option (list Q);
  openai : option OpenAI;
  volumedetect : list VolumeLine;
  signalstats : list SignalLine;
  signalstats_end : bool
}.

(** *** The report *)

Record Silence := {
  s_start : Q;
  s_end : Q
}.

Record Loudness := {
  meanDb : option Q;
  maxDb : option Q
}.

(** [firstSecondStats]: a key exists once it has been assigned. *)
Record FirstSecondStats := {
  yavg : option Q;
  ymin : option Q;
  ymax : option Q;
  contrast : option Q
}.

(** The argument of the final [res.json]; [None] is [undefined]. *)
Record Report := {
  durationSec : Q;
  cuts : Z;
  avgCutSec : Q;
  cutTimeline : list Q;
  first3Cuts : Z;
  hookText : jsstring;
  first2sText : jsstring;
  captionsPresent : bool;
  silences : list Silence;
  silenceRatio : Q;
  loudness : Loudness;
  firstSecond : FirstSecondStats;
  wordsPerSec : option Q;
  transcript : option jsstring;
  suggestions : list jsstring;
  critique : option (list jsstring)
}.

Inductive Payload :=
| ErrorBody (error : string)
| ReportBody (r : Report).

Record Response := {
  status : nat;
  payload : Payload
}.

(** *** The handler monad *)

(** The stages whose execution the log records. *)
Inductive Stage :=
| SceneDetect (threshold : Q)
| SilenceDetect
| Screenshots
| Ocr (t : Q)
| SilenceFallback
| FrameSample
| Transcribe
| VolumeDetect
| SignalStats
| Suggest
| Critique.

(** The files the request owns, and the stages run so far (the latest
    first). *)
Record World := {
  workDir_exists : bool;
  upload_exists : bool;
  log : list Stage
}.

(** A statement completes with a value, throws, or has sent the response
    and returned from the handler. *)
Inductive Result (A : Type) :=
| Value (a : A)
| Thrown
| Responded (r : Response).
Arguments Value {A} a.
Arguments Thrown {A}.
Arguments Responded {A} r.

Definition M (A : Type) : Type := World -> Result A * World.

Definition ret {A} (a : A) : M A := fun w => (Value a, w).

Definition bind {A B} (m : M A) (k : A -> M B) : M B :=
  fun w =>
    match m w with
    | (Value a, w') => k a w'
    | (Thrown, w') => (Thrown, w')
    | (Responded r, w') => (Responded r, w')
    end.

Definition throw {A} : M A := fun w => (Thrown, w).

(** [return res.status(s).json(...)] *)
Definition respond {A} (r : Response) : M A := fun w => (Responded r, w).

(** [try { m } catch { h }] *)
Definition try_catch {A} (m : M A) (h : M A) : M A :=
  fun w =>
    match m w with
    | (Thrown, w') => h w'
    | other => other
    end.

Definition ran (s : Stage) : M unit :=
  fun w => (Value tt, {| workDir_exists := workDir_exists w;
                         upload_exists := upload_exists w;
                         log := s :: log w |}).

Declare Scope handler_scope.
Delimit Scope handler_scope with handler.
Notation "x <- m ;; k" := (bind m (fun x => k))
  (at level 61, m at next level, right associativity) : handler_scope.
Notation "' p <- m ;; k" := (bind m (fun p => k))
  (at level 61, p pattern, m at next level, right associativity)
  : handler_scope.
Notation "m ;; k" := (bind m (fun _ => k))
  (at level 61, right associativity) : handler_scope.
Local Open Scope handler_scope.

(** *** The pure parts of the handler *)

(** [String(x || d)] for a form field. *)
Definition field (x : option jsstring) (d : jsstring) : jsstring :=
  match x with
  | Some s => or_else s d
  | None => d
  end.

(** [String(x || '').split(',').filter(Boolean)] *)
Definition csv (x : option jsstring) : list jsstring :=
  filter truthy (split_by (N.eqb comma) [] (field x [])).

(** The stderr listener of [detectCuts]: a line with [pts_time] pushes
    it, and pushes it once more when the line has a [scene_score] too. *)
Definition showinfo_times (l : ShowinfoLine) : list Q :=
  match pts_time l with
  | Some t =>
      t :: (match scene_score l with Some _ => [t] | None => [] end)
  | None => []
  end.

Definition parse_times (lines : list ShowinfoLine) : list Q :=
  flat_map showinfo_times lines.

(** [Array.from(new Set(xs))]: the first occurrence of each number. *)
Fixpoint dedupe (seen : list Q) (xs : list Q) : list Q :=
  match xs with
  | [] => []
  | x :: r =>
      if existsb (eqb x) seen then dedupe seen r
      else x :: dedupe (x :: seen) r
  end.

(** [xs.sort((a,b)=>a-b)] *)
Fixpoint insert_sorted (x : Q) (xs : list Q) : list Q :=
  match xs with
  | [] => [x]
  | y :: r => if leb x y then x :: xs else y :: insert_sorted x r
  end.

Definition sort_numbers (xs : list Q) : list Q :=
  fold_right insert_sorted [] xs.

(** [out[out.length-1].end = e] *)
Fixpoint set_last_end (e : Q) (out : list Silence) : list Silence :=
  match out with
  | [] => []
  | [s] => [{| s_start := s_start s; s_end := e |}]
  | s :: r => s :: set_last_end e r
  end.

(** The stderr listener of the silence detection. *)
Definition silence_line (out : list Silence) (l : SilenceLine)
  : list Silence :=
  let out1 :=
    match silence_start l with
    | Some s => out ++ [{| s_start := s; s_end := s |}]
    | None => out
    end in
  match silence_end l with
  | Some e =>
      match out1 with
      | [] => out1
      | _ :: _ => set_last_end e out1
      end
  | None => out1
  end.

Definition parse_silences (lines : list SilenceLine) : list Silence :=
  fold_left silence_line lines [].

(** [text.replace(/\s+/g, ' ').slice(0, 80)] *)
Definition normalize_hook (text : jsstring) : jsstring :=
  slice0 80 (replace_ws false text).

(** [(resOcr?.data?.text || '').trim()] *)
Definition ocr_text (text : option jsstring) : jsstring :=
  trim (match text with Some s => s | None => [] end).

(** [[0, 0.5, 1.0]] *)
Definition frame_times : list Q := [0; 0.5; 1.0].

(** [silences.filter(s => (s.end - s.start) >= 0.25).length] *)
Definition gaps (ss : list Silence) : Z :=
  Z.of_nat (List.length
              (filter (fun s => geb (s_end s - s_start s) 0.25) ss)).

(** The loop over [stats] of the frame sampling. *)
Fixpoint inferredCuts (stats : list Q) : Z :=
  match stats with
  | a :: (b :: _) as rest =>
      ((if eqb a 0 || eqb b 0 then 0
        else if geb (Math_abs (b - a) / Math_max a b) 0.15 then 1
             else 0)
       + inferredCuts rest)%Z
  | _ => 0%Z
  end.

(** [cuts > 1 ? Math.round((durationSec / cuts) * 10) / 10 : durationSec] *)
Definition avgCutSec_of (durationSec : Q) (cuts : Z) : Q :=
  if (1 <? cuts)%Z
  then Math_round ((durationSec / inject_Z cuts) * 10) / 10
  else durationSec.

(** [silences.find(s => s.start <= 0.05)] and [firstSoundSec]. *)
Definition firstSoundSec_of (ss : list Silence) : Q :=
  match find (fun s => leb (s_start s) 0.05) ss with
  | Some s => if eqb (s_end s) 0 then 0 else s_end s
  | None => 0
  end.

(** [segments.filter(s => s.start < 2).map(s => s.text).join(' ').trim()] *)
Definition first2sText_of (segs : list Segment) : jsstring :=
  trim (join [32%N]
          (List.map seg_text (filter (fun s => ltb (seg_start s) 2) segs))).

(** [segments.reduce((acc, s) => acc + Math.max(0, s.end - s.start), 0)] *)
Definition speechSeconds_of (segs : list Segment) : Q :=
  fold_left (fun acc s => acc + Math_max 0 (seg_end s - seg_start s))
            segs 0.

(** [(transcript || '').trim().split(/\s+/).filter(Boolean).length] *)
Definition wordsTotal_of (transcript : option jsstring) : Z :=
  Z.of_nat (List.length
              (filter truthy
                 (split_ws [] false
                    (trim (match transcript with
                           | Some t => t
                           | None => []
                           end))))).

(** [speechSeconds > 0 ? Number((wordsTotal / speechSeconds).toFixed(2)) : undefined] *)
Definition wordsPerSec_of (wordsTotal : Z) (speechSeconds : Q) : option Q :=
  if ltb 0 speechSeconds
  then Some (toFixed 2 (inject_Z wordsTotal / speechSeconds))
  else None.

(** [cutTimestamps.filter(t => t <= 3).length] *)
Definition first3Cuts_of (cutTimestamps : list Q) : Z :=
  Z.of_nat (List.length (filter (fun t => leb t 3) cutTimestamps)).

(** [silences.reduce((acc, s) => acc + Math.max(0, (s.end - s.start)), 0)] *)
Definition silence_total (ss : list Silence) : Q :=
  fold_left (fun acc s => acc + Math_max 0 (s_end s - s_start s)) ss 0.

(** [... / Math.max(1, durationSec)] *)
Definition silenceRatio_of (ss : list Silence) (durationSec : Q) : Q :=
  silence_total ss / Math_max 1 durationSec.

(** The last capture of a listener that overwrites its variable. *)
Definition last_capture {L : Type} (get : L -> option Q) (lines : list L)
  : option Q :=
  fold_left (fun acc l => match get l with Some v => Some v | None => acc end)
            lines None.

Definition captures {L : Type} (get : L -> option Q) (lines : list L)
  : list Q :=
  flat_map (fun l => match get l with Some v => [v] | None => [] end) lines.

(** [values.reduce((a,b)=>a+b,0)] *)
Definition sum_numbers (xs : list Q) : Q := fold_left Qplus xs 0.

(** The listeners of the first-second statistics: [ended] tells the
    ['end'] event from ['error'], which leaves [yavg] and [contrast]
    unassigned. *)
Definition firstSecondStats_of (lines : list SignalLine) (ended : bool)
  : FirstSecondStats :=
  let values := captures YAVG lines in
  let lo := last_capture YMIN lines in
  let hi := last_capture YMAX lines in
  {| yavg :=
       if ended
       then match values with
            | [] => None
            | _ :: _ =>
                Some (Math_round (sum_numbers values
                                  / ofNat (List.length values)))
            end
       else None;
     ymin := lo;
     ymax := hi;
     contrast :=
       if ended
       then match lo, hi with
            | Some a, Some b => Some (toFixed 0 (b - a))
            | _, _ => None
            end
       else None |}.

(** [parsed.suggestions.slice(0,5).map(s => typeof s === 'string' ? s : (s?.tip || '')).filter(Boolean)] *)
Definition suggestions_of (items : list SuggestionItem) : list jsstring :=
  filter truthy
    (List.map (fun s => match s with
                        | TipString t => t
                        | TipObject (Some t) => t
                        | TipObject None => []
                        end)
              (firstn 5 items)).

(** [content.split(/\n|\r/).map(s=>s.trim()).filter(Boolean).slice(0,5)] *)
Definition critique_of (content : jsstring) : list jsstring :=
  firstn 5 (filter truthy (List.map trim (split_by is_newline [] content))).

(** *** The effects of the handler *)

Definition set_workDir (b : bool) : M unit :=
  fun w => (Value tt, {| workDir_exists := b;
                         upload_exists := upload_exists w;
                         log := log w |}).

Definition set_upload (b : bool) : M unit :=
  fun w => (Value tt, {| workDir_exists := workDir_exists w;
                         upload_exists := b;
                         log := log w |}).

Definition error (s : nat) (code : string) : Response :=
  {| status := s; payload := ErrorBody code |}.

Section Handler.
Variable body : Body.
Variable env : Env.

(** [await mkdtemp(path.join(os.tmpdir(), "vid-"))] *)
Definition mkdtemp : M unit :=
  if mkdtemp_ok env then set_workDir true else throw.

(** [if (!file.path && file.buffer) await writeFile(inputPath, file.buffer)] *)
Definition write_upload (file : UploadedFile) : M unit :=
  if negb (file_path file) && file_buffer file
  then (if writeFile_ok env then ret tt else throw)
  else ret tt.

(** The promise around [ffmpeg.ffprobe]: [err ? reject(err) : resolve(data)],
    then [Math.round(Number(probe?.format?.duration || 0))]. *)
Definition probe_duration : M Q :=
  match ffprobe env with
  | ProbeErr => throw
  | ProbeData d =>
      ret (Math_round (match d with Some x => x | None => 0 end))
  end.

(** [detectCuts(threshold)]: resolves on ['end'] and on ['error']. *)
Definition detectCuts (threshold : Q) : M (list Q) :=
  ran (SceneDetect threshold) ;;
  ret (parse_times (showinfo env threshold)).

(** First pass (stricter), second pass (looser) if needed. *)
Definition visual_passes : M (list Q) :=
  cutTimestamps <- detectCuts 0.32 ;;
  if (List.length cutTimestamps =? 0)%nat
  then loose <- detectCuts 0.15 ;;
       ret (sort_numbers (dedupe [] (cutTimestamps ++ loose)))
  else ret cutTimestamps.

Definition detect_silences : M (list Silence) :=
  ran SilenceDetect ;;
  ret (parse_silences (silencedetect env)).

(** The body of [for (const f of frames)]; [hookText] is assigned at
    the [break] only. *)
Fixpoint ocr_loop (frames : list Q) : M jsstring :=
  match frames with
  | [] => ret []
  | f :: rest =>
      ran (Ocr f) ;;
      match recognize env f with
      | OcrThrows => throw
      | OcrData t =>
          let text := ocr_text t in
          if truthy text then ret (normalize_hook text)
          else ocr_loop rest
      end
  end.

(** [let hookText = ''; try { ... } catch {}] *)
Definition extract_hook : M jsstring :=
  ran Screenshots ;;
  try_catch (ocr_loop frame_times) (ret []).

(** [await rm(workDir, { recursive: true, force: true })] and
    [if (file && file.path) { try { await unlink(file.path); } catch {} }] *)
Definition cleanup (file : UploadedFile) : M unit :=
  (if rm_ok env then set_workDir false else throw) ;;
  if file_path file
  then try_catch (if unlink_ok env then set_upload false else throw)
                 (ret tt)
  else ret tt.

(** Fallback: approximate cuts from silence boundaries. *)
Definition silence_fallback (cutTimestamps : list Q) (ss : list Silence)
  : M Z :=
  let cuts := Z.of_nat (List.length cutTimestamps) in
  if (cuts =? 0)%Z && (1 <? List.length ss)%nat
  then ran SilenceFallback ;;
       ret (Z.max 0 (gaps ss - 1))
  else ret cuts.

(** Second fallback: sampled frames and their file sizes.  [None] in
    [cut_samples] is a throwing [readdir] or [stat]. *)
Definition frame_fallback (cuts : Z) (cutTimestamps : list Q)
  : M (Z * list Q) :=
  if (cuts =? 0)%Z
  then ran FrameSample ;;
       try_catch
         (match cut_samples env with
          | None => throw
          | Some stats =>
              let inferred := inferredCuts stats in
              if (0 <? inferred)%Z then ret (inferred, [])
              else ret (cuts, cutTimestamps)
          end)
         (ret (cuts, cutTimestamps))
  else ret (cuts, cutTimestamps).

(** Optional speech transcription. *)
Definition transcribe : M (option jsstring * option (list Segment)) :=
  try_catch
    (match openai env with
     | Some ai =>
         ran Transcribe ;;
         match transcriptions_create ai with
         | TrThrows => throw
         | TrData text segs =>
             ret (match text with
                  | Some t => if truthy t then Some t else None
                  | None => None
                  end, segs)
         end
     | None => ret (None, None)
     end)
    (ret (None, None)).

Definition measure_loudness : M Loudness :=
  ran VolumeDetect ;;
  ret {| meanDb := last_capture mean_volume (volumedetect env);
         maxDb := last_capture max_volume (volumedetect env) |}.

Definition measure_first_second : M FirstSecondStats :=
  ran SignalStats ;;
  ret (firstSecondStats_of (signalstats env) (signalstats_end env)).

(** The try block around the suggestion completion. *)
Definition suggest (ai : OpenAI) (p : SuggestionPrompt)
  : M (list jsstring) :=
  try_catch
    (ran Suggest ;;
     match suggestions_create ai p with
     | SugThrows => throw
     | SugParsed items =>
         ret (match items with
              | Some l => suggestions_of l
              | None => []
              end)
     end)
    (respond (error 502 "llm_failed")).

(** The try block around the critique completion. *)
Definition criticize (ai : OpenAI) (p : CritiquePrompt)
  : M (option (list jsstring)) :=
  try_catch
    (ran Critique ;;
     match critique_create ai p with
     | CritThrows => throw
     | CritContent c => ret (option_map critique_of c)
     end)
    (ret None).

(** The [try] block of the handler. *)
Definition analyze_try : M Empty_set :=
  file <- match req_file env with
          | None => respond (error 400 "missing_file")
          | Some f => ret f
          end ;;
  let niche := field (body_niche body) (lit "General") in
  let tone := field (body_tone body) (lit "Relatable") in
  let goals := csv (body_goals body) in
  let pillars := csv (body_pillars body) in
  mkdtemp ;;
  write_upload file ;;
  durationSec <- probe_duration ;;
  cutTimestamps <- visual_passes ;;
  silences <- detect_silences ;;
  hookText <- extract_hook ;;
  let captionsPresent := truthy hookText in
  cleanup file ;;
  cuts <- silence_fallback cutTimestamps silences ;;
  ' (cuts, cutTimestamps) <- frame_fallback cuts cutTimestamps ;;
  let avgCutSec := avgCutSec_of durationSec cuts in
  let firstSoundSec := firstSoundSec_of silences in
  ' (transcript, segments) <- transcribe ;;
  let first2sText :=
    match segments with
    | Some ((_ :: _) as segs) => first2sText_of segs
    | _ => []
    end in
  let speechSeconds :=
    match segments with
    | Some ((_ :: _) as segs) => speechSeconds_of segs
    | _ => 0
    end in
  let wordsTotal := wordsTotal_of transcript in
  let wordsPerSec := wordsPerSec_of wordsTotal speechSeconds in
  let first3Cuts := first3Cuts_of cutTimestamps in
  let silenceRatio := silenceRatio_of silences durationSec in
  loudness <- measure_loudness ;;
  firstSecondStats <- measure_first_second ;;
  ai <- match openai env with
        | None => respond (error 503 "llm_unavailable")
        | Some ai => ret ai
        end ;;
  suggestions <-
    suggest ai
      {| p_niche := niche;
         p_tone := tone;
         p_goals := or_else (join (lit ", ") goals) (lit "audience growth");
         p_pillars := or_else (join (lit ", ") pillars) [8212%N];
         p_durationSec := durationSec;
         p_cuts := cuts;
         p_first3Cuts := first3Cuts;
         p_avgCutSec := avgCutSec;
         p_silencePct := toFixed 1 (silenceRatio * 100);
         p_firstSoundSec := firstSoundSec;
         p_hookText := or_else hookText [8212%N];
         p_first2sText := or_else first2sText [8212%N];
         p_captionsPresent := captionsPresent;
         p_meanDb := meanDb loudness;
         p_maxDb := maxDb loudness;
         p_wordsPerSec := wordsPerSec;
         p_yavg := yavg firstSecondStats;
         p_ymin := ymin firstSecondStats;
         p_ymax := ymax firstSecondStats;
         p_contrast := contrast firstSecondStats;
         p_transcript := transcript |} ;;
  critique <-
    criticize ai
      {| c_durationSec := durationSec;
         c_cuts := cuts;
         c_avgCutSec := avgCutSec;
         c_hookText := or_else hookText [8212%N];
         c_silences := Z.of_nat (List.length silences);
         c_captionsPresent := captionsPresent |} ;;
  respond
    {| status := 200;
       payload :=
         ReportBody
           {| durationSec := durationSec;
              cuts := cuts;
              avgCutSec := avgCutSec;
              cutTimeline := cutTimestamps;
              first3Cuts := first3Cuts;
              hookText := hookText;
              first2sText := first2sText;
              captionsPresent := captionsPresent;
              silences := silences;
              silenceRatio := silenceRatio;
              loudness := loudness;
              firstSecond := firstSecondStats;
              wordsPerSec := wordsPerSec;
              transcript := transcript;
              suggestions := suggestions;
              critique := critique |} |}.

(** The world when the handler starts: multer has stored the upload
    when the file has a path. *)
Definition initial_world : World :=
  {| workDir_exists := false;
     upload_exists :=
       match req_file env with
       | Some f => file_path f
       | None => false
       end;
     log := [] |}.

(** [try { ... } catch (e) { res.status(500).json({ error: "analysis_failed" }) }]:
    the response and the world the handler leaves. *)
Definition analyze : Response * World :=
  match try_catch analyze_try (respond (error 500 "analysis_failed"))
                  initial_world with
  | (Responded r, w) => (r, w)
  | (Thrown, w) => (error 500 "analysis_failed", w)
  | (Value e, _) => match e with end
  end.

Definition response : Response := fst analyze.
Definition final_world : World := snd analyze.
End Handler.

(** *** The body of the response *)

Definition opt_num (x : option Q) : JsVal :=
  match x with Some q => JsNum q | None => JsUndefined end.

Definition assigned (k : string) (x : option Q) : list (string * JsVal) :=
  match x with Some q => [(k, JsNum q)] | None => [] end.

(** [firstSecondStats] starts as [{}] and gets the keys assigned to it. *)
Definition firstSecond_object (f : FirstSecondStats) : JsVal :=
  JsObj (assigned "ymin" (ymin f) ++ assigned "ymax" (ymax f)
         ++ assigned "yavg" (yavg f) ++ assigned "contrast" (contrast f)).

(** The object literal given to the final [res.json]. *)
Definition report_object (r : Report) : JsVal :=
  JsObj
    [ ("durationSec", JsNum (durationSec r));
      ("cuts", JsNum (inject_Z (cuts r)));
      ("avgCutSec", JsNum (avgCutSec r));
      ("cutTimeline", JsArr (List.map JsNum (cutTimeline r)));
      ("first3Cuts", JsNum (inject_Z (first3Cuts r)));
      ("hookText", JsStr (hookText r));
      ("first2sText", JsStr (first2sText r));
      ("captionsPresent", JsBool (captionsPresent r));
      ("silences",
        JsArr (List.map (fun s => JsObj [ ("start", JsNum (s_start s));
                                          ("end", JsNum (s_end s)) ])
                        (silences r)));
      ("silenceRatio", JsNum (silenceRatio r));
      ("loudness", JsObj [ ("meanDb", opt_num (meanDb (loudness r)));
                           ("maxDb", opt_num (maxDb (loudness r))) ]);
      ("firstSecond", firstSecond_object (firstSecond r));
      ("wordsPerSec", opt_num (wordsPerSec r));
      ("transcript",
        match transcript r with Some t => JsStr t | None => JsUndefined end);
      ("suggestions", JsArr (List.map JsStr (suggestions r)));
      ("critique",
        match critique r with
        | Some c => JsArr (List.map JsStr c)
        | None => JsUndefined
        end) ]%string.

Definition payload_object (p : Payload) : JsVal :=
  match p with
  | ErrorBody code => JsObj [ ("error"%string, JsStr (lit code)) ]
  | ReportBody r => report_object r
  end.

(** What [res.json] writes. *)
Definition res_json (r : Response) : option json :=
  stringify (payload_object (payload r)).
End Analyze.

(* ------------------------------------------------------------------ *)
(** ** Reasoning about the handler *)
(* ------------------------------------------------------------------ *)

Import JsNum JsString Json Analyze.
Local Open Scope Q_scope.

(** The world after the stages [l] (the latest first) have been logged. *)
Definition logged (l : list Stage) (w : World) : World :=
  {| workDir_exists := workDir_exists w;
     upload_exists := upload_exists w;
     log := l ++ log w |}.

(** The stages of the cut detection chain. *)
Definition is_cut_stage (s : Stage) : bool :=
  match s with
  | SceneDetect _ | SilenceFallback | FrameSample => true
  | _ => false
  end.

(** [w'] is [w] after stages outside the cut detection chain. *)
Definition quiet_step (w w' : World) : Prop :=
  exists l, w' = logged l w
            /\ forallb (fun s => negb (is_cut_stage s)) l = true.

(** Weakest precondition of a statement: [Q] for its value, [T] when it
    throws, [R] when it has responded. *)
Definition wp {A} (m : M A) (w : World)
    (Q : A -> World -> Prop) (T : World -> Prop)
    (R : Response -> World -> Prop) : Prop :=
  match m w with
  | (Value a, w') => Q a w'
  | (Thrown, w') => T w'
  | (Responded r, w') => R r w'
  end.

(** The strict and the loose pass, and the timestamps the two passes leave
    in [cutTimestamps]. *)
Definition strict_cuts (env : Env) : list Q := parse_times (showinfo env 0.32).
Definition loose_cuts (env : Env) : list Q := parse_times (showinfo env 0.15).

Definition visual_cuts (env : Env) : list Q :=
  match strict_cuts env with
  | [] => sort_numbers (dedupe [] (loose_cuts env))
  | _ :: _ => strict_cuts env
  end.

(** The intervals the silence detection leaves in [silences]. *)
Definition detected_silences (env : Env) : list Silence :=
  parse_silences (silencedetect env).

(** The cut count after the silence-derived stage. *)
Definition cuts_after_silence (env : Env) : Z :=
  match visual_cuts env with
  | [] => Z.max 0 (gaps (detected_silences env) - 1)
  | ts => Z.of_nat (List.length ts)
  end.

(** The OCR loop over the answers for the frames in order: [None] when a
    call throws before a frame with text is found. *)
Fixpoint scan_answers (answers : list OcrAnswer) : option jsstring :=
  match answers with
  | [] => Some []
  | OcrThrows :: _ => None
  | OcrData t :: rest =>
      if truthy (ocr_text t) then Some (normalize_hook (ocr_text t))
      else scan_answers rest
  end.

(** The first non-empty candidate of an ordered list of texts, as the hook
    text: normalized and truncated, or empty when there is none. *)
Definition first_nonempty_hook (texts : list jsstring) : jsstring :=
  match find truthy texts with
  | Some t => normalize_hook t
  | None => []
  end.

(** The segments the transcription leaves in [segments]. *)
Definition segments_of (env : Env) : option (list Segment) :=
  match openai env with
  | Some ai =>
      match transcriptions_create ai with
      | TrData _ segs => segs
      | TrThrows => None
      end
  | None => None
  end.

(** The summed speech seconds over the transcript segments. *)
Definition speechSeconds (env : Env) : Q :=
  match segments_of env with
  | Some segs => speechSeconds_of segs
  | None => 0
  end.

(** The request gets as far as the measurements: there is a file, the
    working directory is made, the probe answers and the cleanup goes
    through. *)
Definition measurable (env : Env) : Prop :=
  (exists file, req_file env = Some file
                /\ (file_path file = false -> file_buffer file = true ->
                    writeFile_ok env = true))
  /\ mkdtemp_ok env = true
  /\ (exists d, ffprobe env = ProbeData d)
  /\ rm_ok env = true.

(** The suggestion service works: a client is configured and its
    completion does not throw. *)
Definition suggestion_service_works (env : Env) : Prop :=
  exists ai, openai env = Some ai
             /\ forall p, suggestions_create ai p <> SugThrows.

(** Silence intervals in order, closed, one after the other, between [lo]
    and [hi]. *)
Fixpoint in_order (lo hi : Q) (ss : list Silence) : Prop :=
  match ss with
  | [] => lo <= hi
  | s :: r => lo <= s_start s /\ s_start s <= s_end s /\ in_order (s_end s) hi r
  end.

(** The keys every report has, and the keys of an optional measurement. *)
Definition always_keys : list string :=
  [ "durationSec"; "cuts"; "avgCutSec"; "cutTimeline"; "first3Cuts";
    "hookText"; "first2sText"; "captionsPresent"; "silences";
    "silenceRatio"; "loudness"; "firstSecond"; "suggestions" ]%string.

Definition declared_keys : list string :=
  List.app always_keys [ "wordsPerSec"; "transcript"; "critique" ]%string.

(** Postconditions of a stage that cannot throw, and of one that cannot
    respond. *)
Definition never : World -> Prop := fun _ => False.
Definition silent : Response -> World -> Prop := fun _ _ => False.

(** The stages of the cut detection chain in the log of a world. *)
Definition cut_log (w : World) : list Stage := filter is_cut_stage (log w).

(** The silence-derived fallback is entered. *)
Definition silence_guard (env : Env) : bool :=
  match visual_cuts env with
  | [] => (1 <? List.length (detected_silences env))%nat
  | _ :: _ => false
  end.

(** The chain a request that gets to the measurements runs, the latest
    stage first. *)
Definition expected_chain (env : Env) : list Stage :=
  (if (cuts_after_silence env =? 0)%Z then [FrameSample] else [])
  ++ (if silence_guard env then [SilenceFallback] else [])
  ++ match strict_cuts env with
     | [] => [SceneDetect 0.15; SceneDetect 0.32]
     | _ :: _ => [SceneDetect 0.32]
     end.

(** The hook text the OCR answers lead to. *)
Definition hook_of (env : Env) : jsstring :=
  match scan_answers (List.map (recognize env) frame_times) with
  | Some h => h
  | None => []
  end.

(** What the handler has measured when it sends a report. *)
Definition report_facts (env : Env) (r : Report) : Prop :=
  (exists x, ffprobe env = ProbeData x
             /\ durationSec r = Math_round (match x with
                                            | Some v => v
                                            | None => 0
                                            end))
  /\ ((cuts_after_silence env <> 0%Z
       /\ cuts r = cuts_after_silence env /\ cutTimeline r = visual_cuts env)
      \/ (cuts_after_silence env = 0%Z
          /\ ((cuts r = 0%Z /\ cutTimeline r = visual_cuts env)
              \/ ((0 < cuts r)%Z /\ cutTimeline r = []))))
  /\ avgCutSec r = avgCutSec_of (durationSec r) (cuts r)
  /\ first3Cuts r = first3Cuts_of (cutTimeline r)
  /\ hookText r = hook_of env
  /\ captionsPresent r = truthy (hookText r)
  /\ silences r = detected_silences env
  /\ silenceRatio r = silenceRatio_of (silences r) (durationSec r)
  /\ wordsPerSec r =
       wordsPerSec_of (wordsTotal_of (transcript r))
         (match segments_of env with
          | Some ((_ :: _) as segs) => speechSeconds_of segs
          | _ => 0
          end).

(** The world a request that got to the measurements leaves. *)
Definition cleaned_up (env : Env) (w : World) : Prop :=
  workDir_exists w = false
  /\ (unlink_ok env = true -> upload_exists w = false)
  /\ cut_log w = expected_chain env.

(** The five ways the handler answers. *)
Definition outcome (env : Env) (resp : Response) (w : World) : Prop :=
  (resp = error 400 "missing_file" /\ req_file env = None
   /\ w = initial_world env)
  \/ (resp = error 500 "analysis_failed" /\ ~ measurable env)
  \/ (resp = error 503 "llm_unavailable" /\ measurable env
      /\ openai env = None /\ cleaned_up env w)
  \/ (resp = error 502 "llm_failed" /\ measurable env
      /\ (exists ai p, openai env = Some ai
                       /\ suggestions_create ai p = SugThrows)
      /\ cleaned_up env w)
  \/ (status resp = 200%nat /\ measurable env
      /\ (exists ai, openai env = Some ai)
      /\ cleaned_up env w
      /\ exists r, payload resp = ReportBody r /\ report_facts env r).

(** [y] is [x] rounded to [d] decimals, a tie going up. *)
Definition rounds_to (d : nat) (x y : Q) : Prop :=
  (exists k : Z, y == inject_Z k / pow10 d)
  /\ y - 1 / (2 * pow10 d) <= x /\ x < y + 1 / (2 * pow10 d).

(** Every white-space code unit of [s] is a single space that does not
    follow another one; [after_space] tells that a space came just before. *)
Fixpoint single_spaced (after_space : bool) (s : jsstring) : bool :=
  match s with
  | [] => true
  | c :: r =>
      if is_space c
      then N.eqb c 32 && negb after_space && single_spaced true r
      else single_spaced false r
  end.

(** The metric fields of two reports agree. *)
Definition same_metrics (r1 r2 : Report) : Prop :=
  durationSec r1 = durationSec r2
  /\ cuts r1 = cuts r2
  /\ avgCutSec r1 = avgCutSec r2
  /\ cutTimeline r1 = cutTimeline r2
  /\ first3Cuts r1 = first3Cuts r2
  /\ hookText r1 = hookText r2
  /\ first2sText r1 = first2sText r2
  /\ captionsPresent r1 = captionsPresent r2
  /\ silences r1 = silences r2
  /\ silenceRatio r1 = silenceRatio r2
  /\ loudness r1 = loudness r2
  /\ firstSecond r1 = firstSecond r2
  /\ wordsPerSec r1 = wordsPerSec r2
  /\ transcript r1 = transcript r2.

(** Two outcomes of the [try] block that, when both carry a report, agree
    on the metrics. *)
Definition metrics_agree {A} (o1 o2 : Result A * World) : Prop :=
  match fst o1, fst o2 with
  | Responded a, Responded b =>
      forall r1 r2, payload a = ReportBody r1 -> payload b = ReportBody r2 ->
                    same_metrics r1 r2
  | _, _ => True
  end.

(** *** Requests used as examples *)

Definition file_on_disk : UploadedFile :=
  {| file_path := true; file_buffer := false |}.

Definition no_form : Body :=
  {| body_niche := None; body_tone := None;
     body_goals := None; body_pillars := None |}.

Definition fitness_form : Body :=
  {| body_niche := Some (lit "Fitness");
     body_tone := Some (lit "Bold");
     body_goals := Some (lit "sales,,reach");
     body_pillars := Some (lit "form checks") |}.

(** A configured client whose transcription fails (the audio track was
    never written) and whose completions answer. *)
Definition coach : OpenAI :=
  {| transcriptions_create := TrThrows;
     suggestions_create := fun _ =>
       SugParsed (Some [ TipObject (Some (lit "Trim the first second"));
                         TipString (lit "Cut on the beat") ]);
     critique_create := fun _ =>
       CritContent (Some (lit "Tighten the intro")) |}.

(** A static, silent-free 20 s clip, no client configured; after the
    cleanup every tool fails on the removed input. *)
Definition env_static : Env :=
  {| req_file := Some file_on_disk;
     mkdtemp_ok := true;
     writeFile_ok := true;
     ffprobe := ProbeData (Some 20);
     showinfo := fun _ => [];
     silencedetect := [];
     recognize := fun _ => OcrData (Some []);
     rm_ok := true;
     unlink_ok := true;
     cut_samples := None;
     openai := None;
     volumedetect := [];
     signalstats := [];
     signalstats_end := false |}.

(** The same clip with the client configured. *)
Definition env_absent : Env :=
  {| req_file := Some file_on_disk;
     mkdtemp_ok := true;
     writeFile_ok := true;
     ffprobe := ProbeData (Some 20);
     showinfo := fun _ => [];
     silencedetect := [];
     recognize := fun _ => OcrData (Some []);
     rm_ok := true;
     unlink_ok := true;
     cut_samples := None;
     openai := Some coach;
     volumedetect := [];
     signalstats := [];
     signalstats_end := false |}.

(** An upload that is not a media container: the probe reports an error. *)
Definition env_undecodable : Env :=
  {| req_file := Some file_on_disk;
     mkdtemp_ok := true;
     writeFile_ok := true;
     ffprobe := ProbeErr;
     showinfo := fun _ => [];
     silencedetect := [];
     recognize := fun _ => OcrThrows;
     rm_ok := true;
     unlink_ok := true;
     cut_samples := None;
     openai := Some coach;
     volumedetect := [];
     signalstats := [];
     signalstats_end := false |}.

(** A clip of 1.4 s whose first 1.2 s are silent. *)
Definition env_short_silent : Env :=
  {| req_file := Some file_on_disk;
     mkdtemp_ok := true;
     writeFile_ok := true;
     ffprobe := ProbeData (Some 1.4);
     showinfo := fun _ => [];
     silencedetect :=
       [ {| silence_start := Some 0; silence_end := None |};
         {| silence_start := None; silence_end := Some 1.2 |} ];
     recognize := fun _ => OcrData (Some []);
     rm_ok := true;
     unlink_ok := true;
     cut_samples := None;
     openai := Some coach;
     volumedetect := [];
     signalstats := [];
     signalstats_end := false |}.

(** A client whose transcription answers with three segments. *)
Definition narrator : OpenAI :=
  {| transcriptions_create :=
       TrData (Some (lit " hello big  world "))
              (Some [ {| seg_start := 0; seg_end := 1.5;
                         seg_text := lit " hello" |};
                      {| seg_start := 1.5; seg_end := 1;
                         seg_text := lit " big" |};
                      {| seg_start := 2; seg_end := 2.5;
                         seg_text := lit " world" |} ]);
     suggestions_create := fun p => SugParsed (Some [ TipString (p_niche p) ]);
     critique_create := fun _ => CritThrows |}.

(** A 24 s clip with ten scene changes, a caption on the second frame and
    a narration. *)
Definition env_vlog : Env :=
  {| req_file := Some file_on_disk;
     mkdtemp_ok := true;
     writeFile_ok := true;
     ffprobe := ProbeData (Some 24.3);
     showinfo := fun t =>
       if Qeq_bool t 0.32
       then List.map (fun t => {| pts_time := Some t; scene_score := None |})
              [2.4; 4.8; 7.2; 9.6; 12; 14.4; 16.8; 19.2; 21.6; 23.9]
       else [];
     silencedetect :=
       [ {| silence_start := Some 0; silence_end := None |};
         {| silence_start := None; silence_end := Some 1.4 |};
         {| silence_start := Some 5; silence_end := None |} ];
     recognize := fun t =>
       if Qeq_bool t 0 then OcrData (Some (lit "  "))
       else OcrData (Some (lit " STOP   doing this "));
     rm_ok := true;
     unlink_ok := true;
     cut_samples := None;
     openai := Some narrator;
     volumedetect := [];
     signalstats := [];
     signalstats_end := false |}.

(** *** Statements of the specification that the handler does not meet,
    as they are written *)

(** "Silence ratio is always in [0, 1] for any valid duration > 0." *)
Definition silence_ratio_in_unit_interval (body : Body) (env : Env) : Prop :=
  forall r, payload (response body env) = ReportBody r ->
            0 < durationSec r ->
            0 <= silenceRatio r /\ silenceRatio r <= 1.

(** "The looser-threshold pass runs if and only if the strict pass yields
    zero cuts; the silence-derived fallback runs if and only if both
    visual passes yield zero; the frame-diff fallback runs if and only if
    the silence-derived fallback also yields zero", for a request that
    gets to the measurements. *)
Definition fallbacks_strict (body : Body) (env : Env) : Prop :=
  measurable env ->
  let w := final_world body env in
  (In (SceneDetect 0.15) (log w) <-> strict_cuts env = [])
  /\ (In SilenceFallback (log w)
      <-> strict_cuts env = [] /\ loose_cuts env = [])
  /\ (In FrameSample (log w) <-> cuts_after_silence env = 0%Z).

(** "If the media probe fails the pipeline does not abort: the stages that
    depend on the duration take 0 and the run goes on to a report", all
    the rest working. *)
Definition probe_failure_tolerated (body : Body) (env : Env) : Prop :=
  ffprobe env = ProbeErr ->
  req_file env <> None -> mkdtemp_ok env = true -> rm_ok env = true ->
  suggestion_service_works env ->
  exists r, payload (response body env) = ReportBody r /\ durationSec r == 0.

(** "A complete JSON shape with nulls": every declared key is in the body
    of a report. *)
Definition report_shape_complete (body : Body) (env : Env) : Prop :=
  forall r, payload (response body env) = ReportBody r ->
            exists j, res_json (response body env) = Some j
                      /\ forall k, In k declared_keys -> In k (keys j).

(** A probe that answers without a duration. *)
Definition env_no_duration : Env :=
  {| req_file := Some file_on_disk;
     mkdtemp_ok := true;
     writeFile_ok := true;
     ffprobe := ProbeData None;
     showinfo := fun _ => [];
     silencedetect := [];
     recognize := fun _ => OcrData (Some []);
     rm_ok := true;
     unlink_ok := true;
     cut_samples := None;
     openai := Some coach;
     volumedetect := [];
     signalstats := [];
     signalstats_end := false |}.

(** "It returns the text of the first of the three ordered frame
    candidates whose OCR text is non-empty": a frame with a text, before
    which no frame has one, gives the hook text. *)
Definition hook_is_first_text (body : Body) (env : Env) : Prop :=
  forall r, payload (response body env) = ReportBody r ->
  forall pre t post,
    List.map (recognize env) frame_times = pre ++ OcrData t :: post ->
    (forall t', In (OcrData t') pre -> ocr_text t' = []) ->
    ocr_text t <> [] ->
    hookText r = normalize_hook (ocr_text t).

(** The clip of [env_vlog] when the frame at 0 s cannot be read: the first
    OCR call throws, the later frames hold the caption. *)
Definition env_ocr_throws : Env :=
  {| req_file := Some file_on_disk;
     mkdtemp_ok := true;
     writeFile_ok := true;
     ffprobe := ProbeData (Some 24.3);
     showinfo := fun _ => [];
     silencedetect := [];
     recognize := fun t =>
       if Qeq_bool t 0 then OcrThrows
       else OcrData (Some (lit " STOP   doing this "));
     rm_ok := true;
     unlink_ok := true;
     cut_samples := None;
     openai := Some coach;
     volumedetect := [];
     signalstats := [];
     signalstats_end := false |}.

(** The summed length of the intervals, an interval that ends before it
    starts counting as 0. *)
Fixpoint summed_silence (ss : list Silence) : Q :=
  match ss with
  | [] => 0
  | s :: rest => Qmax 0 (s_end s - s_start s) + summed_silence rest
  end.

(** *** The JSON text of a report *)

(** The member of an optional number or value: none when it is absent. *)
Definition optional {X} (k : string) (f : X -> json) (x : option X)
  : list (string * json) :=
  match x with
  | Some v => [(k, f v)]
  | None => []
  end.

Definition loudness_members (l : Loudness) : list (string * json) :=
  optional "meanDb" JNum (meanDb l) ++ optional "maxDb" JNum (maxDb l).

Definition firstSecond_members (f : FirstSecondStats) : list (string * json) :=
  optional "ymin" JNum (ymin f) ++ optional "ymax" JNum (ymax f)
  ++ optional "yavg" JNum (yavg f) ++ optional "contrast" JNum (contrast f).

Definition measured_members (r : Report) : list (string * json) :=
  [ ("durationSec", JNum (durationSec r));
    ("cuts", JNum (inject_Z (cuts r)));
    ("avgCutSec", JNum (avgCutSec r));
    ("cutTimeline", JArr (List.map JNum (cutTimeline r)));
    ("first3Cuts", JNum (inject_Z (first3Cuts r)));
    ("hookText", JStr (hookText r));
    ("first2sText", JStr (first2sText r));
    ("captionsPresent", JBool (captionsPresent r));
    ("silences",
      JArr (List.map (fun s => JObj [ ("start", JNum (s_start s));
                                      ("end", JNum (s_end s)) ])
                     (silences r)));
    ("silenceRatio", JNum (silenceRatio r));
    ("loudness", JObj (loudness_members (loudness r)));
    ("firstSecond", JObj (firstSecond_members (firstSecond r))) ]%string.

Definition report_members (r : Report) : list (string * json) :=
  measured_members r
  ++ optional "wordsPerSec" JNum (wordsPerSec r)
  ++ optional "transcript" JStr (transcript r)
  ++ [ ("suggestions"%string, JArr (List.map JStr (suggestions r))) ]
  ++ optional "critique" (fun c => JArr (List.map JStr c)) (critique r).

(* ------------------------------------------------------------------ *)
(** ** Further code of the server: definitions *)
(* ------------------------------------------------------------------ *)

From Stdlib Require Import Sorted Permutation.

(** [measurable], as a test. *)
Definition measurableb (env : Env) : bool :=
  match req_file env with
  | Some file => file_path file || negb (file_buffer file) || writeFile_ok env
  | None => false
  end
  && mkdtemp_ok env
  && match ffprobe env with ProbeData _ => true | ProbeErr => false end
  && rm_ok env.

(** The number of lines of a listener that carry a capture. *)
Definition captured {L : Type} (get : L -> option Q) (lines : list L) : nat :=
  List.length (captures get lines).

(** The showinfo lines with both captures. *)
Definition scored (l : ShowinfoLine) : bool :=
  match pts_time l, scene_score l with
  | Some _, Some _ => true
  | _, _ => false
  end.

(** Equality of strings, as a [Set] of strings sees it. *)
Definition jsstring_eqb (a b : jsstring) : bool :=
  if list_eq_dec N.eq_dec a b then true else false.

(** [Math.ceil(x)] *)
Definition Math_ceil (x : Q) : Q := inject_Z (Qceiling x).

(** *** The OAuth state of the TikTok routes *)

Module TikTok.

Definition dash : N := 45.

(** [s.startsWith(p)] *)
Fixpoint startsWith (p s : jsstring) : bool :=
  match p, s with
  | [], _ => true
  | _ :: _, [] => false
  | a :: p', b :: s' => N.eqb a b && startsWith p' s'
  end.

(** [/auth/tiktok/start] without credentials:
    [`stub-tiktok-${Date.now()}-${userId}`]; [now] is [Date.now()] as the
    template prints it. *)
Definition stub_state (now userId : jsstring) : jsstring :=
  lit "stub-tiktok-" ++ now ++ dash :: userId.

(** [/auth/tiktok/start] with credentials: [`uid:${userId}`]. *)
Definition uid_state (userId : jsstring) : jsstring :=
  lit "uid:" ++ userId.

(** The state the start route puts in its redirect; [configured] is
    [TIKTOK_CLIENT_ID && TIKTOK_CLIENT_SECRET].  [encodeURIComponent] and
    the query parser of the callback undo each other and are left out. *)
Definition start_state (configured : bool) (now userId : jsstring)
  : jsstring :=
  if configured then uid_state userId else stub_state now userId.

(** [/auth/tiktok/callback]:
    [state.startsWith("uid:") ? state.slice(4) : state.split("-").pop() || ""] *)
Definition callback_userId (state : jsstring) : jsstring :=
  if startsWith (lit "uid:") state then skipn 4 state
  else or_else (last (split_by (N.eqb dash) [] state) []) [].

End TikTok.

(** *** The ideas of [POST /api/ideas] *)

Module Ideas.

(** An idea as [generateIdeasWithLLM] returns it. *)
Record Idea := {
  hook : jsstring;
  outline : list jsstring;
  length : jsstring;
  caption : jsstring;
  hashtags : list jsstring;
  cta : jsstring;
  tips : list jsstring;
  pillar : jsstring
}.

Section Dedupe.
(** [String.prototype.toLowerCase], which the model leaves open. *)
Variable toLowerCase : jsstring -> jsstring.

(** [(i.hook || "").trim().toLowerCase()] *)
Definition hook_key (i : Idea) : jsstring :=
  toLowerCase (trim (or_else (hook i) [])).

(** [ideas.filter(i => { ...; if (!k || seen.has(k)) return false;
    seen.add(k); return true; })], from the set [seen]. *)
Fixpoint dedupe_by_hook (seen : list jsstring) (ideas : list Idea)
  : list Idea :=
  match ideas with
  | [] => []
  | i :: rest =>
      let k := hook_key i in
      if negb (truthy k) || existsb (jsstring_eqb k) seen
      then dedupe_by_hook seen rest
      else i :: dedupe_by_hook (k :: seen) rest
  end.
End Dedupe.

End Ideas.

(** *** The statistics of [GET /api/tiktok/analysis] and [GET /api/tasks] *)

Module Stats.

(** A video after [.filter(v => v.createdAt)]: [createdAt.getTime()] and
    [durationSec] ([None] is [null]). *)
Record Video := {
  createdAt : Q;
  durationSec : option Q
}.

(** [videos.map(v => Number(v.durationSec || 0)).filter(n => n > 0).sort((a,b)=>a-b)] *)
Definition durations (videos : list Video) : list Q :=
  sort_numbers
    (filter (fun n => ltb 0 n)
       (List.map (fun v => match durationSec v with
                           | Some d => d
                           | None => 0
                           end) videos)).

(** [durations.length ? Math.round(durations.reduce((a,b)=>a+b,0)/durations.length) : 0] *)
Definition avgDurationSec (ds : list Q) : Q :=
  match ds with
  | [] => 0
  | _ :: _ => Math_round (sum_numbers ds / ofNat (List.length ds))
  end.

(** [durations.length ? durations[Math.floor(durations.length/2)] : 0] *)
Definition medianDurationSec (ds : list Q) : Q :=
  match ds with
  | [] => 0
  | _ :: _ => nth (List.length ds / 2) ds 0
  end.

(** [videos.map(v => v.createdAt!.getTime()).sort((a,b)=>a-b)] *)
Definition days (videos : list Video) : list Q :=
  sort_numbers (List.map createdAt videos).

(** [days.length ? Math.max(1, Math.ceil((days[days.length-1]-days[0])/(1000*60*60*24))) : 0] *)
Definition daysCovered (ds : list Q) : Q :=
  match ds with
  | [] => 0
  | first :: _ =>
      Math_max 1 (Math_ceil ((last ds 0 - first) / (1000 * 60 * 60 * 24)))
  end.

(** [daysCovered ? Number(((total / daysCovered) * 7).toFixed(2)) : 0] *)
Definition cadencePerWeek (total : nat) (covered : Q) : Q :=
  if eqb covered 0 then 0
  else toFixed 2 ((ofNat total / covered) * 7).

End Stats.

(** *** Further requests used as examples *)

(** The strict pass finds nothing; the loose pass prints 3, 1.5 and 3
    again. *)
Definition env_soft_cuts : Env :=
  {| req_file := Some file_on_disk;
     mkdtemp_ok := true;
     writeFile_ok := true;
     ffprobe := ProbeData (Some 6.2);
     showinfo := fun t =>
       if Qeq_bool t 0.15
       then [ {| pts_time := Some 3; scene_score := None |};
              {| pts_time := Some 1.5; scene_score := Some 0.2 |};
              {| pts_time := Some 3.0; scene_score := None |} ]
       else [];
     silencedetect :=
       [ {| silence_start := None; silence_end := Some 0.4 |};
         {| silence_start := Some 1; silence_end := None |};
         {| silence_start := None; silence_end := Some 2 |};
         {| silence_start := Some 4; silence_end := None |} ];
     recognize := fun _ => OcrData None;
     rm_ok := true;
     unlink_ok := false;
     cut_samples := None;
     openai := Some coach;
     volumedetect := [];
     signalstats := [];
     signalstats_end := false |}.

(** What the frame sampling makes of the cut count [c] and the timeline
    [ts]. *)
Definition frame_result (env : Env) (c : Z) (ts : list Q) : Z * list Q :=
  if (c =? 0)%Z
  then match cut_samples env with
       | Some stats =>
           if (0 <? inferredCuts stats)%Z then (inferredCuts stats, [])
           else (c, ts)
       | None => (c, ts)
       end
  else (c, ts).

(** The cut count a report carries. *)
Definition final_cuts (env : Env) : Z :=
  fst (frame_result env (cuts_after_silence env) (visual_cuts env)).

(** What the transcription leaves in [transcript]. *)
Definition transcript_of (env : Env) : option jsstring :=
  match openai env with
  | Some ai =>
      match transcriptions_create ai with
      | TrData (Some t) _ => if truthy t then Some t else None
      | _ => None
      end
  | None => None
  end.

(** A string without white space at either end. *)
Definition trimmed (s : jsstring) : Prop := trim s = s.

(** What the answers of a completion leave in [suggestions] and in
    [critique]. *)
Definition suggestions_from (a : SuggestionAnswer) : list jsstring :=
  match a with
  | SugParsed (Some items) => suggestions_of items
  | _ => []
  end.

Definition critique_from (a : CritiqueAnswer) : option (list jsstring) :=
  match a with
  | CritContent (Some content) => Some (critique_of content)
  | _ => None
  end.

(** What else the handler has measured when it sends a report. *)
Definition more_facts (env : Env) (r : Report) : Prop :=
  cuts r = final_cuts env
  /\ transcript r = transcript_of env
  /\ first2sText r = match segments_of env with
                     | Some ((_ :: _) as segs) => first2sText_of segs
                     | _ => []
                     end
  /\ loudness r = {| meanDb := last_capture mean_volume (volumedetect env);
                     maxDb := last_capture max_volume (volumedetect env) |}
  /\ firstSecond r = firstSecondStats_of (signalstats env)
                                         (signalstats_end env)
  /\ (exists ai p, openai env = Some ai
                   /\ suggestions r = suggestions_from (suggestions_create ai p))
  /\ (exists ai p, openai env = Some ai
                   /\ critique r = critique_from (critique_create ai p)).

(** The files a request leaves on disk: the working directory when it was
    made and the request did not get to the measurements; the upload when
    it was on disk and was not unlinked. *)
Definition workDir_left (env : Env) : bool :=
  match req_file env with
  | Some _ => mkdtemp_ok env && negb (measurableb env)
  | None => false
  end.

Definition upload_left (env : Env) : bool :=
  match req_file env with
  | Some file => file_path file && negb (measurableb env && unlink_ok env)
  | None => false
  end.

Definition files_as_expected (env : Env) (w : World) : Prop :=
  workDir_exists w = workDir_left env /\ upload_exists w = upload_left env.

(** [l] is [l'] with some elements left out, the order kept. *)
Inductive Subsequence {A : Type} : list A -> list A -> Prop :=
| sub_nil : Subsequence [] []
| sub_skip x l l' : Subsequence l l' -> Subsequence l (x :: l')
| sub_keep x l l' : Subsequence l l' -> Subsequence (x :: l) (x :: l').

(** *** The tasks of [GET /api/tasks] *)

Module Tasks.

(** A row of [tikTokSnapshot]: [Date.now() - new Date(s.capturedAt).getTime()]
    and the follower count (the column is [INTEGER NOT NULL]). *)
Record Snapshot := {
  age : Q;
  followerCount : Q
}.

(** [snaps[0]?.followerCount ?? null] *)
Definition latest (snaps : list Snapshot) : option Q :=
  match snaps with
  | [] => None
  | s :: _ => Some (followerCount s)
  end.

(** [snaps.find(s => (Date.now() - ...) >= span)?.followerCount ?? latest] *)
Definition ago (span : Q) (snaps : list Snapshot) : option Q :=
  match find (fun s => geb (age s) span) snaps with
  | Some s => Some (followerCount s)
  | None => latest snaps
  end.

(** [latest !== null && ago !== null ? latest - ago : 0] *)
Definition followerDelta (span : Q) (snaps : list Snapshot) : Q :=
  match latest snaps, ago span snaps with
  | Some l, Some a => l - a
  | _, _ => 0
  end.

Definition day_ms : Q := 24 * 60 * 60 * 1000.
Definition followerDeltaDay := followerDelta day_ms.
Definition followerDeltaWeek := followerDelta (7 * day_ms).
Definition followerDeltaMonth := followerDelta (30 * day_ms).

Section Hours.
(** [Date.prototype.getTimezoneOffset] of the server, in minutes, at a time
    value. *)
Variable getTimezoneOffset : Q -> Z.

(** [Date.prototype.getHours]: the hour of the local time,
    [floor(LocalTime(t) / msPerHour) mod 24]. *)
Definition getHours (t : Q) : nat :=
  Z.to_nat
    (Qfloor ((t - inject_Z (getTimezoneOffset t) * 60000) / 3600000) mod 24).

(** What [videos.forEach(v => { byHour[String(v.createdAt.getHours())]++ })]
    adds to the key of the hour [h]. *)
Definition posted (videos : list Stats.Video) (h : nat) : nat :=
  count_occ Nat.eq_dec
    (List.map (fun v => getHours (Stats.createdAt v)) videos) h.

(** [byHour]: the keys ["0"] to ["23"] in the order of [Object.entries],
    each with the number of videos created in that hour. *)
Definition byHour (videos : list Stats.Video) : list (nat * nat) :=
  List.map (fun h => (h, posted videos h)) (seq 0 24).

(** [entries.sort((a,b)=>b[1]-a[1])]: by count, the larger first; the sort
    is stable. *)
Fixpoint insert_entry (x : nat * nat) (xs : list (nat * nat))
  : list (nat * nat) :=
  match xs with
  | [] => [x]
  | y :: r =>
      if (snd y <=? snd x)%nat then x :: xs else y :: insert_entry x r
  end.

Definition sort_entries (xs : list (nat * nat)) : list (nat * nat) :=
  fold_right insert_entry [] xs.

(** [Object.entries(byHour).sort(...).slice(0,n).map(([h])=>Number(h))] *)
Definition bestHours (n : nat) (videos : list Stats.Video) : list nat :=
  List.map fst (firstn n (sort_entries (byHour videos))).

Inductive TaskId :=
| stub_1 | stub_2
| cadence | cadence_opt | length_down | length_up
| timing | double_down | followers_down | followers_flat.

Inductive Priority := high | med | low.

(** A task: its [id] and [priority]; the texts are left out. *)
Record Task := {
  id : TaskId;
  priority : Priority
}.

(** [if (c) tasks.push(t)] *)
Definition push (c : bool) (i : TaskId) (p : Priority) : list Task :=
  if c then [{| id := i; priority := p |}] else [].

(** [v.views] of a video of this route, whose objects have the properties
    [id], [title], [createdAt] and [durationSec] only. *)
Definition views (v : Stats.Video) : option Q := None.

(** [Number(v.views || 0)] *)
Definition views_or_0 (v : Stats.Video) : Q :=
  match views v with
  | Some n => n
  | None => 0
  end.

(** [videos.map(v => Number(v.views || 0)).filter(n=>n>0).sort((a,b)=>a-b)] *)
Definition viewVals (videos : list Stats.Video) : list Q :=
  sort_numbers (filter (fun n => ltb 0 n) (List.map views_or_0 videos)).

(** [viewVals.length ? viewVals[Math.floor(viewVals.length*0.75)] : 0] *)
Definition p75 (vals : list Q) : Q :=
  match vals with
  | [] => 0
  | _ :: _ =>
      nth (Z.to_nat (Qfloor (ofNat (List.length vals) * (3 # 4)))) vals 0
  end.

(** [p75 ? videos.filter(v => (v.views||0) >= p75) : []] *)
Definition winners (videos : list Stats.Video) : list Stats.Video :=
  let p := p75 (viewVals videos) in
  if eqb p 0 then [] else filter (fun v => geb (views_or_0 v) p) videos.

(** The tasks in the order in which the route pushes them. *)
Definition tasks (videos : list Stats.Video) (snaps : list Snapshot)
  : list Task :=
  let total := List.length videos in
  let medianDurationSec := Stats.medianDurationSec (Stats.durations videos) in
  let cadencePerWeek :=
    Stats.cadencePerWeek total (Stats.daysCovered (Stats.days videos)) in
  let week := followerDeltaWeek snaps in
  List.app
    (if ltb cadencePerWeek 3 then push true cadence high
     else push (geb cadencePerWeek 5) cadence_opt low)
    (List.app (push (ltb 35 medianDurationSec) length_down med)
    (List.app
       (push (ltb 0 medianDurationSec && ltb medianDurationSec 15)
          length_up med)
    (List.app
       (push (negb (Nat.eqb (List.length (bestHours 2 videos)) 0)) timing low)
    (List.app
       (push (negb (Nat.eqb (List.length (winners videos)) 0))
          double_down high)
    (List.app (push (ltb week 0) followers_down high)
       (push (ltb 0 week && ltb week 50) followers_flat med)))))).

(** The two tasks the route answers with when no credentials are
    configured. *)
Definition stub_tasks : list Task :=
  [ {| id := stub_1; priority := high |};
    {| id := stub_2; priority := med |} ].

(** [fetch] of the video list inside the [try]: it throws (so does
    anything after it, such as a [data.data.videos] that is no array), the
    response is not [ok], or it holds the videos, here after
    [.filter(v => v.createdAt)]. *)
Inductive VideoList :=
| ListThrows
| ListNotOk (status : nat)
| ListOk (videos : list Stats.Video).

(** What the route is given: the answers of the two prisma queries ([None]
    when the query rejects; [findFirst] tells whether there is an account),
    whether [TIKTOK_CLIENT_ID] and [TIKTOK_CLIENT_SECRET] are set, and the
    video list. *)
Record Services := {
  findMany : option (list Snapshot);
  findFirst : option bool;
  configured : bool;
  video_list : VideoList
}.

(** [deltas: { day, week, month }] *)
Record Deltas := {
  day : Q;
  week : Q;
  month : Q
}.

(** The bodies of the route: [{ error: "Not connected" }],
    [{ error: "tiktok_api", status }], [{ error: "unexpected" }], and
    [{ tasks }] without or with [deltas]. *)
Inductive Body :=
| NotConnected
| TikTokApi (status : nat)
| Unexpected
| TaskList (tasks : list Task) (deltas : option Deltas).

(** The handler's promise rejects (a prisma query outside the [try]
    failed), or it answers. *)
Inductive Answer :=
| Rejected
| Answered (status : nat) (body : Body).

(** [app.get("/api/tasks", ...)] *)
Definition get_tasks (s : Services) : Answer :=
  match findMany s with
  | None => Rejected
  | Some snaps =>
      match findFirst s with
      | None => Rejected
      | Some false => Answered 404 NotConnected
      | Some true =>
          if negb (configured s)
          then Answered 200 (TaskList stub_tasks None)
          else
            match video_list s with
            | ListThrows => Answered 500 Unexpected
            | ListNotOk status => Answered 502 (TikTokApi status)
            | ListOk videos =>
                Answered 200
                  (TaskList (tasks videos snaps)
                     (Some {| day := followerDeltaDay snaps;
                              week := followerDeltaWeek snaps;
                              month := followerDeltaMonth snaps |}))
            end
      end
  end.
End Hours.

End Tasks.

(* ------------------------------------------------------------------ *)
(** ** The string and number primitives on examples *)
(* ------------------------------------------------------------------ *)

Example trim_example : trim (lit "  a  b ") = lit "a  b".
Proof. reflexivity. Qed.

Example replace_ws_example :
  replace_ws false (lit "a  b
 c") = lit "a b c".
Proof. reflexivity. Qed.

Example split_ws_example :
  split_ws [] false (lit " a  b") = [ lit ""; lit "a"; lit "b" ].
Proof. reflexivity. Qed.

Example csv_example :
  csv (Some (lit "sales,,reach")) = [ lit "sales"; lit "reach" ].
Proof. reflexivity. Qed.

Example Math_round_examples :
  Math_round 1.4 == 1 /\ Math_round 2.5 == 3 /\ Math_round (-2.5) == -2.
Proof. now vm_compute. Qed.

Example toFixed_example : toFixed 2 (3 / 2.1) == 1.43.
Proof. now vm_compute. Qed.

Example inferredCuts_example :
  inferredCuts [1000; 1100; 1300; 0; 1300; 1000] = 2%Z.
Proof. reflexivity. Qed.

Example parse_silences_example :
  parse_silences
    [ {| silence_start := Some 0; silence_end := None |};
      {| silence_start := None; silence_end := Some 1.4 |};
      {| silence_start := Some 5; silence_end := None |} ]
  = [ {| s_start := 0; s_end := 1.4 |}; {| s_start := 5; s_end := 5 |} ].
Proof. reflexivity. Qed.

Example dedupe_sort_example :
  sort_numbers (dedupe [] [3; 1.5; 3; 0.5]) = [0.5; 1.5; 3].
Proof. reflexivity. Qed.

(* ------------------------------------------------------------------ *)
(** ** The rules of the weakest precondition *)
(* ------------------------------------------------------------------ *)

Section WpRules.
Context {A B : Type}.
Implicit Types (w : World) (T : World -> Prop) (R : Response -> World -> Prop).

Lemma wp_ret (a : A) w (Q : A -> World -> Prop) T R :
  Q a w -> wp (ret a) w Q T R.
Proof. intro H; exact H. Qed.

Lemma wp_throw w (Q : A -> World -> Prop) T R :
  T w -> wp (@throw A) w Q T R.
Proof. intro H; exact H. Qed.

Lemma wp_respond r w (Q : A -> World -> Prop) T R :
  R r w -> wp (@respond A r) w Q T R.
Proof. intro H; exact H. Qed.

Lemma wp_mono (m : M A) w (Q Q' : A -> World -> Prop) T T' R R' :
  wp m w Q T R ->
  (forall a w', Q a w' -> Q' a w') ->
  (forall w', T w' -> T' w') ->
  (forall r w', R r w' -> R' r w') ->
  wp m w Q' T' R'.
Proof.
  unfold wp. destruct (m w) as [[a | | r] w']; auto.
Qed.

Lemma wp_bind (m : M A) (k : A -> M B) w (Q : B -> World -> Prop) T R :
  wp m w (fun a w' => wp (k a) w' Q T R) T R ->
  wp (bind m k) w Q T R.
Proof.
  unfold wp, bind. destruct (m w) as [[a | | r] w']; auto.
Qed.

Lemma wp_try_catch (m h : M A) w (Q : A -> World -> Prop) T R :
  wp m w Q (fun w' => wp h w' Q T R) R ->
  wp (try_catch m h) w Q T R.
Proof.
  unfold wp, try_catch. destruct (m w) as [[a | | r] w']; auto.
Qed.

(** A statement with a specification, followed by a continuation. *)
Lemma wp_seq (m : M A) (k : A -> M B) w
    (Q0 : A -> World -> Prop) T0 R0 (Q : B -> World -> Prop) T R :
  wp m w Q0 T0 R0 ->
  (forall w', T0 w' -> T w') ->
  (forall r w', R0 r w' -> R r w') ->
  (forall a w', Q0 a w' -> wp (k a) w' Q T R) ->
  wp (bind m k) w Q T R.
Proof.
  intros Hm HT HR Hk. apply wp_bind.
  eapply wp_mono; [exact Hm | exact Hk | exact HT | exact HR].
Qed.
End WpRules.

(** What the handler answers, from a weakest precondition of its [try]
    block. *)
Lemma wp_analyze body env (P : Response -> World -> Prop) :
  wp (analyze_try body env) (initial_world env)
     (fun _ _ => True)
     (fun w => P (error 500 "analysis_failed") w) P ->
  P (response body env) (final_world body env).
Proof.
  unfold response, final_world, analyze, wp, try_catch, respond.
  destruct (analyze_try body env (initial_world env)) as [[e | | r] w];
    [destruct e | auto | auto].
Qed.

Lemma logged_nil w : logged [] w = w.
Proof. destruct w; reflexivity. Qed.

Lemma logged_app l1 l2 w : logged l1 (logged l2 w) = logged (l1 ++ l2) w.
Proof. unfold logged; simpl. now rewrite app_assoc. Qed.

Lemma quiet_refl w : quiet_step w w.
Proof. exists []. now rewrite logged_nil. Qed.

Lemma quiet_trans w1 w2 w3 :
  quiet_step w1 w2 -> quiet_step w2 w3 -> quiet_step w1 w3.
Proof.
  intros (l1 & -> & H1) (l2 & -> & H2). exists (l2 ++ l1).
  rewrite logged_app, forallb_app, H1, H2. now split.
Qed.

Lemma quiet_logged l w :
  forallb (fun s => negb (is_cut_stage s)) l = true ->
  quiet_step w (logged l w).
Proof. intro H. now exists l. Qed.

(* ------------------------------------------------------------------ *)
(** ** The stages of the handler, one specification each *)
(* ------------------------------------------------------------------ *)

Section Stages.
Variable env : Env.


Lemma mkdtemp_spec w :
  wp (mkdtemp env) w
     (fun _ w' => mkdtemp_ok env = true /\ workDir_exists w' = true
                  /\ upload_exists w' = upload_exists w /\ log w' = log w)
     (fun w' => mkdtemp_ok env = false /\ w' = w)
     silent.
Proof.
  unfold wp, mkdtemp. destruct (mkdtemp_ok env); simpl; auto.
Qed.

Lemma write_upload_spec file w :
  wp (write_upload env file) w
     (fun _ w' => w' = w /\ (file_path file = false -> file_buffer file = true
                             -> writeFile_ok env = true))
     (fun w' => w' = w /\ file_path file = false /\ file_buffer file = true
                /\ writeFile_ok env = false)
     silent.
Proof.
  unfold wp, write_upload.
  destruct (file_path file), (file_buffer file), (writeFile_ok env);
    simpl; intuition congruence.
Qed.

Lemma probe_duration_spec w :
  wp (probe_duration env) w
     (fun d w' => w' = w
                  /\ exists x, ffprobe env = ProbeData x
                               /\ d = Math_round (match x with
                                                  | Some v => v
                                                  | None => 0
                                                  end))
     (fun w' => w' = w /\ ffprobe env = ProbeErr)
     silent.
Proof.
  unfold wp, probe_duration. destruct (ffprobe env); simpl; eauto.
Qed.

Lemma visual_passes_spec w :
  wp (visual_passes env) w
     (fun ts w' =>
        ts = visual_cuts env
        /\ w' = logged (match strict_cuts env with
                        | [] => [SceneDetect 0.15; SceneDetect 0.32]
                        | _ :: _ => [SceneDetect 0.32]
                        end) w)
     never silent.
Proof.
  unfold wp, visual_passes, detectCuts, visual_cuts, strict_cuts, loose_cuts,
    bind, ran, ret.
  destruct (parse_times (showinfo env 0.32)); simpl; auto.
Qed.

Lemma detect_silences_spec w :
  wp (detect_silences env) w
     (fun ss w' => ss = detected_silences env /\ w' = logged [SilenceDetect] w)
     never silent.
Proof. unfold wp; simpl; auto. Qed.

Lemma ocr_loop_spec frames w :
  wp (ocr_loop env frames) w
     (fun h w' => scan_answers (List.map (recognize env) frames) = Some h
                  /\ quiet_step w w')
     (fun w' => scan_answers (List.map (recognize env) frames) = None
                /\ quiet_step w w')
     silent.
Proof.
  revert w. induction frames as [| f rest IH]; intro w.
  - apply wp_ret. split; [reflexivity | apply quiet_refl].
  - cbn [ocr_loop List.map scan_answers]. apply wp_bind.
    unfold wp at 1, ran.
    assert (Hq : quiet_step w (logged [Ocr f] w)) by now apply quiet_logged.
    change {| workDir_exists := workDir_exists w;
              upload_exists := upload_exists w;
              log := Ocr f :: log w |} with (logged [Ocr f] w).
    destruct (recognize env f) as [| t].
    + apply wp_throw. auto.
    + destruct (truthy (ocr_text t)).
      * apply wp_ret. auto.
      * eapply wp_mono; [apply IH | | | ]; cbn beta.
        -- intros h w' [E Hq']. split; [exact E | eapply quiet_trans; eauto].
        -- intros w' [E Hq']. split; [exact E | eapply quiet_trans; eauto].
        -- auto.
Qed.

Lemma extract_hook_spec w :
  wp (extract_hook env) w
     (fun h w' =>
        h = match scan_answers (List.map (recognize env) frame_times) with
            | Some x => x
            | None => []
            end
        /\ quiet_step w w')
     never silent.
Proof.
  unfold extract_hook. apply wp_bind. unfold wp at 1, ran.
  change {| workDir_exists := workDir_exists w;
            upload_exists := upload_exists w;
            log := Screenshots :: log w |} with (logged [Screenshots] w).
  assert (Hq : quiet_step w (logged [Screenshots] w)) by now apply quiet_logged.
  apply wp_try_catch.
  eapply wp_mono; [apply ocr_loop_spec | | | ]; cbn beta.
  - intros h w' [-> Hq']. split; [reflexivity | eapply quiet_trans; eauto].
  - intros w' [-> Hq']. apply wp_ret.
    split; [reflexivity | eapply quiet_trans; eauto].
  - auto.
Qed.

Lemma cleanup_spec file w :
  wp (cleanup env file) w
     (fun _ w' => rm_ok env = true /\ workDir_exists w' = false
                  /\ log w' = log w
                  /\ upload_exists w' =
                       (if file_path file && unlink_ok env then false
                        else upload_exists w))
     (fun w' => rm_ok env = false /\ w' = w)
     silent.
Proof.
  unfold wp, cleanup, bind, try_catch, set_workDir, set_upload, throw, ret.
  destruct (rm_ok env), (file_path file), (unlink_ok env); simpl; auto.
Qed.

Lemma silence_fallback_spec ts ss w :
  wp (silence_fallback ts ss) w
     (fun c w' =>
        (ts = [] /\ (1 < List.length ss)%nat
         /\ c = Z.max 0 (gaps ss - 1) /\ w' = logged [SilenceFallback] w)
        \/ ((ts <> [] \/ (List.length ss <= 1)%nat)
            /\ c = Z.of_nat (List.length ts) /\ w' = w))
     never silent.
Proof.
  unfold wp, silence_fallback, bind, ran, ret.
  destruct ts as [| t ts'].
  - cbn [List.length Z.of_nat Z.eqb andb].
    destruct (Nat.ltb_spec 1 (List.length ss)); simpl.
    + left. auto.
    + right. auto.
  - cbn [List.length]. rewrite Nat2Z.inj_succ.
    destruct (Z.eqb_spec (Z.succ (Z.of_nat (List.length ts'))) 0); [lia |].
    simpl. right. split; [left; discriminate | split; [lia | reflexivity]].
Qed.

Lemma frame_fallback_spec c ts w :
  wp (frame_fallback env c ts) w
     (fun x w' =>
        (c <> 0%Z /\ x = (c, ts) /\ w' = w)
        \/ (c = 0%Z /\ w' = logged [FrameSample] w
            /\ (x = (c, ts) \/ ((0 < fst x)%Z /\ snd x = []))))
     never silent.
Proof.
  unfold wp, frame_fallback, bind, ran, ret, try_catch, throw.
  destruct (Z.eqb_spec c 0) as [-> | Hc]; simpl.
  - destruct (cut_samples env) as [stats |]; simpl.
    + destruct (Z.ltb_spec 0 (inferredCuts stats)); simpl; right; auto 6.
    + right; auto.
  - left; auto.
Qed.

Lemma transcribe_spec w :
  wp (transcribe env) w
     (fun x w' => snd x = segments_of env /\ quiet_step w w')
     never silent.
Proof.
  unfold wp, transcribe, segments_of, bind, ran, ret, try_catch, throw.
  assert (Hq : quiet_step w (logged [Transcribe] w)) by now apply quiet_logged.
  destruct (openai env) as [ai |]; simpl.
  - destruct (transcriptions_create ai); simpl; auto.
  - split; [reflexivity | apply quiet_refl].
Qed.

Lemma measure_loudness_spec w :
  wp (measure_loudness env) w (fun _ w' => quiet_step w w') never silent.
Proof. unfold wp; simpl. now apply (quiet_logged [VolumeDetect]). Qed.

Lemma measure_first_second_spec w :
  wp (measure_first_second env) w (fun _ w' => quiet_step w w') never silent.
Proof. unfold wp; simpl. now apply (quiet_logged [SignalStats]). Qed.

Lemma suggest_spec ai p w :
  wp (suggest ai p) w
     (fun _ w' => suggestions_create ai p <> SugThrows /\ quiet_step w w')
     never
     (fun r w' => r = error 502 "llm_failed"
                  /\ suggestions_create ai p = SugThrows /\ quiet_step w w').
Proof.
  unfold wp, suggest, bind, ran, ret, try_catch, throw, respond.
  assert (Hq : quiet_step w (logged [Suggest] w)) by now apply quiet_logged.
  simpl. destruct (suggestions_create ai p); simpl; auto.
  split; [discriminate | assumption].
Qed.

Lemma criticize_spec ai p w :
  wp (criticize ai p) w (fun _ w' => quiet_step w w') never silent.
Proof.
  unfold wp, criticize, bind, ran, ret, try_catch, throw.
  assert (Hq : quiet_step w (logged [Critique] w)) by now apply quiet_logged.
  simpl. destruct (critique_create ai p); simpl; auto.
Qed.
End Stages.
Lemma cut_log_logged l w :
  cut_log (logged l w) = filter is_cut_stage l ++ cut_log w.
Proof. unfold cut_log, logged; simpl. apply filter_app. Qed.

Lemma gaps_le_length ss : (gaps ss <= Z.of_nat (List.length ss))%Z.
Proof.
  unfold gaps. apply Nat2Z.inj_le.
  induction ss as [| s ss IH]; simpl; [lia |].
  destruct (geb _ _); simpl; lia.
Qed.

Lemma gaps_nonneg ss : (0 <= gaps ss)%Z.
Proof. unfold gaps. lia. Qed.

(** The cut count and the chain once both fallbacks are behind. *)
Lemma fallbacks_chain env w6 w7 w8 c1 (x : Z * list Q) :
  cut_log w6 = match strict_cuts env with
               | [] => [SceneDetect 0.15; SceneDetect 0.32]
               | _ :: _ => [SceneDetect 0.32]
               end ->
  ((visual_cuts env = [] /\ (1 < List.length (detected_silences env))%nat
    /\ c1 = Z.max 0 (gaps (detected_silences env) - 1)
    /\ w7 = logged [SilenceFallback] w6)
   \/ ((visual_cuts env <> [] \/ (List.length (detected_silences env) <= 1)%nat)
       /\ c1 = Z.of_nat (List.length (visual_cuts env)) /\ w7 = w6)) ->
  ((c1 <> 0%Z /\ x = (c1, visual_cuts env) /\ w8 = w7)
   \/ (c1 = 0%Z /\ w8 = logged [FrameSample] w7
       /\ (x = (c1, visual_cuts env) \/ ((0 < fst x)%Z /\ snd x = [])))) ->
  c1 = cuts_after_silence env
  /\ cut_log w8 = expected_chain env
  /\ workDir_exists w8 = workDir_exists w6
  /\ upload_exists w8 = upload_exists w6.
Proof.
  intros Hlog Hfall Hframe.
  assert (Hc1 : c1 = cuts_after_silence env
                /\ cut_log w7 = (if silence_guard env then [SilenceFallback]
                                 else []) ++ cut_log w6
                /\ workDir_exists w7 = workDir_exists w6
                /\ upload_exists w7 = upload_exists w6).
  { unfold cuts_after_silence, silence_guard.
    destruct Hfall as [(Hv & Hlen & -> & ->) | (Hor & -> & ->)].
    - rewrite Hv. apply Nat.ltb_lt in Hlen. rewrite Hlen.
      rewrite cut_log_logged. auto.
    - destruct (visual_cuts env) as [| t ts] eqn:Hv.
      + destruct Hor as [Hne | Hlen]; [now elim Hne |].
        apply Nat.ltb_ge in Hlen as Hlt. rewrite Hlt.
        pose proof (gaps_le_length (detected_silences env)).
        cbn [List.length]. repeat split. lia.
      + auto. }
  destruct Hc1 as (Hc & Hl7 & Hwd7 & Hup7).
  split; [exact Hc |].
  unfold expected_chain. rewrite <- Hc, <- Hlog.
  destruct Hframe as [(Hne & _ & ->) | (-> & -> & _)].
  - apply Z.eqb_neq in Hne. rewrite Hne. auto.
  - rewrite cut_log_logged, Hl7. cbn. auto.
Qed.

(* ------------------------------------------------------------------ *)
(** ** The handler as a whole *)
(* ------------------------------------------------------------------ *)

Lemma quiet_step_keeps w w' :
  quiet_step w w' ->
  workDir_exists w' = workDir_exists w
  /\ upload_exists w' = upload_exists w
  /\ cut_log w' = cut_log w.
Proof.
  intros (l & -> & Hl). repeat split. unfold cut_log; simpl.
  rewrite filter_app.
  replace (filter is_cut_stage l) with (@nil Stage); [reflexivity |].
  induction l as [| s l IH]; [reflexivity |].
  simpl in Hl. apply andb_true_iff in Hl as [Hs Hl].
  simpl. destruct (is_cut_stage s); [discriminate | auto].
Qed.

(** A stage that neither throws nor responds, then the rest. *)
Ltac stage spec :=
  eapply wp_seq; [apply spec | intros ? [] | intros ? ? [] | cbn beta].

Lemma not_measurable_mkdtemp env : mkdtemp_ok env = false -> ~ measurable env.
Proof. intros H (_ & H' & _). congruence. Qed.

Lemma not_measurable_write env file :
  req_file env = Some file -> file_path file = false ->
  file_buffer file = true -> writeFile_ok env = false -> ~ measurable env.
Proof.
  intros Hf Hp Hb Hw ((f & Hf' & Hok) & _).
  rewrite Hf in Hf'. injection Hf' as <-. specialize (Hok Hp Hb). congruence.
Qed.

Lemma not_measurable_probe env : ffprobe env = ProbeErr -> ~ measurable env.
Proof. intros H (_ & _ & (d & Hd) & _). congruence. Qed.

Lemma not_measurable_rm env : rm_ok env = false -> ~ measurable env.
Proof. intros H (_ & _ & _ & H'). congruence. Qed.

Lemma analyze_cases body env :
  outcome env (response body env) (final_world body env).
Proof.
  apply wp_analyze. unfold analyze_try.
  apply wp_bind.
  destruct (req_file env) as [file |] eqn:Hfile.
  2:{ apply wp_respond. left. auto. }
  apply wp_ret. cbv zeta.
  eapply wp_seq; [apply mkdtemp_spec | | intros ? ? [] | cbn beta].
  { intros w' [Hmk _]. right; left. split; [reflexivity |].
    now apply not_measurable_mkdtemp. }
  intros _ w1 (Hmk & Hwd1 & Hup1 & Hlog1).
  eapply wp_seq; [apply write_upload_spec | | intros ? ? [] | cbn beta].
  { intros w' (_ & Hp & Hb & Hw). right; left. split; [reflexivity |].
    eapply not_measurable_write; eauto. }
  intros _ w2 (-> & Hwrite).
  eapply wp_seq; [apply probe_duration_spec | | intros ? ? [] | cbn beta].
  { intros w' (_ & Hp). right; left. split; [reflexivity |].
    now apply not_measurable_probe. }
  intros dur w2 (-> & x & Hprobe & Hdur).
  stage visual_passes_spec. intros ts w3 (Hts & Hw3).
  stage detect_silences_spec. intros ss w4 (Hss & Hw4).
  stage extract_hook_spec. intros hook w5 (Hhook & Hq5).
  eapply wp_seq; [apply cleanup_spec | | intros ? ? [] | cbn beta].
  { intros w' (Hrm & _). right; left. split; [reflexivity |].
    now apply not_measurable_rm. }
  intros _ w6 (Hrm & Hwd6 & Hlog6 & Hup6).
  stage silence_fallback_spec. intros c1 w7 Hfall.
  stage frame_fallback_spec. intros [c2 ts2] w8 Hframe.
  stage transcribe_spec. intros [tr segs] w9 (Hsegs & Hq9). cbn [snd] in Hsegs.
  stage measure_loudness_spec. intros loud w10 Hq10.
  stage measure_first_second_spec. intros fss w11 Hq11.
  subst ts ss.
  assert (Hlog5 : cut_log w6 = match strict_cuts env with
                               | [] => [SceneDetect 0.15; SceneDetect 0.32]
                               | _ :: _ => [SceneDetect 0.32]
                               end).
  { apply quiet_step_keeps in Hq5 as (_ & _ & Hc5).
    unfold cut_log at 1. rewrite Hlog6. fold (cut_log w5). rewrite Hc5.
    subst w4 w3. rewrite !cut_log_logged. unfold cut_log at 1.
    rewrite Hlog1. cbn [initial_world log filter]. rewrite app_nil_r.
    destruct (strict_cuts env); reflexivity. }
  destruct (fallbacks_chain env _ _ _ _ _ Hlog5 Hfall Hframe)
    as (Hc1 & Hchain & Hwd8 & Hup8).
  assert (Hup : unlink_ok env = true -> upload_exists w6 = false).
  { intro Hun. rewrite Hup6, Hun, andb_true_r.
    destruct (file_path file) eqn:Hp; [reflexivity |].
    apply quiet_step_keeps in Hq5 as (_ & Hu5 & _). rewrite Hu5.
    subst w4 w3. cbn [logged upload_exists]. rewrite Hup1.
    cbn [initial_world upload_exists]. now rewrite Hfile. }
  assert (Hmeas : measurable env).
  { repeat split; eauto. }
  assert (Hclean : forall w, quiet_step w8 w -> cleaned_up env w).
  { intros w Hq. apply quiet_step_keeps in Hq as (Hwd & Hu & Hc).
    repeat split.
    - now rewrite Hwd, Hwd8.
    - intro Hun. rewrite Hu, Hup8. auto.
    - now rewrite Hc. }
  assert (Hq11' : quiet_step w8 w11).
  { eapply quiet_trans; [exact Hq9 |].
    eapply quiet_trans; [exact Hq10 | exact Hq11]. }
  apply wp_bind.
  destruct (openai env) as [ai |] eqn:Hai.
  2:{ apply wp_respond. right; right; left. auto. }
  apply wp_ret.
  eapply wp_seq; [apply suggest_spec | intros ? [] | | cbn beta].
  { intros r w' (-> & Hthrows & Hq). right; right; right; left.
    split; [reflexivity |]. split; [exact Hmeas |]. split; [eauto |].
    apply Hclean. eapply quiet_trans; eauto. }
  intros sug w12 (_ & Hq12).
  stage criticize_spec. intros crit w13 Hq13.
  apply wp_respond. right; right; right; right.
  split; [reflexivity |]. split; [exact Hmeas |]. split; [eauto |].
  split.
  { apply Hclean. eapply quiet_trans; [exact Hq11' |].
    eapply quiet_trans; eauto. }
  eexists. split; [reflexivity |].
  unfold report_facts; cbn [durationSec cuts avgCutSec cutTimeline first3Cuts
    hookText captionsPresent silences silenceRatio wordsPerSec transcript].
  rewrite <- Hsegs.
  repeat match goal with |- _ /\ _ => split end; eauto.
  - rewrite <- Hc1.
    destruct Hframe as [(Hne & E & _) | (E0 & _ & [E | [Hpos E]])];
      [injection E as -> -> | injection E as -> -> | cbn in Hpos, E; subst ts2];
      auto.
Qed.

(* ------------------------------------------------------------------ *)
(** ** Reports *)
(* ------------------------------------------------------------------ *)

(** A report is only sent with status 200, by a request that got to the
    measurements, and it holds what was measured. *)
Lemma report_inv body env r :
  payload (response body env) = ReportBody r ->
  response body env = {| status := 200; payload := ReportBody r |}
  /\ measurable env
  /\ (exists ai, openai env = Some ai)
  /\ cleaned_up env (final_world body env)
  /\ report_facts env r.
Proof.
  intro Hr. pose proof (analyze_cases body env) as H.
  destruct H as [(E & _) | [(E & _) | [(E & _) | [(E & _) | H]]]];
    try (rewrite E in Hr; discriminate).
  destruct H as (Hs & Hm & Hai & Hc & r' & Hr' & Hf).
  rewrite Hr in Hr'. injection Hr' as <-.
  split; [| tauto].
  destruct (response body env) as [s p]. cbn in *. now subst.
Qed.

(** A request that gets to the measurements and whose suggestion service
    works is answered with a report. *)
Lemma analyze_succeeds body env :
  measurable env -> suggestion_service_works env ->
  exists r, response body env = {| status := 200; payload := ReportBody r |}.
Proof.
  intros Hm (ai & Hai & Hworks). pose proof (analyze_cases body env) as H.
  destruct H as [(_ & Hf & _) | [(_ & Hn) | [(_ & _ & Hno & _) | [H | H]]]].
  - destruct Hm as ((f & Hf' & _) & _). congruence.
  - contradiction.
  - congruence.
  - destruct H as (_ & _ & (ai' & p & Hai' & Hthrows) & _).
    rewrite Hai in Hai'. injection Hai' as <-. now elim (Hworks p).
  - destruct H as (Hs & _ & _ & _ & r & Hr & _). exists r.
    destruct (response body env) as [s p]. cbn in *. now subst.
Qed.

(** The working directory is gone, and so is the upload when [unlink]
    went through, once a request has got to the measurements. *)
Lemma measured_request_cleans_up body env :
  measurable env ->
  workDir_exists (final_world body env) = false
  /\ (unlink_ok env = true -> upload_exists (final_world body env) = false).
Proof.
  intro Hm. pose proof (analyze_cases body env) as H.
  destruct H as [(_ & Hf & _) | [(_ & Hn) | [H | [H | H]]]].
  - destruct Hm as ((f & Hf' & _) & _). congruence.
  - contradiction.
  - destruct H as (_ & _ & _ & (H1 & H2 & _)). auto.
  - destruct H as (_ & _ & _ & (H1 & H2 & _)). auto.
  - destruct H as (_ & _ & _ & (H1 & H2 & _) & _). auto.
Qed.

(* ------------------------------------------------------------------ *)
(** ** The average cut length *)
(* ------------------------------------------------------------------ *)

Lemma Math_round_bounds x :
  Math_round x - (1 # 2) <= x /\ x < Math_round x + (1 # 2).
Proof.
  unfold Math_round.
  pose proof (Qfloor_le (x + (1 # 2))) as Hlo.
  pose proof (Qlt_floor (x + (1 # 2))) as Hhi.
  rewrite inject_Z_plus in Hhi. change (inject_Z 1) with 1 in Hhi.
  split; lra.
Qed.

Lemma round_one_decimal x : rounds_to 1 x (Math_round (x * 10) / 10).
Proof.
  unfold rounds_to. change (pow10 1) with 10.
  change (1 / (2 * 10)) with (1 # 20).
  destruct (Math_round_bounds (x * 10)) as [Hlo Hhi].
  unfold Qdiv. change (/ 10) with (1 # 10).
  split; [| split].
  - exists (Qfloor (x * 10 + (1 # 2))). reflexivity.
  - lra.
  - lra.
Qed.

(** C5.  In every report, when the cut count is above 1 the average cut
    length is the duration divided by the cut count, rounded to one
    decimal; otherwise it is the duration itself. *)
Theorem avgCutSec_reported body env r :
  payload (response body env) = ReportBody r ->
  ((1 < cuts r)%Z ->
   rounds_to 1 (durationSec r / inject_Z (cuts r)) (avgCutSec r))
  /\ ((cuts r <= 1)%Z -> avgCutSec r = durationSec r).
Proof.
  intro Hr. apply report_inv in Hr as (_ & _ & _ & _ & Hf).
  destruct Hf as (_ & _ & Havg & _). rewrite Havg. unfold avgCutSec_of.
  split; intro Hc.
  - apply Z.ltb_lt in Hc. rewrite Hc. apply round_one_decimal.
  - apply Z.ltb_ge in Hc. now rewrite Hc.
Qed.

Lemma avgCutSec_reported_witness :
  exists r,
    payload (response fitness_form env_vlog) = ReportBody r
    /\ ((1 < cuts r)%Z ->
        rounds_to 1 (durationSec r / inject_Z (cuts r)) (avgCutSec r))
    /\ ((cuts r <= 1)%Z -> avgCutSec r = durationSec r).
Proof.
  eexists. split; [reflexivity |].
  apply (avgCutSec_reported fitness_form env_vlog). reflexivity.
Defined.

(* ------------------------------------------------------------------ *)
(** ** The cut count and the timeline *)
(* ------------------------------------------------------------------ *)

Lemma first3Cuts_le_length ts :
  (first3Cuts_of ts <= Z.of_nat (List.length ts))%Z.
Proof.
  unfold first3Cuts_of. apply Nat2Z.inj_le.
  induction ts as [| t ts IH]; simpl; [lia |].
  destruct (leb t 3); simpl; lia.
Qed.

(** C10.  In every report the cut count is the length of the timeline
    whenever the timeline is not empty, and the cuts of the first three
    seconds are never more than the cut count. *)
Theorem cuts_match_timeline body env r :
  payload (response body env) = ReportBody r ->
  (cutTimeline r <> [] -> cuts r = Z.of_nat (List.length (cutTimeline r)))
  /\ (first3Cuts r <= cuts r)%Z.
Proof.
  intro Hr. apply report_inv in Hr as (_ & _ & _ & _ & Hf).
  destruct Hf as (_ & Hcuts & _ & H3 & _). rewrite H3.
  pose proof (first3Cuts_le_length (cutTimeline r)) as Hle.
  pose proof (gaps_nonneg (detected_silences env)) as Hg.
  unfold cuts_after_silence in Hcuts.
  destruct Hcuts as [(Hne & Hc & Ht) | (Hz & [(Hc & Ht) | (Hc & Ht)])];
    rewrite Ht in *.
  - destruct (visual_cuts env) as [| t ts]; cbn [List.length] in *.
    + split; [congruence |]. cbn. lia.
    + split; [intros _; exact Hc | lia].
  - destruct (visual_cuts env) as [| t ts]; cbn [List.length] in *.
    + split; [congruence |]. cbn. lia.
    + lia.
  - split; [congruence |]. cbn. lia.
Qed.

Lemma cuts_match_timeline_witness :
  exists r,
    payload (response fitness_form env_vlog) = ReportBody r
    /\ (cutTimeline r <> [] -> cuts r = Z.of_nat (List.length (cutTimeline r)))
    /\ (first3Cuts r <= cuts r)%Z.
Proof.
  eexists. split; [reflexivity |].
  apply (cuts_match_timeline fitness_form env_vlog). reflexivity.
Defined.

(* ------------------------------------------------------------------ *)
(** ** Words per second *)
(* ------------------------------------------------------------------ *)

Lemma fold_clamped_nonneg {X} (d : X -> Q) (xs : list X) (acc : Q) :
  0 <= acc ->
  acc <= fold_left (fun a x => a + Math_max 0 (d x)) xs acc.
Proof.
  revert acc. induction xs as [| x xs IH]; intros acc Hacc; simpl.
  - apply Qle_refl.
  - pose proof (Q.le_max_l 0 (d x)) as Hm. unfold Math_max at 2.
    eapply Qle_trans; [| apply IH]; lra.
Qed.

Lemma speechSeconds_of_nonneg segs : 0 <= speechSeconds_of segs.
Proof.
  unfold speechSeconds_of.
  apply (fold_clamped_nonneg (fun s => seg_end s - seg_start s)). lra.
Qed.

Lemma speechSeconds_nonneg env : 0 <= speechSeconds env.
Proof.
  unfold speechSeconds. destruct (segments_of env).
  - apply speechSeconds_of_nonneg.
  - lra.
Qed.

(** The handler's [speechSeconds] is the sum over the segments. *)
Lemma handler_speechSeconds env :
  match segments_of env with
  | Some ((_ :: _) as segs) => speechSeconds_of segs
  | _ => 0
  end = speechSeconds env.
Proof.
  unfold speechSeconds. destruct (segments_of env) as [[| s l] |]; reflexivity.
Qed.

(** C8.  In every report the words per second are absent when the summed
    speech seconds are 0, and a number, the word count over the speech
    seconds rounded to two decimals, only when they are positive. *)
Theorem wordsPerSec_defined body env r :
  payload (response body env) = ReportBody r ->
  0 <= speechSeconds env
  /\ (speechSeconds env == 0 -> wordsPerSec r = None)
  /\ (forall v, wordsPerSec r = Some v ->
        0 < speechSeconds env
        /\ v = toFixed 2 (inject_Z (wordsTotal_of (transcript r))
                          / speechSeconds env)).
Proof.
  intro Hr. apply report_inv in Hr as (_ & _ & _ & _ & Hf).
  destruct Hf as (_ & _ & _ & _ & _ & _ & _ & _ & Hw).
  rewrite handler_speechSeconds in Hw. rewrite Hw.
  unfold wordsPerSec_of, ltb.
  split; [apply speechSeconds_nonneg |].
  destruct (Qle_bool (speechSeconds env) 0) eqn:Hle; cbn [negb].
  - split; [reflexivity | discriminate].
  - assert (Hpos : 0 < speechSeconds env).
    { apply Qnot_le_lt. intro H. apply Qle_bool_iff in H. congruence. }
    split.
    + intro H0. rewrite H0 in Hpos. now apply Qlt_irrefl in Hpos.
    + intros v Hv. injection Hv as <-. now split.
Qed.

Lemma wordsPerSec_defined_witness :
  exists r,
    payload (response fitness_form env_vlog) = ReportBody r
    /\ 0 <= speechSeconds env_vlog
    /\ (speechSeconds env_vlog == 0 -> wordsPerSec r = None)
    /\ (forall v, wordsPerSec r = Some v ->
          0 < speechSeconds env_vlog
          /\ v = toFixed 2 (inject_Z (wordsTotal_of (transcript r))
                            / speechSeconds env_vlog)).
Proof.
  eexists. split; [reflexivity |].
  apply (wordsPerSec_defined fitness_form env_vlog). reflexivity.
Defined.

(* ------------------------------------------------------------------ *)
(** ** The form fields and the metrics *)
(* ------------------------------------------------------------------ *)

Lemma same_metrics_refl r : same_metrics r r.
Proof. unfold same_metrics. tauto. Qed.

(** Two runs that share a statement and its world go on from the same
    value and the same world. *)
Lemma agree_shared {A B} (m : M A) (k1 k2 : A -> M B) w :
  (forall a w', metrics_agree (k1 a w') (k2 a w')) ->
  metrics_agree (bind m k1 w) (bind m k2 w).
Proof.
  intro Hk. unfold bind. destruct (m w) as [[a | | r] w'].
  - apply Hk.
  - exact I.
  - intros r1 r2 H1 H2. cbn [fst] in *. rewrite H1 in H2.
    injection H2 as <-. apply same_metrics_refl.
Qed.

(** The two completions: the prompts differ, the report built from their
    answers has the same metrics. *)
Lemma agree_completions {B} ai p1 p2 cp w
    (mk : list jsstring -> option (list jsstring) -> Report) :
  (forall s c s' c', same_metrics (mk s c) (mk s' c')) ->
  @metrics_agree B
    (bind (suggest ai p1)
       (fun s => bind (criticize ai cp)
          (fun c => respond {| status := 200;
                               payload := ReportBody (mk s c) |})) w)
    (bind (suggest ai p2)
       (fun s => bind (criticize ai cp)
          (fun c => respond {| status := 200;
                               payload := ReportBody (mk s c) |})) w).
Proof.
  intro Hmk.
  assert (Hrun : forall p,
    match fst (bind (suggest ai p)
                 (fun s => bind (criticize ai cp)
                    (fun c => @respond B {| status := 200;
                                 payload := ReportBody (mk s c) |})) w) with
    | Responded a =>
        forall r, payload a = ReportBody r -> exists s c, r = mk s c
    | _ => True
    end).
  { intro p. unfold bind.
    pose proof (suggest_spec ai p w) as Hs. unfold wp in Hs.
    destruct (suggest ai p w) as [[s | | r] w1]; cbn [fst].
    - pose proof (criticize_spec ai cp w1) as Hc. unfold wp in Hc.
      destruct (criticize ai cp w1) as [[c | | r] w2]; cbn [fst].
      + intros r Hr. cbn in Hr. injection Hr as <-. eauto.
      + exact I.
      + destruct Hc.
    - exact I.
    - destruct Hs as (-> & _). intros r0 Hr. discriminate. }
  unfold metrics_agree.
  pose proof (Hrun p1) as H1. pose proof (Hrun p2) as H2.
  destruct (fst (bind (suggest ai p1) _ w)); try exact I.
  destruct (fst (bind (suggest ai p2) _ w)); try exact I.
  intros r1 r2 Hr1 Hr2.
  destruct (H1 _ Hr1) as (s1 & c1 & ->).
  destruct (H2 _ Hr2) as (s2 & c2 & ->).
  apply Hmk.
Qed.

Lemma analyze_try_agree body1 body2 env w :
  metrics_agree (analyze_try body1 env w) (analyze_try body2 env w).
Proof.
  unfold analyze_try. cbv zeta.
  apply agree_shared; intros file w1.
  apply agree_shared; intros _ w2.
  apply agree_shared; intros _ w3.
  apply agree_shared; intros dur w4.
  apply agree_shared; intros ts w5.
  apply agree_shared; intros ss w6.
  apply agree_shared; intros hook w7.
  apply agree_shared; intros _ w8.
  apply agree_shared; intros c1 w9.
  apply agree_shared; intros [c2 ts2] w10.
  apply agree_shared; intros [tr segs] w11.
  apply agree_shared; intros loud w12.
  apply agree_shared; intros fss w13.
  apply agree_shared; intros ai w14.
  apply (agree_completions (B := Empty_set) ai _ _ _ w14
           (fun s c =>
              {| durationSec := dur;
                 cuts := c2;
                 avgCutSec := avgCutSec_of dur c2;
                 cutTimeline := ts2;
                 first3Cuts := first3Cuts_of ts2;
                 hookText := hook;
                 first2sText :=
                   match segs with
                   | Some ((_ :: _) as l) => first2sText_of l
                   | _ => []
                   end;
                 captionsPresent := truthy hook;
                 silences := ss;
                 silenceRatio := silenceRatio_of ss dur;
                 loudness := loud;
                 firstSecond := fss;
                 wordsPerSec :=
                   wordsPerSec_of (wordsTotal_of tr)
                     match segs with
                     | Some ((_ :: _) as l) => speechSeconds_of l
                     | _ => 0
                     end;
                 transcript := tr;
                 suggestions := s;
                 critique := c |})).
  intros s c s' c'. unfold same_metrics. cbn. tauto.
Qed.

(** What the handler answers is what its [try] block responded. *)
Lemma response_of_try body env r :
  payload (response body env) = ReportBody r ->
  exists a, fst (analyze_try body env (initial_world env)) = Responded a
            /\ payload a = ReportBody r.
Proof.
  unfold response, analyze, try_catch, respond.
  destruct (analyze_try body env (initial_world env)) as [[e | | a] w];
    cbn [fst payload error].
  - destruct e.
  - discriminate.
  - eauto.
Qed.

(** C9.  The form fields reach the prompt only: two requests that differ
    in niche, tone, goals and pillars, on the same upload and with the
    same answers of the tools and services, report the same metrics. *)
Theorem form_fields_leave_metrics body1 body2 env r1 r2 :
  payload (response body1 env) = ReportBody r1 ->
  payload (response body2 env) = ReportBody r2 ->
  same_metrics r1 r2.
Proof.
  intros H1 H2.
  apply response_of_try in H1 as (a1 & E1 & Hp1).
  apply response_of_try in H2 as (a2 & E2 & Hp2).
  pose proof (analyze_try_agree body1 body2 env (initial_world env)) as H.
  unfold metrics_agree in H. rewrite E1, E2 in H. now apply H.
Qed.

Lemma form_fields_leave_metrics_witness :
  exists r1 r2,
    payload (response no_form env_vlog) = ReportBody r1
    /\ payload (response fitness_form env_vlog) = ReportBody r2
    /\ same_metrics r1 r2.
Proof.
  eexists. eexists. split; [reflexivity |]. split; [reflexivity |].
  apply (form_fields_leave_metrics no_form fitness_form env_vlog);
    reflexivity.
Defined.

(* ------------------------------------------------------------------ *)
(** ** The hook text *)
(* ------------------------------------------------------------------ *)

Lemma dropWhile_head p s c r : dropWhile p s = c :: r -> p c = false.
Proof.
  induction s as [| x s IH]; simpl; [discriminate |].
  destruct (p x) eqn:Hx; [exact IH |].
  intro E. injection E as <- _. exact Hx.
Qed.

Lemma dropWhile_keeps_last p l c :
  p c = false -> dropWhile p (l ++ [c]) = dropWhile p l ++ [c].
Proof.
  intro Hc. induction l as [| x l IH]; simpl.
  - now rewrite Hc.
  - destruct (p x); [exact IH | reflexivity].
Qed.

(** A trimmed string does not start with white space. *)
Lemma trim_head s c r : trim s = c :: r -> is_space c = false.
Proof.
  unfold trim. destruct (dropWhile is_space s) as [| c0 u] eqn:Hu.
  - discriminate.
  - apply dropWhile_head in Hu. cbn [rev].
    rewrite (dropWhile_keeps_last _ _ _ Hu), rev_app_distr. cbn [rev app].
    intro E. injection E as <- _. exact Hu.
Qed.

Lemma normalize_hook_nonempty t :
  ocr_text t <> [] -> normalize_hook (ocr_text t) <> [].
Proof.
  unfold ocr_text. intro Hne.
  destruct (trim match t with Some s => s | None => [] end) as [| c r] eqn:E;
    [now elim Hne |].
  apply trim_head in E. unfold normalize_hook, slice0. cbn. rewrite E.
  discriminate.
Qed.

Lemma normalize_hook_length t : (List.length (normalize_hook t) <= 80)%nat.
Proof. unfold normalize_hook, slice0. apply firstn_le_length. Qed.

Lemma replace_ws_single_spaced b s : single_spaced b (replace_ws b s) = true.
Proof.
  revert b. induction s as [| c s IH]; intro b; [reflexivity |].
  cbn [replace_ws]. destruct (is_space c) eqn:Hc.
  - destruct b; [apply IH |].
    cbn [single_spaced]. change (is_space 32) with true. cbn. apply IH.
  - cbn [single_spaced]. rewrite Hc. apply IH.
Qed.

Lemma single_spaced_firstn n b s :
  single_spaced b s = true -> single_spaced b (firstn n s) = true.
Proof.
  revert b s. induction n as [| n IH]; intros b s H; [reflexivity |].
  destruct s as [| c s]; [reflexivity |].
  cbn [firstn single_spaced] in *. destruct (is_space c).
  - apply andb_true_iff in H as [H1 H2]. rewrite H1. now apply IH.
  - now apply IH.
Qed.

Lemma normalize_hook_single_spaced t :
  single_spaced false (normalize_hook t) = true.
Proof.
  unfold normalize_hook, slice0.
  apply single_spaced_firstn, replace_ws_single_spaced.
Qed.

Lemma truthy_false (s : jsstring) : truthy s = false <-> s = [].
Proof. destruct s; cbn; split; congruence. Qed.

(** The loop stops at the first frame with text, whatever comes after. *)
Lemma scan_first_text pre t post :
  Forall (fun x => ocr_text x = []) pre -> ocr_text t <> [] ->
  scan_answers (List.map OcrData pre ++ OcrData t :: post)
  = Some (normalize_hook (ocr_text t)).
Proof.
  intros Hpre Ht. induction Hpre as [| x pre Hx _ IH]; cbn.
  - destruct (ocr_text t); [now elim Ht | reflexivity].
  - rewrite Hx. exact IH.
Qed.

(** When every call answers, the loop finds the first non-empty text. *)
Lemma scan_all_answered texts :
  scan_answers (List.map OcrData texts)
  = Some (first_nonempty_hook (List.map ocr_text texts)).
Proof.
  unfold first_nonempty_hook.
  induction texts as [| x texts IH]; cbn; [reflexivity |].
  destruct (truthy (ocr_text x)); [reflexivity | exact IH].
Qed.

Lemma first_nonempty_none texts :
  Forall (fun x => ocr_text x = []) texts ->
  first_nonempty_hook (List.map ocr_text texts) = [].
Proof.
  unfold first_nonempty_hook. induction 1 as [| x texts Hx _ IH]; cbn.
  - reflexivity.
  - rewrite Hx. exact IH.
Qed.

Lemma hook_of_shape env :
  single_spaced false (hook_of env) = true
  /\ (List.length (hook_of env) <= 80)%nat.
Proof.
  unfold hook_of. generalize (List.map (recognize env) frame_times).
  intro answers. induction answers as [| [| t] rest IH]; cbn.
  - split; [reflexivity | lia].
  - split; [reflexivity | lia].
  - destruct (truthy (ocr_text t)); [| exact IH].
    split; [apply normalize_hook_single_spaced | apply normalize_hook_length].
Qed.

(** A call that throws before any text was found ends the loop without
    a text, whatever the later frames hold. *)
Lemma scan_after_throw pre post :
  Forall (fun x => ocr_text x = []) pre ->
  scan_answers (List.map OcrData pre ++ OcrThrows :: post) = None.
Proof.
  induction 1 as [| x pre Hx _ IH]; [reflexivity |].
  cbn [List.map app scan_answers]. rewrite Hx. exact IH.
Qed.

(** The statement as written fails: when the OCR of the frame at 0 s
    throws, the frame at 0.5 s is the first with a text, and the hook
    text is empty. *)
Lemma hook_lost_after_throw : ~ hook_is_first_text no_form env_ocr_throws.
Proof.
  intro H.
  specialize (H _ eq_refl [OcrThrows] (Some (lit " STOP   doing this "))
                [OcrData (Some (lit " STOP   doing this "))] eq_refl).
  assert (Hpre : forall t', In (OcrData t') [OcrThrows] -> ocr_text t' = []).
  { intros t' [E | []]. discriminate E. }
  assert (Ht : ocr_text (Some (lit " STOP   doing this ")) <> [])
    by (vm_compute; discriminate).
  specialize (H Hpre Ht). vm_compute in H. discriminate H.
Qed.

(** C7, amended.  The hook text of a report is a function of the three
    OCR answers.  The frames are read in the order 0 s, 0.5 s, 1 s until a
    call throws or a frame has a text that is not empty once trimmed: such
    a text, normalized and truncated, is the hook text, never that of a
    later frame; a call that throws before it ends the loop with the empty
    hook text, whatever the later frames hold; when the three texts are
    empty the hook text is the empty string.  [captionsPresent] tells
    whether the hook text is non-empty. *)
Theorem hook_text_first_nonempty body env r :
  payload (response body env) = ReportBody r ->
  (forall body' env' r',
      payload (response body' env') = ReportBody r' ->
      List.map (recognize env') frame_times
      = List.map (recognize env) frame_times ->
      hookText r' = hookText r /\ captionsPresent r' = captionsPresent r)
  /\ (forall pre t post,
        List.map (recognize env) frame_times
        = List.map OcrData pre ++ OcrData t :: post ->
        Forall (fun x => ocr_text x = []) pre -> ocr_text t <> [] ->
        hookText r = normalize_hook (ocr_text t) /\ captionsPresent r = true)
  /\ (forall pre post,
        List.map (recognize env) frame_times
        = List.map OcrData pre ++ OcrThrows :: post ->
        Forall (fun x => ocr_text x = []) pre ->
        hookText r = [] /\ captionsPresent r = false)
  /\ (forall texts,
        List.map (recognize env) frame_times = List.map OcrData texts ->
        hookText r = first_nonempty_hook (List.map ocr_text texts)
        /\ (Forall (fun x => ocr_text x = []) texts ->
            hookText r = [] /\ captionsPresent r = false))
  /\ single_spaced false (hookText r) = true
  /\ (List.length (hookText r) <= 80)%nat.
Proof.
  intro Hr. apply report_inv in Hr as (_ & _ & _ & _ & Hf).
  destruct Hf as (_ & _ & _ & _ & Hh & Hc & _).
  rewrite Hc, Hh. clear Hc Hh.
  split; [| split; [| split; [| split]]].
  - intros body' env' r' Hr' Hsame.
    apply report_inv in Hr' as (_ & _ & _ & _ & Hf').
    destruct Hf' as (_ & _ & _ & _ & Hh' & Hc' & _).
    rewrite Hc', Hh'. unfold hook_of. rewrite Hsame. now split.
  - intros pre t post E Hpre Ht. unfold hook_of.
    rewrite E, (scan_first_text pre t post Hpre Ht).
    split; [reflexivity |].
    apply normalize_hook_nonempty in Ht.
    destruct (normalize_hook (ocr_text t)); [now elim Ht | reflexivity].
  - intros pre post E Hpre. unfold hook_of.
    rewrite E, (scan_after_throw pre post Hpre). now split.
  - intros texts E. unfold hook_of. rewrite E, scan_all_answered.
    split; [reflexivity |].
    intro Hall. now rewrite (first_nonempty_none texts Hall).
  - apply hook_of_shape.
Qed.

Lemma hook_text_first_nonempty_witness :
  exists r,
    payload (response fitness_form env_vlog) = ReportBody r
    /\ List.map (recognize env_vlog) frame_times
       = List.map OcrData [Some (lit "  ")]
         ++ OcrData (Some (lit " STOP   doing this "))
            :: [OcrData (Some (lit " STOP   doing this "))]
    /\ Forall (fun x => ocr_text x = []) [Some (lit "  ")]
    /\ ocr_text (Some (lit " STOP   doing this ")) <> []
    /\ hookText r = lit "STOP doing this"
    /\ captionsPresent r = true.
Proof.
  eexists. split; [reflexivity |].
  assert (E : List.map (recognize env_vlog) frame_times
              = List.map OcrData [Some (lit "  ")]
                ++ OcrData (Some (lit " STOP   doing this "))
                   :: [OcrData (Some (lit " STOP   doing this "))])
    by reflexivity.
  assert (Hpre : Forall (fun x => ocr_text x = []) [Some (lit "  ")])
    by (constructor; [reflexivity | constructor]).
  assert (Ht : ocr_text (Some (lit " STOP   doing this ")) <> [])
    by (vm_compute; discriminate).
  split; [exact E |]. split; [exact Hpre |]. split; [exact Ht |].
  destruct (hook_text_first_nonempty fitness_form env_vlog _ eq_refl)
    as (_ & Hfirst & _).
  exact (Hfirst _ _ _ E Hpre Ht).
Defined.

(* ------------------------------------------------------------------ *)
(** ** The silence ratio *)
(* ------------------------------------------------------------------ *)

(** A [silence_start] without a [silence_end] leaves an interval whose end
    is its start. *)
Lemma unterminated_interval out s :
  silence_line out {| silence_start := Some s; silence_end := None |}
  = out ++ [{| s_start := s; s_end := s |}].
Proof. reflexivity. Qed.

Lemma silence_total_nonneg ss : 0 <= silence_total ss.
Proof.
  unfold silence_total.
  apply (fold_clamped_nonneg (fun s => s_end s - s_start s)). lra.
Qed.

Lemma fold_silence_zero ss acc :
  Forall (fun s => s_end s == s_start s) ss ->
  fold_left (fun a s => a + Math_max 0 (s_end s - s_start s)) ss acc == acc.
Proof.
  intro H. revert acc. induction H as [| s ss Hs _ IH]; intro acc; simpl.
  - reflexivity.
  - rewrite IH. unfold Math_max.
    rewrite Q.max_l by (rewrite Hs; lra). lra.
Qed.

Lemma fold_silence_in_order ss : forall lo hi acc,
  in_order lo hi ss ->
  fold_left (fun a s => a + Math_max 0 (s_end s - s_start s)) ss acc
  <= acc + (hi - lo).
Proof.
  induction ss as [| s ss IH]; intros lo hi acc H; simpl in *.
  - lra.
  - destruct H as (Hlo & Hse & Hrest).
    eapply Qle_trans; [apply (IH _ _ _ Hrest) |].
    unfold Math_max. rewrite Q.max_r by lra. lra.
Qed.

Lemma Math_max_one_pos d : 0 < Math_max 1 d.
Proof.
  unfold Math_max. pose proof (Q.le_max_l 1 d). lra.
Qed.

Lemma silenceRatio_of_bounds ss d :
  0 <= silenceRatio_of ss d
  /\ (Forall (fun s => s_end s == s_start s) ss -> silenceRatio_of ss d == 0)
  /\ (in_order 0 (Math_max 1 d) ss -> silenceRatio_of ss d <= 1).
Proof.
  unfold silenceRatio_of. pose proof (Math_max_one_pos d) as Hpos.
  split; [| split].
  - apply Qle_shift_div_l; [exact Hpos |].
    pose proof (silence_total_nonneg ss). lra.
  - intro H. unfold silence_total. rewrite (fold_silence_zero ss 0 H).
    unfold Qdiv. lra.
  - intro H. apply Qle_shift_div_r; [exact Hpos |].
    pose proof (fold_silence_in_order ss 0 (Math_max 1 d) 0 H) as Hle.
    unfold silence_total. lra.
Qed.

(** The statement as written fails: 1.2 s of silence in a clip of 1.4 s,
    whose duration rounds to 1 s, give the ratio 1.2. *)
Lemma silence_ratio_above_one :
  ~ silence_ratio_in_unit_interval no_form env_short_silent.
Proof.
  intro H. destruct (H _ eq_refl) as [_ Hle].
  - reflexivity.
  - apply Qle_bool_iff in Hle. vm_compute in Hle. discriminate.
Qed.

Lemma fold_silence_sum ss : forall acc,
  fold_left (fun a s => a + Math_max 0 (s_end s - s_start s)) ss acc
  == acc + summed_silence ss.
Proof.
  induction ss as [| s ss IH]; intro acc; cbn [fold_left summed_silence].
  - lra.
  - rewrite IH. unfold Math_max. lra.
Qed.

Lemma silenceRatio_of_value ss d :
  silenceRatio_of ss d == summed_silence ss / Qmax 1 d.
Proof.
  unfold silenceRatio_of, silence_total, Math_max.
  rewrite (fold_silence_sum ss 0). apply Qdiv_comp; [lra | reflexivity].
Qed.

(** C6, amended.  In every report the silence ratio is the summed length
    of the detected intervals over [max(1, durationSec)]; it is never
    negative; it is 0 when no interval was detected or when every
    interval is unterminated (its end is its start); and it is at most 1
    when the intervals are closed, in order, and end by
    [max(1, durationSec)].  The duration is a number here: a probe whose
    duration is not one is outside the model. *)
Theorem silenceRatio_bounds body env r :
  payload (response body env) = ReportBody r ->
  silences r = parse_silences (silencedetect env)
  /\ silenceRatio r == summed_silence (silences r) / Qmax 1 (durationSec r)
  /\ 0 <= silenceRatio r
  /\ (silences r = [] -> silenceRatio r == 0)
  /\ (Forall (fun s => s_end s == s_start s) (silences r) ->
      silenceRatio r == 0)
  /\ (in_order 0 (Math_max 1 (durationSec r)) (silences r) ->
      silenceRatio r <= 1).
Proof.
  intro Hr. apply report_inv in Hr as (_ & _ & _ & _ & Hf).
  destruct Hf as (_ & _ & _ & _ & _ & _ & Hs & Hratio & _).
  rewrite Hratio.
  destruct (silenceRatio_of_bounds (silences r) (durationSec r))
    as (H0 & Hz & H1).
  split; [exact Hs |]. split; [apply silenceRatio_of_value |].
  split; [exact H0 |].
  split; [| split; [exact Hz | exact H1]].
  intro E. apply Hz. rewrite E. constructor.
Qed.

Lemma silenceRatio_bounds_witness :
  exists r,
    payload (response fitness_form env_vlog) = ReportBody r
    /\ in_order 0 (Math_max 1 (durationSec r)) (silences r)
    /\ silenceRatio r == 1.4 / 24
    /\ 0 <= silenceRatio r
    /\ silenceRatio r <= 1.
Proof.
  eexists. split; [reflexivity |].
  destruct (silenceRatio_bounds fitness_form env_vlog _ eq_refl)
    as (_ & Hv & H0 & _ & _ & H1).
  assert (Hord : in_order 0 (Math_max 1 24)
                   [ {| s_start := 0; s_end := 1.4 |};
                     {| s_start := 5; s_end := 5 |} ]).
  { cbn. repeat split; apply Qle_bool_iff; reflexivity. }
  split; [exact Hord |]. split; [| split; [exact H0 | exact (H1 Hord)]].
  rewrite Hv. reflexivity.
Defined.

(* ------------------------------------------------------------------ *)
(** ** The cut detection chain *)
(* ------------------------------------------------------------------ *)

Lemma measured_chain body env :
  measurable env -> cut_log (final_world body env) = expected_chain env.
Proof.
  intro Hm. pose proof (analyze_cases body env) as H.
  destruct H as [(_ & Hf & _) | [(_ & Hn) | [H | [H | H]]]].
  - destruct Hm as ((f & Hf' & _) & _). congruence.
  - contradiction.
  - destruct H as (_ & _ & _ & (_ & _ & H)). exact H.
  - destruct H as (_ & _ & _ & (_ & _ & H)). exact H.
  - destruct H as (_ & _ & _ & (_ & _ & H) & _). exact H.
Qed.

Lemma in_cut_log s w :
  is_cut_stage s = true -> (In s (log w) <-> In s (cut_log w)).
Proof.
  intro Hs. unfold cut_log. rewrite filter_In. tauto.
Qed.

Lemma insert_sorted_nonempty x xs : insert_sorted x xs <> [].
Proof. destruct xs as [| y r]; simpl; [| destruct (leb x y)]; discriminate. Qed.

(** The two visual passes together yield no timestamp exactly when neither
    does. *)
Lemma visual_cuts_empty env :
  visual_cuts env = [] <-> strict_cuts env = [] /\ loose_cuts env = [].
Proof.
  unfold visual_cuts. destruct (strict_cuts env) as [| t ts].
  - destruct (loose_cuts env) as [| x l]; cbn.
    + tauto.
    + split; [| intros [_ E]; discriminate].
      intro E. now apply insert_sorted_nonempty in E.
  - split; [discriminate | intros [E _]; discriminate].
Qed.

Lemma silence_guard_true env :
  silence_guard env = true
  <-> (strict_cuts env = [] /\ loose_cuts env = [])
      /\ (1 < List.length (detected_silences env))%nat.
Proof.
  rewrite <- visual_cuts_empty. unfold silence_guard.
  destruct (visual_cuts env).
  - rewrite Nat.ltb_lt. tauto.
  - split; [discriminate | intros [E _]; discriminate].
Qed.

Lemma expected_chain_members env :
  In (SceneDetect 0.32) (expected_chain env)
  /\ (In (SceneDetect 0.15) (expected_chain env) <-> strict_cuts env = [])
  /\ (In SilenceFallback (expected_chain env) <-> silence_guard env = true)
  /\ (In FrameSample (expected_chain env) <-> cuts_after_silence env = 0%Z).
Proof.
  unfold expected_chain. rewrite <- Z.eqb_eq.
  destruct (cuts_after_silence env =? 0)%Z, (silence_guard env),
    (strict_cuts env); cbn;
    repeat split; intros; try discriminate; auto;
    repeat match goal with
           | H : _ \/ _ |- _ => destruct H
           | H : False |- _ => destruct H
           | H : _ = _ |- _ => discriminate H
           end.
Qed.

(** The statement as written fails: on a static clip with no silence both
    visual passes find nothing, and the silence-derived fallback is not
    entered. *)
Lemma silence_fallback_guarded : ~ fallbacks_strict no_form env_static.
Proof.
  intro H.
  assert (Hm : measurable env_static).
  { repeat split; cbn; eauto. }
  destruct (H Hm) as (_ & (_ & Hrun) & _).
  assert (Hin : In SilenceFallback (log (final_world no_form env_static)))
    by (apply Hrun; split; reflexivity).
  vm_compute in Hin.
  repeat match goal with
         | H : _ \/ _ |- _ => destruct H
         | H : False |- _ => destruct H
         | H : _ = _ |- _ => discriminate H
         end.
Qed.

(** C1, amended.  For a request that gets to the measurements: the strict
    pass runs; the loose pass runs exactly when the strict pass found no
    timestamp; the silence-derived fallback runs exactly when the two
    passes found none and more than one silence interval was detected (with
    at most one interval its count would be 0); the frame sampling runs
    exactly when the cut count is 0 after that. *)
Theorem fallback_chain body env :
  measurable env ->
  let w := final_world body env in
  let quiet := detected_silences env in
  In (SceneDetect 0.32) (log w)
  /\ (In (SceneDetect 0.15) (log w) <-> strict_cuts env = [])
  /\ (In SilenceFallback (log w)
      <-> (strict_cuts env = [] /\ loose_cuts env = [])
          /\ (1 < List.length quiet)%nat)
  /\ ((List.length quiet <= 1)%nat -> Z.max 0 (gaps quiet - 1) = 0%Z)
  /\ (strict_cuts env = [] /\ loose_cuts env = [] ->
      cuts_after_silence env = Z.max 0 (gaps quiet - 1))
  /\ (visual_cuts env <> [] ->
      cuts_after_silence env = Z.of_nat (List.length (visual_cuts env))
      /\ cuts_after_silence env <> 0%Z)
  /\ (In FrameSample (log w) <-> cuts_after_silence env = 0%Z).
Proof.
  intros Hm w quiet. subst w quiet.
  pose proof (measured_chain body env Hm) as Hchain.
  destruct (expected_chain_members env) as (H32 & H15 & Hsil & Hframe).
  rewrite !in_cut_log by reflexivity. rewrite Hchain.
  rewrite <- silence_guard_true.
  split; [exact H32 |]. split; [exact H15 |]. split; [exact Hsil |].
  split; [| split; [| split; [| exact Hframe]]].
  - intro Hlen. pose proof (gaps_le_length (detected_silences env)). lia.
  - intro Hboth. apply visual_cuts_empty in Hboth.
    unfold cuts_after_silence. now rewrite Hboth.
  - intro Hne. unfold cuts_after_silence.
    destruct (visual_cuts env) as [| t ts]; [now elim Hne |].
    split; [reflexivity |]. cbn [List.length]. lia.
Qed.

Lemma fallback_chain_witness :
  measurable env_static
  /\ In (SceneDetect 0.15) (log (final_world no_form env_static))
  /\ ~ In SilenceFallback (log (final_world no_form env_static))
  /\ In FrameSample (log (final_world no_form env_static)).
Proof.
  assert (Hm : measurable env_static).
  { repeat split; cbn; eauto. }
  destruct (fallback_chain no_form env_static Hm)
    as (_ & H15 & Hsil & _ & _ & _ & Hframe).
  split; [exact Hm |].
  split; [apply H15; reflexivity |].
  split; [| apply Hframe; reflexivity].
  intro Hin. apply Hsil in Hin as [_ Hlen]. cbn in Hlen. lia.
Defined.

(* ------------------------------------------------------------------ *)
(** ** The probe and the cleanup *)
(* ------------------------------------------------------------------ *)

(** C2.  The claim holds of a request that gets to the measurements
    ([measured_request_cleans_up]); it fails when the probe reports an
    error: the handler answers 500 and both the working directory and the
    upload are still there. *)
Theorem probe_failure_leaves_files body env file :
  req_file env = Some file ->
  mkdtemp_ok env = true ->
  (file_path file = false -> file_buffer file = true ->
   writeFile_ok env = true) ->
  ffprobe env = ProbeErr ->
  response body env = error 500 "analysis_failed"
  /\ workDir_exists (final_world body env) = true
  /\ upload_exists (final_world body env) = file_path file.
Proof.
  intros Hfile Hmk Hwrite Hprobe.
  unfold response, final_world, analyze, try_catch, analyze_try, bind,
    mkdtemp, write_upload, probe_duration, initial_world.
  rewrite Hfile, Hmk, Hprobe. cbn.
  destruct (file_path file) eqn:Hp; cbn; [auto |].
  destruct (file_buffer file) eqn:Hb; cbn; [| auto].
  rewrite (Hwrite eq_refl eq_refl). cbn. auto.
Qed.

Lemma probe_failure_leaves_files_witness :
  response no_form env_undecodable = error 500 "analysis_failed"
  /\ workDir_exists (final_world no_form env_undecodable) = true
  /\ upload_exists (final_world no_form env_undecodable) = true.
Proof.
  apply (probe_failure_leaves_files no_form env_undecodable file_on_disk).
  - reflexivity.
  - reflexivity.
  - intro H. discriminate H.
  - reflexivity.
Defined.

(** The statement as written fails: an undecodable upload is answered
    with the error 500, not with a report. *)
Lemma probe_failure_is_fatal :
  ~ probe_failure_tolerated no_form env_undecodable.
Proof.
  intro H. destruct H as (r & Hr & _).
  - reflexivity.
  - discriminate.
  - reflexivity.
  - reflexivity.
  - exists coach. split; [reflexivity | intro p; discriminate].
  - discriminate Hr.
Qed.

(** C3, amended.  A probe that reports an error aborts the request with
    the error 500; the duration is taken as 0, and the run goes on to a
    report, when the probe answers without a duration. *)
Theorem probe_failure_aborts body env :
  (ffprobe env = ProbeErr -> req_file env <> None ->
   response body env = error 500 "analysis_failed")
  /\ (ffprobe env = ProbeData None -> measurable env ->
      suggestion_service_works env ->
      exists r, response body env = {| status := 200;
                                       payload := ReportBody r |}
                /\ durationSec r = 0).
Proof.
  split.
  - intros Hprobe Hfile. pose proof (analyze_cases body env) as H.
    apply not_measurable_probe in Hprobe.
    destruct H as [(_ & Hf & _) | [(E & _) | [H | [H | H]]]].
    + contradiction.
    + exact E.
    + destruct H as (_ & Hm & _). contradiction.
    + destruct H as (_ & Hm & _). contradiction.
    + destruct H as (_ & Hm & _). contradiction.
  - intros Hprobe Hm Hworks.
    destruct (analyze_succeeds body env Hm Hworks) as (r & Hr).
    exists r. split; [exact Hr |].
    assert (Hp : payload (response body env) = ReportBody r)
      by now rewrite Hr.
    apply report_inv in Hp as (_ & _ & _ & _ & Hf).
    destruct Hf as ((x & Hx & Hd) & _).
    rewrite Hprobe in Hx. injection Hx as <-. rewrite Hd. reflexivity.
Qed.

Lemma probe_failure_aborts_witness :
  (ffprobe env_undecodable = ProbeErr /\ req_file env_undecodable <> None
   /\ response no_form env_undecodable = error 500 "analysis_failed")
  /\ (ffprobe env_no_duration = ProbeData None
      /\ measurable env_no_duration
      /\ suggestion_service_works env_no_duration
      /\ exists r, response no_form env_no_duration
                   = {| status := 200; payload := ReportBody r |}
                   /\ durationSec r = 0).
Proof.
  assert (Hfile : req_file env_undecodable <> None) by discriminate.
  assert (Hm : measurable env_no_duration).
  { repeat split; cbn; eauto. }
  assert (Hw : suggestion_service_works env_no_duration).
  { exists coach. split; [reflexivity | intro p; discriminate]. }
  split.
  - split; [reflexivity |]. split; [exact Hfile |].
    exact (proj1 (probe_failure_aborts no_form env_undecodable)
                 eq_refl Hfile).
  - split; [reflexivity |]. split; [exact Hm |]. split; [exact Hw |].
    exact (proj2 (probe_failure_aborts no_form env_no_duration)
                 eq_refl Hm Hw).
Defined.

(* ------------------------------------------------------------------ *)
(** ** The body of a report *)
(* ------------------------------------------------------------------ *)

Lemma stringify_numbers l :
  List.map (fun x => match stringify x with Some j => j | None => JNull end)
           (List.map JsNum l)
  = List.map JNum l.
Proof. rewrite map_map. now apply map_ext. Qed.

Lemma stringify_strings l :
  List.map (fun x => match stringify x with Some j => j | None => JNull end)
           (List.map JsStr l)
  = List.map JStr l.
Proof. rewrite map_map. now apply map_ext. Qed.

Lemma stringify_silences ss :
  List.map (fun x => match stringify x with Some j => j | None => JNull end)
           (List.map (fun s => JsObj [ ("start"%string, JsNum (s_start s));
                                       ("end"%string, JsNum (s_end s)) ]) ss)
  = List.map (fun s => JObj [ ("start"%string, JNum (s_start s));
                              ("end"%string, JNum (s_end s)) ]) ss.
Proof. rewrite map_map. now apply map_ext. Qed.

(** What [JSON.stringify] makes of the report: an absent measurement
    leaves no member. *)
Lemma stringify_report r :
  stringify (report_object r) = Some (JObj (report_members r)).
Proof.
  destruct r as [d c a tl f3 h f2 cp ss sr [mean peak] [ya ymi yma co]
                 wps tr sug crit].
  unfold report_object, report_members, measured_members.
  cbn [durationSec cuts avgCutSec cutTimeline first3Cuts hookText first2sText
       captionsPresent silences silenceRatio loudness firstSecond wordsPerSec
       transcript suggestions critique].
  cbn [stringify]. rewrite stringify_numbers, stringify_silences,
    stringify_strings.
  destruct wps, tr, crit; cbn [stringify opt_num optional app];
    rewrite ?stringify_strings;
    destruct mean, peak, ya, ymi, yma, co; reflexivity.
Qed.

Lemma res_json_report body env r :
  payload (response body env) = ReportBody r ->
  res_json (response body env) = Some (JObj (report_members r)).
Proof.
  intro Hr. unfold res_json. rewrite Hr. apply stringify_report.
Qed.

Lemma in_optional_keys {X} k' k (f : X -> json) (x : option X) :
  In k' (List.map fst (optional k f x)) <-> k' = k /\ x <> None.
Proof.
  destruct x as [v |]; cbn.
  - split; [intros [E | []]; split; [now symmetry | discriminate]
           | intros [E _]; left; now symmetry].
  - split; [intros [] | intros [_ H]; now elim H].
Qed.

Ltac string_cases :=
  repeat match goal with
         | H : _ \/ _ |- _ => destruct H
         | H : _ /\ _ |- _ => destruct H
         | H : False |- _ => destruct H
         | H : @eq string _ _ |- _ => discriminate H
         end.

(** The members of a report: thirteen keys are always there; the others
    are there exactly when their measurement is. *)
Lemma report_members_keys r :
  (forall k, In k always_keys -> In k (List.map fst (report_members r)))
  /\ (In "wordsPerSec"%string (List.map fst (report_members r))
      <-> wordsPerSec r <> None)
  /\ (In "transcript"%string (List.map fst (report_members r))
      <-> transcript r <> None)
  /\ (In "critique"%string (List.map fst (report_members r))
      <-> critique r <> None).
Proof.
  unfold report_members. rewrite !map_app.
  split; [| split; [| split]].
  - intros k Hk. rewrite !in_app_iff.
    cbn in Hk.
    repeat (destruct Hk as [<- | Hk]; [cbn; tauto |]). destruct Hk.
  - rewrite !in_app_iff, !in_optional_keys. cbn.
    split; [intro H; string_cases; assumption | intro H; tauto].
  - rewrite !in_app_iff, !in_optional_keys. cbn.
    split; [intro H; string_cases; assumption | intro H; tauto].
  - rewrite !in_app_iff, !in_optional_keys. cbn.
    split; [intro H; string_cases; assumption | intro H; tauto].
Qed.

Lemma loudness_members_keys l :
  (In "meanDb"%string (List.map fst (loudness_members l)) <-> meanDb l <> None)
  /\ (In "maxDb"%string (List.map fst (loudness_members l))
      <-> maxDb l <> None).
Proof.
  unfold loudness_members. rewrite !map_app.
  split; rewrite !in_app_iff, !in_optional_keys;
    (split; [intro H; string_cases; assumption | intro H; tauto]).
Qed.

Lemma firstSecond_members_keys f :
  (In "yavg"%string (List.map fst (firstSecond_members f)) <-> yavg f <> None)
  /\ (In "ymin"%string (List.map fst (firstSecond_members f))
      <-> ymin f <> None)
  /\ (In "ymax"%string (List.map fst (firstSecond_members f))
      <-> ymax f <> None)
  /\ (In "contrast"%string (List.map fst (firstSecond_members f))
      <-> contrast f <> None).
Proof.
  unfold firstSecond_members. rewrite !map_app.
  repeat split; rewrite ?in_app_iff, ?in_optional_keys; intro H;
    string_cases; tauto.
Qed.

(** The statement as written fails: without a transcript the body of the
    report has no [wordsPerSec] (nor [transcript]) key at all. *)
Lemma absent_measurement_is_omitted :
  ~ report_shape_complete no_form env_absent.
Proof.
  intro H. destruct (H _ eq_refl) as (j & Hj & Hkeys).
  vm_compute in Hj. injection Hj as <-.
  assert (Hin : In "wordsPerSec"%string declared_keys)
    by (cbn; tauto).
  apply Hkeys in Hin. cbn in Hin. string_cases.
Qed.

(** C4, amended.  The report is always built: a request that gets to the
    measurements with a working suggestion service is answered 200 with
    a report, whatever measurements are absent.  Its JSON body is an
    object that always has the thirteen keys of [always_keys], with empty
    strings and arrays for what is empty; a measurement that is absent
    ([wordsPerSec], [transcript], [critique], the members of [loudness]
    and of [firstSecond]) has no key, and has one when it is present. *)
Theorem report_shape body env :
  (measurable env -> suggestion_service_works env ->
   exists r, response body env = {| status := 200;
                                    payload := ReportBody r |})
  /\ forall r,
      payload (response body env) = ReportBody r ->
      exists props,
        res_json (response body env) = Some (JObj props)
        /\ (forall k, In k always_keys -> In k (List.map fst props))
        /\ (In "wordsPerSec"%string (List.map fst props)
            <-> wordsPerSec r <> None)
        /\ (In "transcript"%string (List.map fst props)
            <-> transcript r <> None)
        /\ (In "critique"%string (List.map fst props)
            <-> critique r <> None)
        /\ (exists members,
              assoc "loudness" props = Some (JObj members)
              /\ (In "meanDb"%string (List.map fst members)
                  <-> meanDb (loudness r) <> None)
              /\ (In "maxDb"%string (List.map fst members)
                  <-> maxDb (loudness r) <> None))
        /\ (exists members,
              assoc "firstSecond" props = Some (JObj members)
              /\ (In "yavg"%string (List.map fst members)
                  <-> yavg (firstSecond r) <> None)
              /\ (In "ymin"%string (List.map fst members)
                  <-> ymin (firstSecond r) <> None)
              /\ (In "ymax"%string (List.map fst members)
                  <-> ymax (firstSecond r) <> None)
              /\ (In "contrast"%string (List.map fst members)
                  <-> contrast (firstSecond r) <> None)).
Proof.
  split; [apply analyze_succeeds |].
  intros r Hr. exists (report_members r).
  split; [now apply res_json_report |].
  destruct (report_members_keys r) as (Hall & Hw & Ht & Hc).
  split; [exact Hall |]. split; [exact Hw |]. split; [exact Ht |].
  split; [exact Hc |]. split.
  - exists (loudness_members (loudness r)).
    split; [reflexivity | apply loudness_members_keys].
  - exists (firstSecond_members (firstSecond r)).
    split; [reflexivity | apply firstSecond_members_keys].
Qed.

Lemma report_shape_witness :
  measurable env_absent
  /\ suggestion_service_works env_absent
  /\ exists r,
       response no_form env_absent
       = {| status := 200; payload := ReportBody r |}
       /\ exists props,
            res_json (response no_form env_absent) = Some (JObj props)
            /\ (forall k, In k always_keys -> In k (List.map fst props))
            /\ ~ In "wordsPerSec"%string (List.map fst props).
Proof.
  assert (Hm : measurable env_absent).
  { repeat split; cbn; eauto. }
  assert (Hw : suggestion_service_works env_absent).
  { exists coach. split; [reflexivity | intro p; discriminate]. }
  split; [exact Hm |]. split; [exact Hw |].
  destruct (report_shape no_form env_absent) as (Hbuilt & Hshape).
  destruct (Hbuilt Hm Hw) as (r & Hr). exists r. split; [exact Hr |].
  assert (Hp : payload (response no_form env_absent) = ReportBody r)
    by (rewrite Hr; reflexivity).
  destruct (Hshape r Hp) as (props & Hjson & Hall & Hwps & _).
  exists props. split; [exact Hjson |]. split; [exact Hall |].
  intro Hin. apply Hwps in Hin. apply Hin.
  rewrite Hr in Hp. cbn in Hp.
  assert (E : response no_form env_absent
              = {| status := 200; payload := ReportBody r |}) by exact Hr.
  vm_compute in E. injection E as <-. reflexivity.
Defined.

(* ------------------------------------------------------------------ *)
(** ** The end-to-end scenarios *)
(* ------------------------------------------------------------------ *)

(** Without a configured client the request is answered 503 after the
    measurements, and the working directory has been removed. *)
Lemma unconfigured_service_unavailable body env :
  measurable env -> openai env = None ->
  response body env = error 503 "llm_unavailable"
  /\ workDir_exists (final_world body env) = false.
Proof.
  intros Hm Hno. pose proof (analyze_cases body env) as H.
  destruct H as [(_ & Hf & _) | [(_ & Hn) | [H | [H | H]]]].
  - destruct Hm as ((f & Hf' & _) & _). congruence.
  - contradiction.
  - destruct H as (E & _ & _ & (Hwd & _)). auto.
  - destruct H as (_ & _ & (ai & p & Hai & _) & _). congruence.
  - destruct H as (_ & _ & (ai & Hai) & _). congruence.
Qed.

(** Scenario A: 24 s, ten scene cuts, a caption in the first second. *)
Example scenario_ten_cuts :
  exists r,
    response no_form env_vlog = {| status := 200; payload := ReportBody r |}
    /\ durationSec r == 24 /\ cuts r = 10%Z /\ avgCutSec r == 2.4
    /\ first3Cuts r = 1%Z
    /\ hookText r = lit "STOP doing this" /\ captionsPresent r = true.
Proof.
  eexists. split; [reflexivity |]. now vm_compute.
Qed.

(** Scenario B: a static 20 s clip without silence; both passes and the
    silence-derived count give 0, the frame sampling is tried and finds
    nothing. *)
Example scenario_static_clip :
  exists r,
    response no_form env_absent = {| status := 200; payload := ReportBody r |}
    /\ cuts r = 0%Z /\ avgCutSec r == 20 /\ cutTimeline r = []
    /\ rev (cut_log (final_world no_form env_absent))
       = [SceneDetect 0.32; SceneDetect 0.15; FrameSample].
Proof.
  eexists. split; [reflexivity |]. now vm_compute.
Qed.

(** Scenario C: no credentials. *)
Example scenario_no_credentials :
  analyze no_form env_static
  = (error 503 "llm_unavailable",
     {| workDir_exists := false;
        upload_exists := false;
        log := [ SignalStats; VolumeDetect; FrameSample; Ocr 1.0; Ocr 0.5;
                 Ocr 0; Screenshots; SilenceDetect; SceneDetect 0.15;
                 SceneDetect 0.32 ] |}).
Proof. reflexivity. Qed.

(** Scenario D: the transcription throws; the request still succeeds. *)
Example scenario_transcription_fails :
  exists r,
    response no_form env_absent = {| status := 200; payload := ReportBody r |}
    /\ transcript r = None /\ wordsPerSec r = None
    /\ suggestions r = [ lit "Trim the first second"; lit "Cut on the beat" ]
    /\ critique r = Some [ lit "Tighten the intro" ].
Proof.
  eexists. split; [reflexivity |]. now vm_compute.
Qed.

(* ================================================================== *)
(** * Further properties of the server's code *)
(* ================================================================== *)

(* ------------------------------------------------------------------ *)
(** ** The timeline of the two visual passes *)
(* ------------------------------------------------------------------ *)

Lemma in_insert_sorted x y xs :
  In y (insert_sorted x xs) <-> y = x \/ In y xs.
Proof.
  induction xs as [| z xs IH]; simpl.
  - intuition.
  - destruct (leb x z); simpl; [intuition | rewrite IH; intuition].
Qed.

Lemma in_sort_numbers y xs : In y (sort_numbers xs) <-> In y xs.
Proof.
  induction xs as [| x xs IH]; simpl; [tauto |].
  rewrite in_insert_sorted, IH. intuition.
Qed.

Lemma insert_sorted_perm x xs : Permutation (insert_sorted x xs) (x :: xs).
Proof.
  induction xs as [| y xs IH]; simpl; [reflexivity |].
  destruct (leb x y); [reflexivity |].
  rewrite IH. apply perm_swap.
Qed.

(** [sort] rearranges and loses nothing. *)
Lemma sort_numbers_perm xs : Permutation (sort_numbers xs) xs.
Proof.
  induction xs as [| x xs IH]; simpl; [reflexivity |].
  rewrite insert_sorted_perm. now apply perm_skip.
Qed.

Lemma leb_false_lt x y : leb x y = false -> y < x.
Proof.
  unfold leb. intro H. apply Qnot_le_lt. intro Hle.
  apply Qle_bool_iff in Hle. congruence.
Qed.

Lemma insert_sorted_le x xs :
  StronglySorted Qle xs -> StronglySorted Qle (insert_sorted x xs).
Proof.
  induction 1 as [| y xs Hs IH Hy]; simpl.
  - repeat constructor.
  - destruct (leb x y) eqn:Hxy.
    + apply Qle_bool_iff in Hxy. constructor; [now constructor |].
      constructor; [exact Hxy |].
      eapply Forall_impl; [| exact Hy]. intros z Hz. lra.
    + apply leb_false_lt in Hxy. constructor; [exact IH |].
      apply Forall_forall. intros z Hz. apply in_insert_sorted in Hz.
      destruct Hz as [-> | Hz]; [lra |].
      rewrite Forall_forall in Hy. now apply Hy.
Qed.

(** [sort((a,b)=>a-b)] leaves the numbers in ascending order. *)
Lemma sort_numbers_sorted xs : StronglySorted Qle (sort_numbers xs).
Proof.
  induction xs as [| x xs IH]; simpl; [constructor |].
  now apply insert_sorted_le.
Qed.

Lemma insert_sorted_lt x xs :
  StronglySorted Qlt xs -> (forall y, In y xs -> ~ x == y) ->
  StronglySorted Qlt (insert_sorted x xs).
Proof.
  induction 1 as [| y xs Hs IH Hy]; intro Hnew; simpl.
  - repeat constructor.
  - destruct (leb x y) eqn:Hxy.
    + apply Qle_bool_iff in Hxy.
      assert (Hlt : x < y).
      { apply Qle_lt_or_eq in Hxy as [H | H]; [exact H |].
        elim (Hnew y); [now left | exact H]. }
      constructor; [now constructor |].
      constructor; [exact Hlt |].
      eapply Forall_impl; [| exact Hy]. intros z Hz. lra.
    + apply leb_false_lt in Hxy. constructor.
      * apply IH. intros z Hz. apply Hnew. now right.
      * apply Forall_forall. intros z Hz. apply in_insert_sorted in Hz.
        destruct Hz as [-> | Hz]; [exact Hxy |].
        rewrite Forall_forall in Hy. now apply Hy.
Qed.

Lemma existsb_eqb_true x seen :
  existsb (eqb x) seen = true <-> exists s, In s seen /\ x == s.
Proof.
  rewrite existsb_exists. unfold eqb.
  split; intros (s & Hs & E); exists s; (split; [exact Hs |]);
    now apply Qeq_bool_iff.
Qed.

(** What [new Set] keeps: numbers of the list, none equal to one seen
    before or to one kept before, and one for every number not seen. *)
Lemma dedupe_spec xs : forall seen,
  (forall t, In t (dedupe seen xs) ->
     In t xs /\ forall s, In s seen -> ~ t == s)
  /\ (forall t, In t xs ->
        (exists s, In s seen /\ t == s)
        \/ exists t', In t' (dedupe seen xs) /\ t' == t)
  /\ ForallOrdPairs (fun a b => ~ a == b) (dedupe seen xs).
Proof.
  induction xs as [| x xs IH]; intro seen; simpl.
  - split; [intros t [] |]. split; [intros t [] | constructor].
  - destruct (existsb (eqb x) seen) eqn:Hx.
    + apply existsb_eqb_true in Hx as (s & Hs & Hxs).
      destruct (IH seen) as (H1 & H2 & H3).
      split; [| split; [| exact H3]].
      * intros t Ht. destruct (H1 t Ht). auto.
      * intros t [<- | Ht]; [left; eauto | now apply H2].
    + assert (Hfresh : forall s, In s seen -> ~ x == s).
      { intros s Hs E.
        assert (existsb (eqb x) seen = true)
          by (apply existsb_eqb_true; eauto).
        congruence. }
      destruct (IH (x :: seen)) as (H1 & H2 & H3).
      split; [| split].
      * intros t [<- | Ht]; [split; [now left | exact Hfresh] |].
        destruct (H1 t Ht) as (Hin & Hseen).
        split; [now right |]. intros s Hs. apply Hseen. now right.
      * intros t [<- | Ht].
        -- right. exists x. split; [now left | reflexivity].
        -- destruct (H2 t Ht) as [(s & [<- | Hs] & E) | (t' & Ht' & E)].
           ++ right. exists x. split; [now left | now symmetry].
           ++ left. eauto.
           ++ right. exists t'. split; [now right | exact E].
      * constructor; [| exact H3].
        apply Forall_forall. intros t Ht E.
        destruct (H1 t Ht) as (_ & Hseen).
        apply (Hseen x); [now left | now symmetry].
Qed.

Lemma sort_distinct xs :
  ForallOrdPairs (fun a b => ~ a == b) xs ->
  StronglySorted Qlt (sort_numbers xs).
Proof.
  induction 1 as [| x xs Hx _ IH]; simpl; [constructor |].
  apply insert_sorted_lt; [exact IH |].
  intros y Hy. rewrite in_sort_numbers in Hy.
  rewrite Forall_forall in Hx. exact (Hx y Hy).
Qed.

(** The timeline of a report is what the visual passes left. *)
Lemma timeline_is_visual body env r :
  payload (response body env) = ReportBody r ->
  cutTimeline r = visual_cuts env.
Proof.
  intro Hr. apply report_inv in Hr as (_ & _ & _ & _ & Hf).
  destruct Hf as (_ & Hcuts & _).
  destruct Hcuts as [(_ & _ & Ht) | (Hz & [(_ & Ht) | (_ & Ht)])];
    try exact Ht.
  rewrite Ht. unfold cuts_after_silence in Hz.
  destruct (visual_cuts env) as [| t ts]; [reflexivity |].
  cbn [List.length] in Hz. lia.
Qed.

(** The timeline of a report: the timestamps of the strict pass as they
    were printed when there are any; otherwise those of the loose pass in
    strictly ascending order, each once. *)
Theorem timeline_of_passes body env r :
  payload (response body env) = ReportBody r ->
  (strict_cuts env <> [] -> cutTimeline r = strict_cuts env)
  /\ (strict_cuts env = [] ->
      StronglySorted Qlt (cutTimeline r)
      /\ (forall t, In t (cutTimeline r) -> In t (loose_cuts env))
      /\ (forall t, In t (loose_cuts env) ->
            exists t', In t' (cutTimeline r) /\ t' == t)).
Proof.
  intro Hr. rewrite (timeline_is_visual body env r Hr).
  unfold visual_cuts. split.
  - intro Hne. destruct (strict_cuts env); [now elim Hne | reflexivity].
  - intros ->. destruct (dedupe_spec (loose_cuts env) []) as (H1 & H2 & H3).
    split; [now apply sort_distinct |]. split.
    + intros t Ht. rewrite in_sort_numbers in Ht. now apply H1.
    + intros t Ht. destruct (H2 t Ht) as [(s & [] & _) | (t' & Ht' & E)].
      exists t'. split; [now rewrite in_sort_numbers | exact E].
Qed.

Lemma timeline_of_passes_witness :
  exists r,
    payload (response no_form env_vlog) = ReportBody r
    /\ strict_cuts env_vlog <> []
    /\ cutTimeline r = strict_cuts env_vlog.
Proof.
  eexists. split; [reflexivity |].
  assert (Hne : strict_cuts env_vlog <> []) by (vm_compute; discriminate).
  split; [exact Hne |].
  exact (proj1 (timeline_of_passes no_form env_vlog _ eq_refl) Hne).
Defined.

(** A showinfo line counts once for its [pts_time] and once more when it
    also has a [scene_score]. *)
Lemma parse_times_length lines :
  List.length (parse_times lines)
  = (captured pts_time lines + List.length (filter scored lines))%nat.
Proof.
  unfold parse_times, captured, captures.
  induction lines as [| l lines IH]; [reflexivity |].
  cbn [flat_map filter]. rewrite !length_app, IH.
  unfold showinfo_times, scored.
  destruct (pts_time l), (scene_score l); cbn; lia.
Qed.

(** When the strict pass finds timestamps, the cut count of the report is
    the number of its lines with a [pts_time] plus the number of its lines
    that also have a [scene_score]: such a line counts as two cuts. *)
Theorem strict_pass_counts_twice body env r :
  payload (response body env) = ReportBody r ->
  strict_cuts env <> [] ->
  cuts r = Z.of_nat (captured pts_time (showinfo env 0.32)
                     + List.length (filter scored (showinfo env 0.32))).
Proof.
  intros Hr Hne. rewrite <- parse_times_length. fold (strict_cuts env).
  apply report_inv in Hr as (_ & _ & _ & _ & Hf).
  destruct Hf as (_ & Hcuts & _).
  assert (Hc : cuts_after_silence env
               = Z.of_nat (List.length (strict_cuts env))).
  { unfold cuts_after_silence, visual_cuts.
    destruct (strict_cuts env); [now elim Hne | reflexivity]. }
  assert (Hpos : cuts_after_silence env <> 0%Z).
  { rewrite Hc. destruct (strict_cuts env); [now elim Hne |].
    cbn [List.length]. lia. }
  destruct Hcuts as [(_ & E & _) | (Hz & _)]; [| contradiction].
  now rewrite E.
Qed.

Lemma strict_pass_counts_twice_witness :
  exists r,
    payload (response no_form env_vlog) = ReportBody r
    /\ strict_cuts env_vlog <> []
    /\ cuts r = 10%Z.
Proof.
  eexists. split; [reflexivity |].
  assert (Hne : strict_cuts env_vlog <> []) by (vm_compute; discriminate).
  split; [exact Hne |].
  exact (strict_pass_counts_twice no_form env_vlog _ eq_refl Hne).
Defined.

(* ------------------------------------------------------------------ *)
(** ** The silence intervals and the sampled frames *)
(* ------------------------------------------------------------------ *)

Lemma set_last_end_starts e out :
  List.map s_start (set_last_end e out) = List.map s_start out.
Proof.
  induction out as [| s [| s' out] IH]; [reflexivity | reflexivity |].
  change (set_last_end e (s :: s' :: out))
    with (s :: set_last_end e (s' :: out)).
  cbn [List.map]. now rewrite IH.
Qed.

Lemma in_set_last_end e out s :
  In s (set_last_end e out) -> In s out \/ s_end s = e.
Proof.
  induction out as [| s0 [| s' out] IH].
  - intros [].
  - intros [<- | []]. right. reflexivity.
  - change (set_last_end e (s0 :: s' :: out))
      with (s0 :: set_last_end e (s' :: out)).
    intros [<- | H]; [left; now left |].
    destruct (IH H) as [Hin | He]; [left; now right | now right].
Qed.

Lemma silence_line_starts out l :
  List.map s_start (silence_line out l)
  = List.map s_start out
    ++ match silence_start l with Some s => [s] | None => [] end.
Proof.
  unfold silence_line.
  assert (E : List.map s_start
                (match silence_start l with
                 | Some s => out ++ [{| s_start := s; s_end := s |}]
                 | None => out
                 end)
              = List.map s_start out
                ++ match silence_start l with Some s => [s] | None => [] end).
  { destruct (silence_start l); [now rewrite map_app |].
    now rewrite app_nil_r. }
  destruct (silence_end l) as [e |]; [| exact E].
  destruct (match silence_start l with
            | Some s => out ++ [{| s_start := s; s_end := s |}]
            | None => out
            end) as [| s0 out1] eqn:Hout; [exact E |].
  now rewrite set_last_end_starts.
Qed.

Lemma fold_silence_starts lines : forall out,
  List.map s_start (fold_left silence_line lines out)
  = List.map s_start out ++ captures silence_start lines.
Proof.
  induction lines as [| l lines IH]; intro out; cbn [fold_left].
  - unfold captures. cbn. now rewrite app_nil_r.
  - rewrite IH, silence_line_starts, <- app_assoc. reflexivity.
Qed.

Lemma fold_silence_ends lines : forall out s,
  In s (fold_left silence_line lines out) ->
  In s out \/ s_end s = s_start s
  \/ exists l, In l lines /\ silence_end l = Some (s_end s).
Proof.
  induction lines as [| l lines IH]; intros out s Hs; cbn [fold_left] in Hs.
  - now left.
  - destruct (IH _ _ Hs) as [Hin | [He | (l' & Hl' & He)]].
    + unfold silence_line in Hin.
      assert (Hpush : forall x,
                In x (match silence_start l with
                      | Some s0 => out ++ [{| s_start := s0; s_end := s0 |}]
                      | None => out
                      end) -> In x out \/ s_end x = s_start x).
      { intros x Hx. destruct (silence_start l); [| now left].
        apply in_app_or in Hx as [Hx | [<- | []]]; [now left | now right]. }
      destruct (silence_end l) as [e |] eqn:Hend.
      * destruct (match silence_start l with
                  | Some s0 => out ++ [{| s_start := s0; s_end := s0 |}]
                  | None => out
                  end) as [| s0 out1] eqn:Hout; [destruct Hin |].
        apply in_set_last_end in Hin as [Hin | He].
        -- destruct (Hpush s Hin); tauto.
        -- right; right. exists l. split; [now left | congruence].
      * destruct (Hpush s Hin); tauto.
    + tauto.
    + right; right. exists l'. split; [now right | exact He].
Qed.

(** The intervals of a report follow the [silence_start] lines one for
    one, in order; an interval ends where it starts or at a captured
    [silence_end]; a [silence_end] with no interval before it is dropped. *)
Theorem silences_follow_starts body env r :
  payload (response body env) = ReportBody r ->
  List.map s_start (silences r) = captures silence_start (silencedetect env)
  /\ forall s, In s (silences r) ->
       s_end s = s_start s
       \/ exists l, In l (silencedetect env)
                    /\ silence_end l = Some (s_end s).
Proof.
  intro Hr. apply report_inv in Hr as (_ & _ & _ & _ & Hf).
  destruct Hf as (_ & _ & _ & _ & _ & _ & Hs & _). rewrite Hs.
  unfold detected_silences, parse_silences. split.
  - apply (fold_silence_starts (silencedetect env) []).
  - intros s Hin.
    destruct (fold_silence_ends _ _ _ Hin) as [[] | H]. exact H.
Qed.

Lemma silences_follow_starts_witness :
  exists r,
    payload (response no_form env_soft_cuts) = ReportBody r
    /\ List.map s_start (silences r) = [1; 4]
    /\ forall s, In s (silences r) ->
         s_end s = s_start s
         \/ exists l, In l (silencedetect env_soft_cuts)
                      /\ silence_end l = Some (s_end s).
Proof.
  eexists. split; [reflexivity |].
  exact (silences_follow_starts no_form env_soft_cuts _ eq_refl).
Defined.

Lemma inferredCuts_cons a b rest :
  inferredCuts (a :: b :: rest)
  = ((if eqb a 0 || eqb b 0 then 0
      else if geb (Math_abs (b - a) / Math_max a b) 0.15 then 1 else 0)
     + inferredCuts (b :: rest))%Z.
Proof. reflexivity. Qed.

Lemma inferredCuts_step a b rest :
  (0 <= inferredCuts (a :: b :: rest) - inferredCuts (b :: rest) <= 1)%Z.
Proof.
  rewrite inferredCuts_cons.
  destruct (eqb a 0 || eqb b 0);
    [| destruct (geb (Math_abs (b - a) / Math_max a b) 0.15)]; lia.
Qed.

Lemma inferredCuts_nonneg stats : (0 <= inferredCuts stats)%Z.
Proof.
  induction stats as [| a [| b rest] IH]; [cbn; lia | cbn; lia |].
  pose proof (inferredCuts_step a b rest). lia.
Qed.

(** The frame sampling counts at most one cut per pair of neighbouring
    frames, and none from fewer than two frames. *)
Theorem inferredCuts_bounds stats :
  (0 <= inferredCuts stats <= Z.of_nat (Nat.pred (List.length stats)))%Z.
Proof.
  induction stats as [| a [| b rest] IH]; [cbn; lia | cbn; lia |].
  pose proof (inferredCuts_step a b rest) as Hstep.
  cbn [List.length Nat.pred] in *. lia.
Qed.

(** Frames of one size, and frames of size 0, never make a cut. *)
Theorem inferredCuts_flat stats :
  (forall a b, In a stats -> In b stats -> a == b \/ a == 0 \/ b == 0) ->
  inferredCuts stats = 0%Z.
Proof.
  induction stats as [| a [| b rest] IH]; intro Hflat;
    [reflexivity | reflexivity |].
  rewrite inferredCuts_cons.
  rewrite IH by (intros x y Hx Hy; apply Hflat; now right).
  unfold eqb.
  destruct (Qeq_bool a 0) eqn:Ha; [reflexivity |].
  destruct (Qeq_bool b 0) eqn:Hb; [reflexivity |]. cbn [orb].
  destruct (Hflat a b) as [E | [E | E]];
    [now left | right; now left | | |].
  - assert (Hz : Math_abs (b - a) / Math_max a b == 0).
    { unfold Math_abs. rewrite E.
      setoid_replace (b - b) with 0 by ring. reflexivity. }
    unfold geb. destruct (Qle_bool 0.15 _) eqn:Hge; [| reflexivity].
    apply Qle_bool_iff in Hge. rewrite Hz in Hge. lra.
  - apply Qeq_bool_iff in E. congruence.
  - apply Qeq_bool_iff in E. congruence.
Qed.

Lemma inferredCuts_flat_witness :
  (forall a b, In a [900; 0; 900; 900] -> In b [900; 0; 900; 900] ->
               a == b \/ a == 0 \/ b == 0)
  /\ inferredCuts [900; 0; 900; 900] = 0%Z.
Proof.
  assert (H : forall a b, In a [900; 0; 900; 900] ->
                          In b [900; 0; 900; 900] ->
                          a == b \/ a == 0 \/ b == 0).
  { intros a b Ha Hb. cbn in Ha, Hb.
    repeat match goal with
           | H : _ \/ _ |- _ => destruct H
           | H : False |- _ => destruct H
           end; subst; (now left) || (right; now left) || (right; now right). }
  split; [exact H | exact (inferredCuts_flat [900; 0; 900; 900] H)].
Defined.

(* ------------------------------------------------------------------ *)
(** ** The remaining fields of a report *)
(* ------------------------------------------------------------------ *)

Section ExactStages.
Variable env : Env.

Lemma frame_fallback_exact c ts w :
  wp (frame_fallback env c ts) w
     (fun x _ => x = frame_result env c ts) never silent.
Proof.
  unfold wp, frame_fallback, frame_result, bind, ran, ret, try_catch, throw.
  destruct (c =? 0)%Z; simpl; [| reflexivity].
  destruct (cut_samples env) as [stats |]; simpl; [| reflexivity].
  destruct (0 <? inferredCuts stats)%Z; reflexivity.
Qed.

Lemma transcribe_exact w :
  wp (transcribe env) w
     (fun x _ => x = (transcript_of env, segments_of env)) never silent.
Proof.
  unfold wp, transcribe, transcript_of, segments_of, bind, ran, ret,
    try_catch, throw.
  destruct (openai env) as [ai |]; simpl; [| reflexivity].
  destruct (transcriptions_create ai) as [| [t |] segs]; reflexivity.
Qed.

Lemma measure_loudness_exact w :
  wp (measure_loudness env) w
     (fun x _ => x = {| meanDb := last_capture mean_volume (volumedetect env);
                        maxDb := last_capture max_volume (volumedetect env) |})
     never silent.
Proof. reflexivity. Qed.

Lemma measure_first_second_exact w :
  wp (measure_first_second env) w
     (fun x _ => x = firstSecondStats_of (signalstats env)
                                         (signalstats_end env))
     never silent.
Proof. reflexivity. Qed.

Lemma suggest_exact ai p w :
  wp (suggest ai p) w
     (fun s _ => s = suggestions_from (suggestions_create ai p))
     never
     (fun r _ => r = error 502 "llm_failed").
Proof.
  unfold wp, suggest, suggestions_from, bind, ran, ret, try_catch, throw,
    respond.
  simpl. destruct (suggestions_create ai p) as [| [items |]]; reflexivity.
Qed.

Lemma criticize_exact ai p w :
  wp (criticize ai p) w
     (fun c _ => c = critique_from (critique_create ai p)) never silent.
Proof.
  unfold wp, criticize, critique_from, bind, ran, ret, try_catch, throw.
  simpl. destruct (critique_create ai p) as [| [c |]]; reflexivity.
Qed.

Lemma silence_fallback_exact w :
  wp (silence_fallback (visual_cuts env) (detected_silences env)) w
     (fun c _ => c = cuts_after_silence env) never silent.
Proof.
  eapply wp_mono; [apply silence_fallback_spec | | auto | auto].
  cbn beta. intros c w' H. unfold cuts_after_silence.
  destruct H as [(Hv & _ & -> & _) | (Hor & -> & _)].
  - now rewrite Hv.
  - destruct (visual_cuts env) as [| t ts] eqn:Hv; [| reflexivity].
    destruct Hor as [Hne | Hlen]; [now elim Hne |].
    pose proof (gaps_le_length (detected_silences env)).
    cbn [List.length]. lia.
Qed.
End ExactStages.

(** A stage whose outcome does not matter here. *)
Ltac pass spec :=
  eapply wp_seq;
  [apply spec | intros ? _ ? ?; discriminate | intros ? ? [] | cbn beta].

Lemma report_more body env r :
  payload (response body env) = ReportBody r -> more_facts env r.
Proof.
  revert r.
  apply (wp_analyze body env
           (fun resp _ => forall r, payload resp = ReportBody r ->
                                    more_facts env r)).
  unfold analyze_try. apply wp_bind.
  destruct (req_file env) as [file |].
  2:{ apply wp_respond. intros r Hr. discriminate. }
  apply wp_ret. cbv zeta.
  pass mkdtemp_spec. intros _ w1 _.
  pass write_upload_spec. intros _ w2 _.
  pass probe_duration_spec. intros dur w3 _.
  stage visual_passes_spec. intros ts w4 (-> & _).
  stage detect_silences_spec. intros ss w5 (-> & _).
  stage extract_hook_spec. intros hook w6 _.
  pass cleanup_spec. intros _ w7 _.
  stage silence_fallback_exact. intros c1 w8 ->.
  stage frame_fallback_exact. intros [c2 ts2] w9 Hframe.
  stage transcribe_exact. intros [tr segs] w10 Htr.
  injection Htr as -> ->.
  stage measure_loudness_exact. intros loud w11 ->.
  stage measure_first_second_exact. intros fss w12 ->.
  apply wp_bind. destruct (openai env) as [ai |] eqn:Hai.
  2:{ apply wp_respond. intros r Hr. discriminate. }
  apply wp_ret.
  eapply wp_seq; [apply suggest_exact | intros ? [] | | cbn beta].
  { intros resp w' -> r Hr. discriminate. }
  intros sug w13 ->.
  stage criticize_exact. intros crit w14 ->.
  apply wp_respond. intros r Hr. cbn in Hr. injection Hr as <-.
  unfold more_facts, final_cuts; cbn [cuts transcript first2sText loudness
    firstSecond suggestions critique].
  rewrite <- Hframe. cbn [fst].
  repeat match goal with |- _ /\ _ => split end; eauto.
Qed.

(* ------------------------------------------------------------------ *)
(** ** The answers of the handler and the files it leaves *)
(* ------------------------------------------------------------------ *)

Lemma measurableb_spec env : measurableb env = true <-> measurable env.
Proof.
  unfold measurableb, measurable. rewrite !andb_true_iff. split.
  - intros [[[Hfile Hmk] Hprobe] Hrm].
    destruct (req_file env) as [file |]; [| discriminate].
    destruct (ffprobe env) as [| d]; [discriminate |].
    repeat split; eauto. exists file. split; [reflexivity |].
    intros Hp Hb. rewrite Hp, Hb in Hfile. exact Hfile.
  - intros ((file & -> & Hw) & Hmk & (d & ->) & Hrm).
    repeat split; auto.
    destruct (file_path file), (file_buffer file); cbn; auto.
Qed.

Lemma measurable_has_file env : measurable env -> req_file env <> None.
Proof. intros ((f & Hf & _) & _). congruence. Qed.

Lemma no_file_answer body env :
  req_file env = None -> response body env = error 400 "missing_file".
Proof.
  intro Hnone.
  unfold response, analyze, try_catch, analyze_try, bind.
  now rewrite Hnone.
Qed.

Ltac status_goal :=
  try discriminate; try tauto; try congruence;
  try (match goal with
       | H : _ \/ _ |- _ => destruct H; discriminate
       end);
  try (match goal with
       | H : measurable _ /\ _ |- _ =>
           let Hm := fresh in
           destruct H as [Hm _]; apply measurable_has_file in Hm;
           congruence
       end);
  try (match goal with
       | H : exists r, _ |- _ =>
           let Hr := fresh in destruct H as (? & Hr); discriminate Hr
       end);
  try (match goal with
       | H : _ /\ _ |- _ => destruct H; congruence
       end);
  try (split; [assumption | congruence]).

(** The status of the answer tells how far the request got: 400 without a
    file; 500 when the working directory, the upload copy, the probe or
    the removal failed; 503 after the measurements when no client is
    configured; 502 or 200 after them when one is, and 200 exactly when a
    report is sent. *)
Theorem status_of_answer body env :
  let s := status (response body env) in
  (s = 400%nat <-> req_file env = None)
  /\ (s = 500%nat <-> req_file env <> None /\ ~ measurable env)
  /\ (s = 503%nat <-> measurable env /\ openai env = None)
  /\ (s = 502%nat \/ s = 200%nat <-> measurable env /\ openai env <> None)
  /\ (s = 200%nat <-> exists r, payload (response body env) = ReportBody r).
Proof.
  pose proof (analyze_cases body env) as H. cbv zeta.
  assert (Hfile : status (response body env) <> 400%nat ->
                  req_file env <> None).
  { intros Hs Hnone. rewrite (no_file_answer body env Hnone) in Hs.
    now apply Hs. }
  destruct H as [(E & Hf & _) | [(E & Hn) | [H | [H | H]]]].
  - rewrite E in *. cbn.
    (split; [| split; [| split; [| split]]]); split; intros; status_goal.
  - rewrite E in *. cbn in *.
    assert (req_file env <> None) by (apply Hfile; discriminate).
    (split; [| split; [| split; [| split]]]); split; intros; status_goal.
  - destruct H as (E & Hm & Hno & _). rewrite E in *. cbn.
    pose proof (measurable_has_file env Hm).
    (split; [| split; [| split; [| split]]]); split; intros; status_goal.
  - destruct H as (E & Hm & (ai & p & Hai & _) & _). rewrite E in *. cbn.
    pose proof (measurable_has_file env Hm).
    (split; [| split; [| split; [| split]]]); split; intros; status_goal.
  - destruct H as (Hs & Hm & (ai & Hai) & _ & r & Hr & _). rewrite Hs.
    pose proof (measurable_has_file env Hm).
    (split; [| split; [| split; [| split]]]); split; intros;
      status_goal; eauto.
Qed.

(** Every answer has a JSON object as its body; when it is not a report
    the body is [{ error: code }] with the code of its status. *)
Theorem error_bodies body env :
  exists members,
    res_json (response body env) = Some (JObj members)
    /\ (status (response body env) <> 200%nat ->
        exists code,
          members = [ ("error"%string, JStr (lit code)) ]
          /\ ((status (response body env) = 400%nat
               /\ code = "missing_file"%string)
              \/ (status (response body env) = 500%nat
                  /\ code = "analysis_failed"%string)
              \/ (status (response body env) = 503%nat
                  /\ code = "llm_unavailable"%string)
              \/ (status (response body env) = 502%nat
                  /\ code = "llm_failed"%string))).
Proof.
  pose proof (analyze_cases body env) as H.
  destruct H as [(E & _) | [(E & _) | [(E & _) | [(E & _) | H]]]];
    try (rewrite E; eexists; split; [reflexivity |]; intros _;
         eexists; split; [reflexivity |]; cbn; tauto).
  destruct H as (Hs & _ & _ & _ & r & Hr & _).
  exists (report_members r). split; [now apply res_json_report |].
  intro Hne. contradiction.
Qed.

Lemma error_bodies_witness :
  exists members,
    res_json (response no_form env_undecodable) = Some (JObj members)
    /\ status (response no_form env_undecodable) <> 200%nat
    /\ exists code,
         members = [ ("error"%string, JStr (lit code)) ]
         /\ ((status (response no_form env_undecodable) = 400%nat
              /\ code = "missing_file"%string)
             \/ (status (response no_form env_undecodable) = 500%nat
                 /\ code = "analysis_failed"%string)
             \/ (status (response no_form env_undecodable) = 503%nat
                 /\ code = "llm_unavailable"%string)
             \/ (status (response no_form env_undecodable) = 502%nat
                 /\ code = "llm_failed"%string)).
Proof.
  destruct (error_bodies no_form env_undecodable) as (members & Hj & Herr).
  exists members. split; [exact Hj |].
  assert (Hne : status (response no_form env_undecodable) <> 200%nat)
    by (vm_compute; discriminate).
  split; [exact Hne | exact (Herr Hne)].
Defined.

Lemma files_quiet env w w' :
  quiet_step w w' -> files_as_expected env w -> files_as_expected env w'.
Proof.
  intros Hq [H1 H2]. apply quiet_step_keeps in Hq as (E1 & E2 & _).
  split; congruence.
Qed.

Lemma files_logged env l w :
  files_as_expected env w -> files_as_expected env (logged l w).
Proof. intros [H1 H2]. split; assumption. Qed.

(** The working directory stays on disk exactly when it was made and the
    request then failed before or in its removal; the upload stays exactly
    when multer had stored it and it was not unlinked, be it that the
    request never got there or that [unlink] failed. *)
Theorem files_left_behind body env :
  workDir_exists (final_world body env) = workDir_left env
  /\ upload_exists (final_world body env) = upload_left env.
Proof.
  apply (wp_analyze body env (fun _ w => files_as_expected env w)).
  unfold analyze_try. apply wp_bind.
  destruct (req_file env) as [file |] eqn:Hfile.
  2:{ apply wp_respond. unfold files_as_expected, workDir_left, upload_left.
      rewrite Hfile. cbn. rewrite Hfile. split; reflexivity. }
  apply wp_ret. cbv zeta.
  assert (Hinit : upload_exists (initial_world env) = file_path file)
    by (cbn; now rewrite Hfile).
  eapply wp_seq; [apply mkdtemp_spec | | intros ? ? [] | cbn beta].
  { intros w' [Hmk ->].
    unfold files_as_expected, workDir_left, upload_left, measurableb.
    rewrite Hfile, Hmk, Hinit. cbn.
    rewrite !andb_false_r, andb_true_r. split; reflexivity. }
  intros _ w1 (Hmk & Hwd1 & Hup1 & _). rewrite Hinit in Hup1.
  eapply wp_seq; [apply write_upload_spec | | intros ? ? [] | cbn beta].
  { intros w' (-> & Hp & Hb & Hw).
    unfold files_as_expected, workDir_left, upload_left, measurableb.
    rewrite Hfile, Hmk, Hwd1, Hup1, Hp, Hb, Hw. split; reflexivity. }
  intros _ w2 (-> & Hwrite).
  assert (Hwb : file_path file || negb (file_buffer file) || writeFile_ok env
                = true).
  { destruct (file_path file), (file_buffer file); cbn; auto. }
  eapply wp_seq; [apply probe_duration_spec | | intros ? ? [] | cbn beta].
  { intros w' (-> & Hp).
    unfold files_as_expected, workDir_left, upload_left, measurableb.
    rewrite Hfile, Hmk, Hwd1, Hup1, Hp. cbn.
    rewrite !andb_false_r, andb_true_r. split; reflexivity. }
  intros dur w2 (-> & x & Hprobe & _).
  stage visual_passes_spec. intros ts w3 (_ & ->).
  stage detect_silences_spec. intros ss w4 (_ & ->).
  stage extract_hook_spec. intros hook w5 (_ & Hq5).
  apply quiet_step_keeps in Hq5 as (Hwd5 & Hup5 & _).
  cbn [logged workDir_exists upload_exists] in Hwd5, Hup5.
  eapply wp_seq; [apply cleanup_spec | | intros ? ? [] | cbn beta].
  { intros w' (Hrm & ->).
    unfold files_as_expected, workDir_left, upload_left, measurableb.
    rewrite Hfile, Hmk, Hwd5, Hup5, Hwd1, Hup1, Hrm. cbn.
    rewrite !andb_false_r, andb_true_r. split; reflexivity. }
  intros _ w6 (Hrm & Hwd6 & _ & Hup6).
  assert (Hinv : files_as_expected env w6).
  { unfold files_as_expected, workDir_left, upload_left, measurableb.
    rewrite Hfile, Hmk, Hwb, Hprobe, Hrm, Hwd6, Hup6, Hup5, Hup1. cbn.
    destruct (file_path file), (unlink_ok env); auto. }
  stage silence_fallback_spec. intros c1 w7 Hfall.
  assert (Hinv7 : files_as_expected env w7).
  { destruct Hfall as [(_ & _ & _ & ->) | (_ & _ & ->)];
      [now apply files_logged | exact Hinv]. }
  stage frame_fallback_spec. intros cs w8 Hframe.
  assert (Hinv8 : files_as_expected env w8).
  { destruct Hframe as [(_ & _ & ->) | (_ & -> & _)];
      [exact Hinv7 | now apply files_logged]. }
  destruct cs as [c2 ts2].
  stage transcribe_spec. intros [tr segs] w9 (_ & Hq9).
  stage measure_loudness_spec. intros loud w10 Hq10.
  stage measure_first_second_spec. intros fss w11 Hq11.
  assert (Hinv11 : files_as_expected env w11).
  { eapply files_quiet; [exact Hq11 |].
    eapply files_quiet; [exact Hq10 |].
    eapply files_quiet; [exact Hq9 | exact Hinv8]. }
  apply wp_bind. destruct (openai env) as [ai |].
  2:{ apply wp_respond. exact Hinv11. }
  apply wp_ret.
  eapply wp_seq; [apply suggest_spec | intros ? [] | | cbn beta].
  { intros r w' (_ & _ & Hq). eapply files_quiet; eauto. }
  intros sug w12 (_ & Hq12).
  stage criticize_spec. intros crit w13 Hq13.
  apply wp_respond.
  eapply files_quiet; [exact Hq13 |].
  eapply files_quiet; [exact Hq12 | exact Hinv11].
Qed.

(* ------------------------------------------------------------------ *)
(** ** The cut count, the duration and the average *)
(* ------------------------------------------------------------------ *)

(** A report says 0 cuts exactly when all four stages found nothing: no
    timestamp in either visual pass, at most one silence interval of
    0.25 s or more, and no cut inferred from the sampled frames (or no
    frames read). *)
Theorem no_cuts_reported body env r :
  payload (response body env) = ReportBody r ->
  (0 <= cuts r)%Z
  /\ (cuts r = 0%Z
      <-> strict_cuts env = [] /\ loose_cuts env = []
          /\ (gaps (detected_silences env) <= 1)%Z
          /\ match cut_samples env with
             | Some stats => inferredCuts stats = 0%Z
             | None => True
             end).
Proof.
  intro Hr. apply report_more in Hr as (Hc & _). rewrite Hc.
  unfold final_cuts, frame_result, cuts_after_silence.
  pose proof (visual_cuts_empty env) as Hv.
  pose proof (gaps_nonneg (detected_silences env)) as Hg.
  destruct (visual_cuts env) as [| t ts].
  - destruct (proj1 Hv eq_refl) as [Hs Hl].
    destruct (Z.eqb_spec (Z.max 0 (gaps (detected_silences env) - 1)) 0)
      as [E | E].
    + destruct (cut_samples env) as [stats |].
      * pose proof (inferredCuts_nonneg stats) as Hb.
        destruct (Z.ltb_spec 0 (inferredCuts stats)); cbn [fst].
        -- split; [lia |]. split; [lia |]. intros (_ & _ & _ & H0). lia.
        -- rewrite E. split; [lia |]. split; [| reflexivity].
           intros _. repeat split; try assumption; lia.
      * cbn [fst]. rewrite E. split; [lia |]. split; [| reflexivity].
        intros _. repeat split; try assumption; lia.
    + cbn [fst]. split; [lia |]. split; [lia |]. intros (_ & _ & H & _). lia.
  - cbn [fst List.length]. rewrite Nat2Z.inj_succ.
    destruct (Z.eqb_spec (Z.succ (Z.of_nat (List.length ts))) 0); [lia |].
    cbn [fst]. split; [lia |]. split; [lia |].
    intros (H1 & H2 & _). discriminate (proj2 Hv (conj H1 H2)).
Qed.

Lemma no_cuts_reported_witness :
  exists r,
    payload (response no_form env_absent) = ReportBody r
    /\ (0 <= cuts r)%Z
    /\ cuts r = 0%Z.
Proof.
  eexists. split; [reflexivity |].
  destruct (no_cuts_reported no_form env_absent _ eq_refl) as (H0 & Hz).
  split; [exact H0 |]. apply Hz.
  repeat split; try reflexivity. vm_compute. discriminate.
Defined.

Lemma Qfloor_below z n : z < inject_Z (n + 1) -> (Qfloor z <= n)%Z.
Proof.
  intro H. pose proof (Qfloor_le z) as Hle.
  assert (Hlt : inject_Z (Qfloor z) < inject_Z (n + 1)) by lra.
  rewrite <- Zlt_Qlt in Hlt. lia.
Qed.

Lemma Math_round_nonneg x : 0 <= x -> 0 <= Math_round x.
Proof.
  intro Hx. unfold Math_round. change 0 with (inject_Z 0).
  rewrite <- Zle_Qle. apply (Qfloor_resp_le 0). lra.
Qed.

(** The average of [cuts] cuts over a whole number [k] of seconds lies
    between 0 and [k]. *)
Lemma avgCutSec_of_bounds k c :
  (0 <= k)%Z ->
  0 <= avgCutSec_of (inject_Z k) c /\ avgCutSec_of (inject_Z k) c <= inject_Z k.
Proof.
  intro Hk. unfold avgCutSec_of.
  assert (HD : 0 <= inject_Z k).
  { change 0 with (inject_Z 0). now rewrite <- Zle_Qle. }
  destruct (Z.ltb_spec 1 c) as [Hc | Hc]; [| split; lra].
  assert (HC : 2 <= inject_Z c).
  { change 2 with (inject_Z 2). rewrite <- Zle_Qle. lia. }
  assert (Hdiv : 0 <= inject_Z k / inject_Z c
                 /\ inject_Z k / inject_Z c <= inject_Z k * (1 # 2)).
  { split.
    - apply Qle_shift_div_l; lra.
    - apply Qle_shift_div_r; [lra |]. nra. }
  destruct Hdiv as [Hd0 Hd1].
  unfold Qdiv at 1 3. change (/ 10) with (1 # 10).
  split.
  - pose proof (Math_round_nonneg (inject_Z k / inject_Z c * 10)) as H.
    lra.
  - assert (Hr : Math_round (inject_Z k / inject_Z c * 10)
                 <= inject_Z (10 * k)).
    { unfold Math_round. rewrite <- Zle_Qle. apply Qfloor_below.
      rewrite inject_Z_plus, inject_Z_mult.
      change (inject_Z 10) with 10. change (inject_Z 1) with 1. lra. }
    rewrite inject_Z_mult in Hr. change (inject_Z 10) with 10 in Hr. lra.
Qed.

(** When the duration the probe reports is a number that is not negative,
    or is missing, the duration of a report is a whole number of seconds,
    not negative, and the average cut length lies between 0 and the
    duration.  (A duration that is no number is outside the model.) *)
Theorem duration_and_average body env r :
  payload (response body env) = ReportBody r ->
  (forall d, ffprobe env = ProbeData (Some d) -> 0 <= d) ->
  (exists k : Z, (0 <= k)%Z /\ durationSec r = inject_Z k)
  /\ 0 <= avgCutSec r /\ avgCutSec r <= durationSec r.
Proof.
  intros Hr Hd. apply report_inv in Hr as (_ & _ & _ & _ & Hf).
  destruct Hf as ((x & Hx & Hdur) & _ & Havg & _).
  assert (Hk : exists k : Z, (0 <= k)%Z /\ durationSec r = inject_Z k).
  { rewrite Hdur. unfold Math_round. eexists. split; [| reflexivity].
    apply (Qfloor_resp_le 0).
    destruct x as [d |]; [specialize (Hd d Hx) |]; lra. }
  split; [exact Hk |].
  destruct Hk as (k & Hk & E). rewrite Havg, E.
  now apply avgCutSec_of_bounds.
Qed.

Lemma duration_and_average_witness :
  exists r,
    payload (response no_form env_vlog) = ReportBody r
    /\ (forall d, ffprobe env_vlog = ProbeData (Some d) -> 0 <= d)
    /\ (exists k : Z, (0 <= k)%Z /\ durationSec r = inject_Z k)
    /\ 0 <= avgCutSec r /\ avgCutSec r <= durationSec r.
Proof.
  eexists. split; [reflexivity |].
  assert (Hd : forall d, ffprobe env_vlog = ProbeData (Some d) -> 0 <= d).
  { intros d E. cbn in E. injection E as <-.
    apply Qle_bool_iff. reflexivity. }
  split; [exact Hd |].
  exact (duration_and_average no_form env_vlog _ eq_refl Hd).
Defined.

(* ------------------------------------------------------------------ *)
(** ** Trimming, normalising, counting words and splitting *)
(* ------------------------------------------------------------------ *)

Lemma dropWhile_nonspace_head p c r :
  p c = false -> dropWhile p (c :: r) = c :: r.
Proof. intro H. cbn. now rewrite H. Qed.

Lemma dropWhile_nil p s : dropWhile p s = [] <-> forallb p s = true.
Proof.
  induction s as [| c s IH]; cbn; [tauto |].
  destruct (p c); cbn; [exact IH |]. split; discriminate.
Qed.

(** [trim] leaves nothing exactly of a string of white space. *)
Lemma trim_nil s : trim s = [] <-> forallb is_space s = true.
Proof.
  rewrite <- dropWhile_nil. unfold trim.
  destruct (dropWhile is_space s) as [| c0 u] eqn:Hu; [tauto |].
  apply dropWhile_head in Hu. cbn [rev].
  rewrite (dropWhile_keeps_last _ _ _ Hu), rev_app_distr. cbn.
  split; discriminate.
Qed.

Lemma trim_shape s :
  trim s = []
  \/ exists c v, trim s = rev (c :: v) /\ is_space c = false.
Proof.
  unfold trim.
  destruct (dropWhile is_space (rev (dropWhile is_space s))) as [| c v] eqn:Hv;
    [now left |].
  right. exists c, v. split; [reflexivity |].
  exact (dropWhile_head _ _ _ _ Hv).
Qed.

(** A trimmed string is its own trim. *)
Lemma trim_idempotent s : trim (trim s) = trim s.
Proof.
  destruct (trim_shape s) as [E | (c & v & E & Hc)]; [now rewrite E |].
  destruct (trim s) as [| c' r'] eqn:Ht.
  - reflexivity.
  - pose proof (trim_head _ _ _ Ht) as Hc'.
    unfold trim. rewrite (dropWhile_nonspace_head _ _ _ Hc'), E.
    rewrite rev_involutive, (dropWhile_nonspace_head _ _ _ Hc). reflexivity.
Qed.

Lemma replace_ws_fixed b s :
  single_spaced b s = true -> replace_ws b s = s.
Proof.
  revert b. induction s as [| c s IH]; intros b H; [reflexivity |].
  cbn [single_spaced replace_ws] in *. destruct (is_space c).
  - apply andb_true_iff in H as [H Hs]. apply andb_true_iff in H as [Hc Hb].
    apply N.eqb_eq in Hc. subst c. destruct b; [discriminate |].
    now rewrite (IH true Hs).
  - now rewrite (IH false H).
Qed.

(** Normalising a hook text a second time changes nothing. *)
Lemma normalize_hook_idempotent t :
  normalize_hook (normalize_hook t) = normalize_hook t.
Proof.
  unfold normalize_hook at 1.
  rewrite (replace_ws_fixed false _ (normalize_hook_single_spaced t)).
  unfold normalize_hook, slice0. rewrite firstn_firstn. reflexivity.
Qed.

Lemma hook_of_cases env :
  hook_of env = []
  \/ exists t, ocr_text t <> [] /\ hook_of env = normalize_hook (ocr_text t).
Proof.
  unfold hook_of. generalize (List.map (recognize env) frame_times).
  intro answers. induction answers as [| [| t] rest IH]; cbn.
  - now left.
  - now left.
  - destruct (truthy (ocr_text t)) eqn:Ht; [| exact IH].
    right. exists t. split; [| reflexivity].
    intro E. rewrite E in Ht. discriminate.
Qed.

(** The texts of a report are clean: the hook text is a fixed point of
    the normalisation and does not begin with white space (truncation at
    80 may leave a space at its end); the text of the first two seconds
    has no white space at either end. *)
Theorem report_texts_clean body env r :
  payload (response body env) = ReportBody r ->
  normalize_hook (hookText r) = hookText r
  /\ (forall c rest, hookText r = c :: rest -> is_space c = false)
  /\ trimmed (first2sText r).
Proof.
  intro Hr. pose proof (report_more body env r Hr) as (_ & _ & H2 & _).
  apply report_inv in Hr as (_ & _ & _ & _ & Hf).
  destruct Hf as (_ & _ & _ & _ & Hh & _). rewrite Hh, H2.
  split; [| split].
  - destruct (hook_of_cases env) as [-> | (t & _ & ->)];
      [reflexivity | apply normalize_hook_idempotent].
  - intros c rest E.
    destruct (hook_of_cases env) as [E0 | (t & Ht & E1)];
      [rewrite E0 in E; discriminate |].
    rewrite E1 in E. unfold ocr_text in *.
    destruct (trim match t with Some s => s | None => [] end)
      as [| c0 u] eqn:Hu; [now elim Ht |].
    apply trim_head in Hu. unfold normalize_hook, slice0 in E.
    cbn in E. rewrite Hu in E. cbn in E. injection E as <- _. exact Hu.
  - unfold trimmed.
    destruct (segments_of env) as [[| s l] |]; try reflexivity.
    unfold first2sText_of. apply trim_idempotent.
Qed.

Lemma report_texts_clean_witness :
  exists r,
    payload (response no_form env_vlog) = ReportBody r
    /\ hookText r = lit "STOP doing this"
    /\ normalize_hook (hookText r) = hookText r
    /\ is_space 83 = false
    /\ trimmed (first2sText r).
Proof.
  eexists. split; [reflexivity |].
  destruct (report_texts_clean no_form env_vlog _ eq_refl) as (H1 & H2 & H3).
  split; [reflexivity |]. split; [exact H1 |].
  split; [exact (H2 83%N _ eq_refl) | exact H3].
Defined.

Lemma in_firstn {X} n (l : list X) x : In x (firstn n l) -> In x l.
Proof.
  revert l. induction n as [| n IH]; intros [| y l]; cbn; try tauto.
  intros [-> | H]; [now left | right; now apply IH].
Qed.

Lemma suggestions_of_capped items :
  (List.length (suggestions_of items) <= 5)%nat
  /\ Forall (fun s => s <> []) (suggestions_of items).
Proof.
  unfold suggestions_of. split.
  - eapply Nat.le_trans; [apply filter_length_le |].
    rewrite length_map. apply firstn_le_length.
  - apply Forall_forall. intros s Hs. apply filter_In in Hs as [_ Hs].
    intro E. rewrite E in Hs. discriminate.
Qed.

Lemma critique_of_capped content :
  (List.length (critique_of content) <= 5)%nat
  /\ Forall (fun s => s <> [] /\ trimmed s) (critique_of content).
Proof.
  unfold critique_of. split; [apply firstn_le_length |].
  apply Forall_forall. intros s Hs. apply in_firstn in Hs.
  apply filter_In in Hs as [Hin Hs]. split.
  - intro E. rewrite E in Hs. discriminate.
  - apply in_map_iff in Hin as (x & <- & _). apply trim_idempotent.
Qed.

(** The advice of a report is capped: at most five suggestions, none
    empty; when there is a critique, at most five lines, none empty and
    each trimmed. *)
Theorem advice_is_capped body env r :
  payload (response body env) = ReportBody r ->
  (List.length (suggestions r) <= 5)%nat
  /\ Forall (fun s => s <> []) (suggestions r)
  /\ forall c, critique r = Some c ->
       (List.length c <= 5)%nat
       /\ Forall (fun s => s <> [] /\ trimmed s) c.
Proof.
  intro Hr. apply report_more in Hr as (_ & _ & _ & _ & _ & Hs & Hc).
  destruct Hs as (ai & p & _ & ->). destruct Hc as (ai' & p' & _ & Hc).
  split; [| split].
  - unfold suggestions_from.
    destruct (suggestions_create ai p) as [| [items |]]; cbn; try lia.
    apply suggestions_of_capped.
  - unfold suggestions_from.
    destruct (suggestions_create ai p) as [| [items |]]; try constructor.
    apply suggestions_of_capped.
  - intros c E. rewrite Hc in E. unfold critique_from in E.
    destruct (critique_create ai' p') as [| [content |]]; try discriminate.
    injection E as <-. apply critique_of_capped.
Qed.

Lemma advice_is_capped_witness :
  exists r,
    payload (response no_form env_absent) = ReportBody r
    /\ critique r = Some [ lit "Tighten the intro" ]
    /\ (List.length (suggestions r) <= 5)%nat
    /\ (List.length [ lit "Tighten the intro" ] <= 5)%nat.
Proof.
  eexists. split; [reflexivity |].
  destruct (advice_is_capped no_form env_absent _ eq_refl) as (H1 & _ & H3).
  split; [reflexivity |]. split; [exact H1 |].
  exact (proj1 (H3 _ eq_refl)).
Defined.

Lemma split_ws_first_piece s : forall cur,
  cur <> [] ->
  exists p rest, split_ws cur false s = p :: rest /\ p <> [].
Proof.
  induction s as [| c s IH]; intros cur Hcur; cbn [split_ws].
  - exists (rev cur), []. split; [reflexivity |].
    intro E. apply (f_equal (@List.length N)) in E.
    rewrite length_rev in E. destruct cur; [now elim Hcur | discriminate].
  - destruct (is_space c).
    + exists (rev cur), (split_ws [] true s). split; [reflexivity |].
      intro E. apply (f_equal (@List.length N)) in E.
      rewrite length_rev in E. destruct cur; [now elim Hcur | discriminate].
    + apply IH. discriminate.
Qed.

(** The word count is 0 exactly for a transcript that is absent, empty or
    all white space. *)
Theorem wordsTotal_zero transcript :
  wordsTotal_of transcript = 0%Z
  <-> forallb is_space (match transcript with Some t => t | None => [] end)
      = true.
Proof.
  rewrite <- trim_nil. unfold wordsTotal_of.
  destruct (trim match transcript with Some t => t | None => [] end)
    as [| c r] eqn:Ht.
  - cbn. tauto.
  - pose proof (trim_head _ _ _ Ht) as Hc. cbn [split_ws]. rewrite Hc.
    destruct (split_ws_first_piece r [c]) as (p & rest & -> & Hp);
      [discriminate |].
    cbn [filter]. destruct p as [| x p]; [now elim Hp |]. cbn.
    split; [lia |]. intro E.
    assert (E' : c :: r = []) by (rewrite <- Ht; exact E).
    discriminate E'.
Qed.

Lemma split_by_piece sep p : forall cur rest,
  (forall c, In c p -> sep c = false) ->
  split_by sep cur (p ++ rest) = split_by sep (rev p ++ cur) rest.
Proof.
  induction p as [| c p IH]; intros cur rest Hp; [reflexivity |].
  cbn [app split_by]. rewrite (Hp c) by now left.
  rewrite IH by (intros x Hx; apply Hp; now right).
  cbn [rev]. now rewrite <- app_assoc.
Qed.

Lemma split_by_join sep c parts :
  sep c = true ->
  parts <> [] ->
  Forall (fun p => forall x, In x p -> sep x = false) parts ->
  split_by sep [] (join [c] parts) = parts.
Proof.
  intros Hc Hne Hall. induction Hall as [| p parts Hp Hall IH];
    [now elim Hne |].
  destruct parts as [| q parts].
  - cbn [join]. rewrite <- (app_nil_r p) at 1.
    rewrite split_by_piece by exact Hp. cbn.
    now rewrite app_nil_r, rev_involutive.
  - change (join [c] (p :: q :: parts))
      with (p ++ [c] ++ join [c] (q :: parts)).
    rewrite split_by_piece by exact Hp. cbn [app split_by]. rewrite Hc.
    rewrite app_nil_r, rev_involutive. f_equal. apply IH. discriminate.
Qed.

Lemma split_by_no_sep sep s : forall cur,
  (forall x, In x cur -> sep x = false) ->
  Forall (fun p => forall x, In x p -> sep x = false) (split_by sep cur s).
Proof.
  induction s as [| c s IH]; intros cur Hcur; cbn [split_by].
  - constructor; [| constructor]. intros x Hx. apply Hcur.
    now apply in_rev.
  - destruct (sep c) eqn:Hc.
    + constructor.
      * intros x Hx. apply Hcur. now apply in_rev.
      * apply IH. intros x [].
    + apply IH. intros x [<- | Hx]; [exact Hc | now apply Hcur].
Qed.

(** The entries of a comma-separated form field are never empty and hold
    no comma; a field made by joining such entries with commas is split
    back into them. *)
Theorem csv_entries x :
  Forall (fun p => p <> [] /\ ~ In comma p) (csv x)
  /\ forall parts,
       Forall (fun p => p <> [] /\ ~ In comma p) parts ->
       csv (Some (join [comma] parts)) = parts.
Proof.
  split.
  - unfold csv. apply Forall_forall. intros p Hp.
    apply filter_In in Hp as [Hin Hp]. split.
    + intro E. rewrite E in Hp. discriminate.
    + pose proof (split_by_no_sep (N.eqb comma) (field x []) []) as Hall.
      rewrite Forall_forall in Hall.
      intro Hc. specialize (Hall (fun _ H => match H with end) p Hin _ Hc).
      now rewrite N.eqb_refl in Hall.
  - intros parts Hall. unfold csv, field, or_else.
    destruct parts as [| p parts]; [reflexivity |].
    assert (Hj : split_by (N.eqb comma) [] (join [comma] (p :: parts))
                 = p :: parts).
    { apply split_by_join; [apply N.eqb_refl | discriminate |].
      eapply Forall_impl; [| exact Hall]. intros q [_ Hq] c Hc.
      apply N.eqb_neq. intros <-. contradiction. }
    assert (Hf : filter truthy (p :: parts) = p :: parts).
    { apply forallb_filter_id. apply forallb_forall. intros q Hq.
      rewrite Forall_forall in Hall. destruct (Hall q Hq) as [Hne _].
      destruct q; [now elim Hne | reflexivity]. }
    destruct (truthy (join [comma] (p :: parts))) eqn:Ht.
    + now rewrite Hj.
    + destruct (join [comma] (p :: parts)) eqn:E; [| discriminate Ht].
      cbn in Hj. injection Hj as <- <-.
      inversion Hall as [| ? ? [Hne _] _]. now elim Hne.
Qed.

Lemma csv_entries_witness :
  Forall (fun p => p <> [] /\ ~ In comma p) [ lit "sales"; lit "reach" ]
  /\ csv (Some (join [comma] [ lit "sales"; lit "reach" ]))
     = [ lit "sales"; lit "reach" ].
Proof.
  assert (H : Forall (fun p => p <> [] /\ ~ In comma p)
                [ lit "sales"; lit "reach" ]).
  { repeat constructor; try discriminate;
      (intro Hin; cbn in Hin;
       repeat (destruct Hin as [Hin | Hin]; [discriminate Hin |]);
       exact Hin). }
  split; [exact H |].
  exact (proj2 (csv_entries None) _ H).
Defined.

(* ------------------------------------------------------------------ *)
(** ** The OAuth state of the TikTok routes *)
(* ------------------------------------------------------------------ *)

Lemma split_by_nonempty sep s : forall cur, split_by sep cur s <> [].
Proof.
  induction s as [| c s IH]; intro cur; cbn; [discriminate |].
  destruct (sep c); [discriminate | apply IH].
Qed.

Lemma last_cons_nonempty {X} (x : X) l d : l <> [] -> last (x :: l) d = last l d.
Proof. destruct l; [intro H; now elim H | reflexivity]. Qed.

(** What comes after the last separator is the last piece. *)
Lemma last_split_by sep c u d a : forall cur,
  sep c = true ->
  last (split_by sep cur (a ++ c :: u)) d = last (split_by sep [] u) d.
Proof.
  induction a as [| x a IH]; intros cur Hc; cbn [app split_by].
  - rewrite Hc. apply last_cons_nonempty, split_by_nonempty.
  - destruct (sep x).
    + rewrite last_cons_nonempty by apply split_by_nonempty. now apply IH.
    + now apply IH.
Qed.

Lemma split_by_whole sep p :
  (forall c, In c p -> sep c = false) -> split_by sep [] p = [p].
Proof.
  intro Hp. rewrite <- (app_nil_r p) at 1.
  rewrite split_by_piece by exact Hp. cbn.
  now rewrite app_nil_r, rev_involutive.
Qed.

Lemma or_else_nil s : or_else s [] = s.
Proof. destruct s; reflexivity. Qed.

(** The user id survives the trip through the OAuth state when the
    credentials are configured; in stub mode the callback gets the part
    of the user id after its last dash, hence the whole id only when it
    has no dash. *)
Theorem oauth_state_round_trip now userId :
  TikTok.callback_userId (TikTok.start_state true now userId) = userId
  /\ TikTok.callback_userId (TikTok.start_state false now userId)
     = last (split_by (N.eqb TikTok.dash) [] userId) []
  /\ (~ In TikTok.dash userId ->
      TikTok.callback_userId (TikTok.start_state false now userId) = userId).
Proof.
  assert (Hstub : TikTok.callback_userId (TikTok.start_state false now userId)
                  = last (split_by (N.eqb TikTok.dash) [] userId) []).
  { unfold TikTok.callback_userId, TikTok.start_state, TikTok.stub_state.
    change (TikTok.startsWith (lit "uid:")
              (lit "stub-tiktok-" ++ now ++ TikTok.dash :: userId))
      with false.
    cbn iota. rewrite or_else_nil, app_assoc.
    apply last_split_by. apply N.eqb_refl. }
  split; [reflexivity |]. split; [exact Hstub |].
  intro Hno. rewrite Hstub, split_by_whole; [reflexivity |].
  intros c Hc. apply N.eqb_neq. intros <-. contradiction.
Qed.

Lemma oauth_state_round_trip_witness :
  ~ In TikTok.dash (lit "cmf3k2x9a0001")
  /\ TikTok.callback_userId
       (TikTok.start_state false (lit "1756300000000") (lit "cmf3k2x9a0001"))
     = lit "cmf3k2x9a0001"
  /\ TikTok.callback_userId
       (TikTok.start_state false (lit "1756300000000") (lit "3f2a-77c1"))
     = lit "77c1".
Proof.
  assert (Hno : ~ In TikTok.dash (lit "cmf3k2x9a0001")).
  { intro Hin. cbn in Hin.
    repeat (destruct Hin as [Hin | Hin]; [discriminate Hin |]). exact Hin. }
  split; [exact Hno |]. split.
  - exact (proj2 (proj2 (oauth_state_round_trip (lit "1756300000000")
                           (lit "cmf3k2x9a0001"))) Hno).
  - reflexivity.
Defined.

(* ------------------------------------------------------------------ *)
(** ** The ideas without a repeated hook *)
(* ------------------------------------------------------------------ *)

Lemma jsstring_eqb_eq a b : jsstring_eqb a b = true <-> a = b.
Proof.
  unfold jsstring_eqb. destruct (list_eq_dec N.eq_dec a b); split;
    congruence.
Qed.

Lemma seen_has k seen :
  existsb (jsstring_eqb k) seen = true <-> In k seen.
Proof.
  rewrite existsb_exists. split.
  - intros (x & Hx & E). apply jsstring_eqb_eq in E. now subst.
  - intro H. exists k. split; [exact H | now apply jsstring_eqb_eq].
Qed.

Section DedupeFacts.
Variable toLowerCase : jsstring -> jsstring.
Local Abbreviation key := (Ideas.hook_key toLowerCase).
Local Abbreviation dedupe := (Ideas.dedupe_by_hook toLowerCase).

Lemma dedupe_by_hook_inv ideas : forall seen,
  NoDup (List.map key (dedupe seen ideas))
  /\ (forall i, In i (dedupe seen ideas) ->
        key i <> [] /\ ~ In (key i) seen)
  /\ (forall i, In i ideas -> key i <> [] ->
        In (key i) seen \/ In (key i) (List.map key (dedupe seen ideas)))
  /\ Subsequence (dedupe seen ideas) ideas.
Proof.
  induction ideas as [| i ideas IH]; intro seen.
  - cbn. split; [constructor |]. split; [intros i [] |].
    split; [intros i [] | constructor].
  - cbn [Ideas.dedupe_by_hook].
    destruct (truthy (key i)) eqn:Hk; cbn [negb orb].
    + destruct (existsb (jsstring_eqb (key i)) seen) eqn:Hs.
      * apply seen_has in Hs. destruct (IH seen) as (H1 & H2 & H3 & H4).
        split; [exact H1 |]. split; [exact H2 |]. split.
        -- intros j [<- | Hj] Hne; [now left | now apply H3].
        -- now constructor.
      * assert (Hnot : ~ In (key i) seen).
        { intro Hin. apply seen_has in Hin. congruence. }
        destruct (IH (key i :: seen)) as (H1 & H2 & H3 & H4).
        split; [| split; [| split]].
        -- cbn [List.map]. constructor; [| exact H1].
           intro Hin. apply in_map_iff in Hin as (j & E & Hj).
           destruct (H2 j Hj) as (_ & Hfresh). apply Hfresh.
           left. now symmetry.
        -- intros j [<- | Hj].
           ++ split; [| exact Hnot]. intro E. rewrite E in Hk. discriminate.
           ++ destruct (H2 j Hj) as (Hne & Hfresh).
              split; [exact Hne |]. intro Hin. apply Hfresh. now right.
        -- intros j [<- | Hj] Hne.
           ++ right. now left.
           ++ destruct (H3 j Hj Hne) as [[E | Hin] | Hin].
              ** right. left. exact E.
              ** now left.
              ** right. now right.
        -- now constructor.
    + destruct (IH seen) as (H1 & H2 & H3 & H4).
      split; [exact H1 |]. split; [exact H2 |]. split.
      * intros j [<- | Hj] Hne; [| now apply H3].
        destruct (key i); [now elim Hne | discriminate].
      * now constructor.
Qed.

Lemma dedupe_by_hook_fixed ideas : forall seen,
  NoDup (List.map key ideas) ->
  (forall i, In i ideas -> key i <> [] /\ ~ In (key i) seen) ->
  dedupe seen ideas = ideas.
Proof.
  induction ideas as [| i ideas IH]; intros seen Hnd Hall; [reflexivity |].
  cbn [Ideas.dedupe_by_hook].
  destruct (Hall i (or_introl eq_refl)) as (Hne & Hfresh).
  assert (Ht : truthy (key i) = true)
    by (destruct (key i); [now elim Hne | reflexivity]).
  assert (Hs : existsb (jsstring_eqb (key i)) seen = false).
  { destruct (existsb _ seen) eqn:E; [| reflexivity].
    apply seen_has in E. contradiction. }
  rewrite Ht, Hs. cbn [negb orb]. f_equal.
  inversion Hnd as [| ? ? Hi Hnd']; subst.
  apply IH; [exact Hnd' |].
  intros j Hj. destruct (Hall j (or_intror Hj)) as (Hjne & Hjfresh).
  split; [exact Hjne |]. intros [E | Hin]; [| contradiction].
  apply Hi. rewrite E. now apply in_map.
Qed.

(** The ideas that [POST /api/ideas] keeps: a subsequence of the ideas of
    the model in which no hook (trimmed, in lower case) is empty or occurs
    twice, and in which every non-empty hook of the input still occurs.
    Filtering the result again changes nothing. *)
Theorem dedupe_by_hook_spec ideas :
  let kept := Ideas.dedupe_by_hook toLowerCase [] ideas in
  Subsequence kept ideas
  /\ NoDup (List.map (Ideas.hook_key toLowerCase) kept)
  /\ (forall i, In i kept -> Ideas.hook_key toLowerCase i <> [])
  /\ (forall i, In i ideas -> Ideas.hook_key toLowerCase i <> [] ->
        In (Ideas.hook_key toLowerCase i)
           (List.map (Ideas.hook_key toLowerCase) kept))
  /\ Ideas.dedupe_by_hook toLowerCase [] kept = kept.
Proof.
  cbv zeta. destruct (dedupe_by_hook_inv ideas []) as (H1 & H2 & H3 & H4).
  split; [exact H4 |]. split; [exact H1 |]. split; [| split].
  - intros i Hi. now destruct (H2 i Hi).
  - intros i Hi Hne. destruct (H3 i Hi Hne) as [[] | H]. exact H.
  - apply dedupe_by_hook_fixed; [exact H1 |].
    intros i Hi. destruct (H2 i Hi). split; [assumption | intros []].
Qed.
End DedupeFacts.

(* ------------------------------------------------------------------ *)
(** ** The statistics over the recent videos *)
(* ------------------------------------------------------------------ *)

Lemma sorted_split {X} (R : X -> X -> Prop) (l : list X) : forall n,
  StronglySorted R l ->
  StronglySorted R (skipn n l)
  /\ (forall d e, In d (firstn n l) -> In e (skipn n l) -> R d e).
Proof.
  induction l as [| x l IH]; intros n Hs.
  - rewrite skipn_nil, firstn_nil. split; [constructor | intros d e []].
  - destruct n as [| n]; cbn [skipn firstn].
    + split; [exact Hs | intros d e []].
    + inversion Hs as [| ? ? Hs' Hx]; subst.
      destruct (IH n Hs') as (H1 & H2). split; [exact H1 |].
      intros d e [<- | Hd] He; [| now apply H2].
      rewrite Forall_forall in Hx. apply Hx.
      rewrite <- (firstn_skipn n l). apply in_or_app. now right.
Qed.

Lemma sorted_head_least (x : Q) l :
  StronglySorted Qle (x :: l) -> forall e, In e (x :: l) -> x <= e.
Proof.
  intros Hs e [<- | He]; [apply Qle_refl |].
  inversion Hs as [| ? ? _ Hx]; subst.
  rewrite Forall_forall in Hx. now apply Hx.
Qed.


Lemma in_durations d videos :
  In d (Stats.durations videos) <->
  0 < d /\ exists v, In v videos /\ Stats.durationSec v = Some d.
Proof.
  unfold Stats.durations. rewrite in_sort_numbers, filter_In, in_map_iff.
  split.
  - intros ((v & E & Hv) & Hpos).
    assert (Hd : 0 < d).
    { unfold ltb in Hpos. apply negb_true_iff in Hpos.
      apply Qnot_le_lt. intro Hle. apply Qle_bool_iff in Hle. congruence. }
    split; [exact Hd |]. exists v. split; [exact Hv |].
    destruct (Stats.durationSec v) as [d' |]; [now subst |].
    subst d. now apply Qlt_irrefl in Hd.
  - intros (Hd & v & Hv & E). split.
    + exists v. now rewrite E.
    + unfold ltb. apply negb_true_iff.
      destruct (Qle_bool d 0) eqn:Hle; [| reflexivity].
      apply Qle_bool_iff in Hle. lra.
Qed.



Lemma Qfloor_half k : Qfloor (inject_Z k + (1 # 2)) = k.
Proof.
  pose proof (Qfloor_le (inject_Z k + (1 # 2))) as Hlo.
  pose proof (Qlt_floor (inject_Z k + (1 # 2))) as Hhi.
  set (f := Qfloor (inject_Z k + (1 # 2))) in *.
  assert (H1 : inject_Z f < inject_Z (k + 1)).
  { rewrite inject_Z_plus. change (inject_Z 1) with 1. lra. }
  assert (H2 : inject_Z k < inject_Z (f + 1)) by lra.
  rewrite <- Zlt_Qlt in H1, H2. lia.
Qed.

Lemma pow10_2 : pow10 2 = 100.
Proof. reflexivity. Qed.

(** Two decimals of a whole number are the number. *)
Lemma toFixed_whole x k :
  x == inject_Z k -> (0 <= k)%Z -> toFixed 2 x == inject_Z k.
Proof.
  intros Hx Hk. unfold toFixed. rewrite pow10_2.
  assert (H0 : 0 <= x).
  { rewrite Hx. change 0 with (inject_Z 0). now rewrite <- Zle_Qle. }
  assert (Hb : Qle_bool 0 x = true) by now apply Qle_bool_iff.
  rewrite Hb.
  assert (E : Qabs x * 100 + (1 # 2) == inject_Z (k * 100) + (1 # 2)).
  { rewrite Qabs_pos by exact H0. rewrite Hx, inject_Z_mult.
    change (inject_Z 100) with 100. reflexivity. }
  rewrite (Qfloor_comp _ _ E), Qfloor_half, inject_Z_mult.
  change (inject_Z 100) with 100. field.
Qed.

(** Rounding to two decimals does not leave a range between whole
    numbers. *)
Lemma toFixed_range x k :
  0 <= x -> x <= inject_Z k -> 0 <= toFixed 2 x /\ toFixed 2 x <= inject_Z k.
Proof.
  intros H0 Hk. unfold toFixed. rewrite pow10_2.
  assert (Hb : Qle_bool 0 x = true) by now apply Qle_bool_iff.
  rewrite Hb. rewrite Qabs_pos by exact H0.
  assert (Hlo : (0 <= Qfloor (x * 100 + (1 # 2)))%Z).
  { apply (Qfloor_resp_le 0). lra. }
  assert (Hhi : (Qfloor (x * 100 + (1 # 2)) <= k * 100)%Z).
  { rewrite <- (Qfloor_half (k * 100)). apply Qfloor_resp_le.
    rewrite inject_Z_mult. change (inject_Z 100) with 100. lra. }
  rewrite Zle_Qle in Hlo, Hhi. rewrite inject_Z_mult in Hhi.
  change (inject_Z 100) with 100 in Hhi. change (inject_Z 0) with 0 in Hlo.
  unfold Qdiv. change (/ 100) with (1 # 100). lra.
Qed.

Lemma days_length videos :
  List.length (Stats.days videos) = List.length videos.
Proof.
  unfold Stats.days. rewrite (Permutation_length (sort_numbers_perm _)).
  apply length_map.
Qed.

Lemma in_days t videos :
  In t (Stats.days videos) <-> exists v, In v videos /\ Stats.createdAt v = t.
Proof.
  unfold Stats.days. rewrite in_sort_numbers, in_map_iff.
  split; intros (v & H1 & H2); exists v; tauto.
Qed.

Lemma last_in {X} (l : list X) d : l <> [] -> In (last l d) l.
Proof.
  induction l as [| x l IH]; intro H; [now elim H |].
  destruct l as [| y l]; [now left |].
  right. apply IH. discriminate.
Qed.

Lemma daysCovered_least ds : ds <> [] -> 1 <= Stats.daysCovered ds.
Proof.
  destruct ds as [| x l]; intro H; [now elim H |].
  unfold Stats.daysCovered, Math_max. apply Q.le_max_l.
Qed.

Lemma cadence_range total covered :
  covered == 0 \/ 1 <= covered ->
  0 <= Stats.cadencePerWeek total covered
  /\ Stats.cadencePerWeek total covered <= 7 * ofNat total.
Proof.
  intros Hc. unfold Stats.cadencePerWeek, eqb.
  assert (Hn : 0 <= ofNat total).
  { unfold ofNat. change 0 with (inject_Z 0). rewrite <- Zle_Qle. lia. }
  destruct (Qeq_bool covered 0) eqn:E.
  - split; lra.
  - apply Qeq_bool_neq in E. destruct Hc as [Hc | Hc]; [contradiction |].
    assert (Hq : 0 <= ofNat total / covered /\ ofNat total / covered <= ofNat total).
    { split.
      - apply Qle_shift_div_l; lra.
      - apply Qle_shift_div_r; [lra |]. nra. }
    assert (H7 : 7 * ofNat total == inject_Z (7 * Z.of_nat total)).
    { unfold ofNat. rewrite inject_Z_mult. reflexivity. }
    rewrite H7. apply toFixed_range; [lra |]. rewrite <- H7. lra.
Qed.

Lemma days_nonempty videos : videos <> [] -> Stats.days videos <> [].
Proof.
  intros H E. apply H. apply length_zero_iff_nil.
  rewrite <- days_length, E. reflexivity.
Qed.

(** Videos within 24 hours of each other cover one day. *)
Lemma cadence_one_day videos :
  videos <> [] ->
  (forall v w, In v videos -> In w videos ->
     Stats.createdAt w - Stats.createdAt v <= 1000 * 60 * 60 * 24) ->
  Stats.daysCovered (Stats.days videos) == 1
  /\ Stats.cadencePerWeek (List.length videos)
       (Stats.daysCovered (Stats.days videos))
     == 7 * ofNat (List.length videos).
Proof.
  intros H Hday. pose proof (days_nonempty videos H) as Hne.
  assert (Hs := sort_numbers_sorted (List.map Stats.createdAt videos)).
  fold (Stats.days videos) in Hs.
  assert (Hlast := last_in (Stats.days videos) 0 Hne).
  destruct (Stats.days videos) as [| first rest] eqn:Ed; [now elim Hne |].
  assert (Hle : first <= last (first :: rest) 0)
    by (apply (sorted_head_least _ _ Hs); exact Hlast).
  assert (Hspan : last (first :: rest) 0 - first <= 1000 * 60 * 60 * 24).
  { assert (Hf : In first (Stats.days videos)) by (rewrite Ed; now left).
    rewrite <- Ed in Hlast.
    apply in_days in Hf as (v & Hv & <-).
    apply in_days in Hlast as (w & Hw & Ew). rewrite Ed in Ew.
    rewrite <- Ew. now apply Hday. }
  assert (Hcov : Stats.daysCovered (first :: rest) == 1).
  { unfold Stats.daysCovered, Math_max, Math_ceil. apply Q.max_l.
    change 1 with (inject_Z 1). rewrite <- Zle_Qle.
    rewrite <- (Qceiling_Z 1). apply Qceiling_resp_le.
    apply Qle_shift_div_r; [reflexivity |].
    change (inject_Z 1) with 1. lra. }
  split; [exact Hcov |].
  unfold Stats.cadencePerWeek, eqb.
  destruct (Qeq_bool (Stats.daysCovered (first :: rest)) 0) eqn:E.
  - apply Qeq_bool_iff in E. rewrite Hcov in E. discriminate E.
  - assert (H7 : 7 * ofNat (List.length videos)
                 == inject_Z (7 * Z.of_nat (List.length videos))).
    { unfold ofNat. rewrite inject_Z_mult. reflexivity. }
    rewrite H7. apply toFixed_whole; [| lia].
    rewrite <- H7, Hcov. field.
Qed.

(** The posting cadence lies between 0 and seven times the number of
    videos, the days covered count at least one as soon as there is a
    video, and videos that all lie within 24 hours of each other give
    exactly seven posts a week per video. *)
Theorem cadence_of_recent_videos videos :
  let covered := Stats.daysCovered (Stats.days videos) in
  let cadence := Stats.cadencePerWeek (List.length videos) covered in
  (0 <= cadence /\ cadence <= 7 * ofNat (List.length videos))
  /\ (videos = [] -> covered = 0 /\ cadence = 0)
  /\ (videos <> [] -> 1 <= covered)
  /\ (videos <> [] ->
      (forall v w, In v videos -> In w videos ->
         Stats.createdAt w - Stats.createdAt v <= 1000 * 60 * 60 * 24) ->
      covered == 1 /\ cadence == 7 * ofNat (List.length videos)).
Proof.
  cbv zeta. split; [| split; [| split]].
  - apply cadence_range. destruct videos as [| v vs]; [left; reflexivity |].
    right. apply daysCovered_least, days_nonempty. discriminate.
  - intros ->. split; reflexivity.
  - intro H. apply daysCovered_least, days_nonempty, H.
  - apply cadence_one_day.
Qed.

Lemma cadence_of_recent_videos_witness :
  let videos := [ {| Stats.createdAt := 1756300000000;
                     Stats.durationSec := Some 31 |};
                  {| Stats.createdAt := 1756303600000;
                     Stats.durationSec := Some 12 |};
                  {| Stats.createdAt := 1756340000000;
                     Stats.durationSec := None |} ] in
  Stats.daysCovered (Stats.days videos) == 1
  /\ Stats.cadencePerWeek (List.length videos)
       (Stats.daysCovered (Stats.days videos)) == 21.
Proof.
  cbv zeta.
  refine (proj2 (proj2 (proj2 (cadence_of_recent_videos _))) _ _).
  - discriminate.
  - intros v w Hv Hw. cbn in Hv, Hw.
    repeat (destruct Hv as [<- | Hv]; [| try contradiction]);
    repeat (destruct Hw as [<- | Hw]; [| try contradiction]);
    cbn; vm_compute; try discriminate; intro; discriminate.
Defined.

(* ------------------------------------------------------------------ *)
(** ** The tasks built from the recent videos and the snapshots *)
(* ------------------------------------------------------------------ *)

Lemma ltb_lt a b : ltb a b = true <-> a < b.
Proof.
  unfold ltb. rewrite negb_true_iff. split.
  - intro H. apply Qnot_le_lt. intro Hle. apply Qle_bool_iff in Hle.
    congruence.
  - intro H. destruct (Qle_bool b a) eqn:E; [| reflexivity].
    apply Qle_bool_iff in E. lra.
Qed.

Lemma geb_le a b : geb a b = true <-> b <= a.
Proof. unfold geb. apply Qle_bool_iff. Qed.

Lemma in_push i c j p :
  In i (List.map Tasks.id (Tasks.push c j p)) <-> c = true /\ i = j.
Proof.
  destruct c; cbn; [| intuition discriminate].
  split; [intros [<- | []]; now split | intros (_ & ->); now left].
Qed.

Lemma insert_entry_perm x xs :
  Permutation (Tasks.insert_entry x xs) (x :: xs).
Proof.
  induction xs as [| y xs IH]; simpl; [reflexivity |].
  destruct (snd y <=? snd x)%nat; [reflexivity |].
  rewrite IH. apply perm_swap.
Qed.

Lemma sort_entries_perm xs : Permutation (Tasks.sort_entries xs) xs.
Proof.
  induction xs as [| x xs IH]; simpl; [reflexivity |].
  rewrite insert_entry_perm. now apply perm_skip.
Qed.

Lemma insert_entry_sorted x xs :
  StronglySorted (fun a b => (snd b <= snd a)%nat) xs ->
  StronglySorted (fun a b => (snd b <= snd a)%nat) (Tasks.insert_entry x xs).
Proof.
  induction 1 as [| y xs Hs IH Hy]; simpl.
  - repeat constructor.
  - destruct (snd y <=? snd x)%nat eqn:Hxy.
    + apply Nat.leb_le in Hxy. constructor; [now constructor |].
      constructor; [exact Hxy |].
      eapply Forall_impl; [| exact Hy]. intros z Hz. cbn in Hz. lia.
    + apply Nat.leb_gt in Hxy. constructor; [exact IH |].
      apply Forall_forall. intros z Hz.
      apply (Permutation_in _ (insert_entry_perm x xs)) in Hz.
      destruct Hz as [<- | Hz]; [lia |].
      rewrite Forall_forall in Hy. now apply Hy.
Qed.

Lemma sort_entries_sorted xs :
  StronglySorted (fun a b => (snd b <= snd a)%nat) (Tasks.sort_entries xs).
Proof.
  induction xs as [| x xs IH]; simpl; [constructor |].
  now apply insert_entry_sorted.
Qed.

Section TaskFacts.
Variable getTimezoneOffset : Q -> Z.

Local Abbreviation posted := (Tasks.posted getTimezoneOffset).

Lemma in_byHour e videos :
  In e (Tasks.byHour getTimezoneOffset videos) <->
  (fst e < 24)%nat /\ snd e = posted videos (fst e).
Proof.
  unfold Tasks.byHour. rewrite in_map_iff. split.
  - intros (h & <- & Hh). apply in_seq in Hh. cbn. split; [lia | reflexivity].
  - intros (Hh & Hc). exists (fst e). split.
    + destruct e as (h, c). cbn in *. now subst.
    + apply in_seq. lia.
Qed.

Lemma byHour_keys videos :
  List.map fst (Tasks.byHour getTimezoneOffset videos) = seq 0 24.
Proof.
  unfold Tasks.byHour. rewrite map_map. cbn [fst]. apply map_id.
Qed.

Lemma sorted_byHour_length videos :
  List.length (Tasks.sort_entries (Tasks.byHour getTimezoneOffset videos))
  = 24%nat.
Proof.
  rewrite (Permutation_length (sort_entries_perm _)).
  unfold Tasks.byHour. now rewrite length_map, length_seq.
Qed.

Lemma bestHours_length n videos :
  List.length (Tasks.bestHours getTimezoneOffset n videos) = Nat.min n 24.
Proof.
  unfold Tasks.bestHours.
  now rewrite length_map, length_firstn, sorted_byHour_length.
Qed.

(** The best hours are [min n 24] different hours of the day, and no hour
    left out has more videos than one of them. *)
Theorem bestHours_are_busiest n videos :
  let best := Tasks.bestHours getTimezoneOffset n videos in
  let posted := Tasks.posted getTimezoneOffset videos in
  List.length best = Nat.min n 24
  /\ NoDup best
  /\ (forall b, In b best -> (b < 24)%nat)
  /\ (forall b h, In b best -> (h < 24)%nat -> ~ In h best ->
        (posted h <= posted b)%nat).
Proof.
  cbv zeta.
  split; [apply bestHours_length |].
  unfold Tasks.bestHours.
  pose proof (sort_entries_perm (Tasks.byHour getTimezoneOffset videos))
    as Hperm.
  pose proof (sort_entries_sorted (Tasks.byHour getTimezoneOffset videos))
    as Hsorted.
  remember (Tasks.sort_entries (Tasks.byHour getTimezoneOffset videos))
    as sorted eqn:Es.
  clear Es.
  assert (Hkeys : NoDup (List.map fst sorted)).
  { apply (Permutation_NoDup
             (l := List.map fst (Tasks.byHour getTimezoneOffset videos))).
    - symmetry. apply Permutation_map. exact Hperm.
    - rewrite byHour_keys. apply seq_NoDup. }
  assert (Hin : forall e, In e sorted ->
            (fst e < 24)%nat /\ snd e = posted videos (fst e)).
  { intros e He. apply in_byHour. exact (Permutation_in _ Hperm He). }
  assert (Hfirst : forall e, In e (firstn n sorted) -> In e sorted).
  { intros e He. rewrite <- (firstn_skipn n sorted).
    apply in_or_app. left. exact He. }
  destruct (sorted_split (fun a b : nat * nat => (snd b <= snd a)%nat)
              sorted n Hsorted) as (_ & Hord).
  split; [| split].
  - rewrite <- (firstn_skipn n sorted), map_app in Hkeys.
    exact (NoDup_app_remove_r _ _ Hkeys).
  - intros b Hb. apply in_map_iff in Hb. destruct Hb as (e & <- & He).
    exact (proj1 (Hin e (Hfirst e He))).
  - intros b h Hb Hh Hout. apply in_map_iff in Hb.
    destruct Hb as (e & <- & He).
    assert (Hall : In (h, posted videos h) sorted).
    { apply (Permutation_in _ (Permutation_sym Hperm)).
      apply in_byHour. split; [exact Hh | reflexivity]. }
    rewrite <- (firstn_skipn n sorted) in Hall.
    apply in_app_or in Hall. destruct Hall as [Hbest | Hrest].
    + elim Hout. apply in_map_iff. exists (h, posted videos h).
      split; [reflexivity | exact Hbest].
    + pose proof (Hord _ _ He Hrest) as Hle.
      destruct (Hin e (Hfirst e He)) as (_ & Hc).
      rewrite <- Hc. exact Hle.
Qed.

Lemma viewVals_nil videos : Tasks.viewVals videos = [].
Proof.
  unfold Tasks.viewVals.
  replace (filter (fun n => ltb 0 n) (List.map Tasks.views_or_0 videos))
    with (@nil Q); [reflexivity |].
  induction videos as [| v videos IH]; [reflexivity | exact IH].
Qed.

Lemma winners_nil videos : Tasks.winners videos = [].
Proof. unfold Tasks.winners. now rewrite viewVals_nil. Qed.

(** Which tasks the route pushes. *)
Lemma in_tasks i videos snaps :
  let c := Stats.cadencePerWeek (List.length videos)
             (Stats.daysCovered (Stats.days videos)) in
  let m := Stats.medianDurationSec (Stats.durations videos) in
  let w := Tasks.followerDeltaWeek snaps in
  In i (List.map Tasks.id (Tasks.tasks getTimezoneOffset videos snaps)) <->
  match i with
  | Tasks.stub_1 | Tasks.stub_2 => False
  | Tasks.cadence => c < 3
  | Tasks.cadence_opt => 5 <= c
  | Tasks.length_down => 35 < m
  | Tasks.length_up => 0 < m /\ m < 15
  | Tasks.timing => True
  | Tasks.double_down => False
  | Tasks.followers_down => w < 0
  | Tasks.followers_flat => 0 < w /\ w < 50
  end.
Proof.
  cbv zeta. unfold Tasks.tasks. cbv zeta.
  rewrite winners_nil, bestHours_length.
  change (negb (Nat.min 2 24 =? 0)%nat) with true.
  change (negb (List.length (@nil Stats.Video) =? 0)%nat) with false.
  set (c := Stats.cadencePerWeek _ _).
  set (m := Stats.medianDurationSec _).
  set (w := Tasks.followerDeltaWeek snaps).
  assert (Hc : In i (List.map Tasks.id
                  (if ltb c 3 then Tasks.push true Tasks.cadence Tasks.high
                   else Tasks.push (geb c 5) Tasks.cadence_opt Tasks.low))
               <-> (c < 3 /\ i = Tasks.cadence)
                   \/ (5 <= c /\ i = Tasks.cadence_opt)).
  { destruct (ltb c 3) eqn:E.
    - apply ltb_lt in E. rewrite in_push. split.
      + intros (_ & ->). left. now split.
      + intros [(_ & ->) | (H5 & _)]; [now split | lra].
    - assert (~ c < 3) by (rewrite <- ltb_lt; congruence).
      rewrite in_push, geb_le. tauto. }
  rewrite !map_app, !in_app_iff, Hc, !in_push, !andb_true_iff, !ltb_lt.
  destruct i; split; try tauto;
    intuition (try discriminate; try lra).
Qed.

(** The tasks the route builds come in one fixed order. *)
Lemma built_tasks_in_order videos snaps :
  Subsequence
    (List.map Tasks.id (Tasks.tasks getTimezoneOffset videos snaps))
    [Tasks.cadence; Tasks.cadence_opt; Tasks.length_down; Tasks.length_up;
     Tasks.timing; Tasks.double_down; Tasks.followers_down;
     Tasks.followers_flat].
Proof.
  unfold Tasks.tasks. cbv zeta.
  rewrite winners_nil, bestHours_length.
  change (negb (Nat.min 2 24 =? 0)%nat) with true.
  change (negb (List.length (@nil Stats.Video) =? 0)%nat) with false.
  set (c := Stats.cadencePerWeek _ _).
  set (m := Stats.medianDurationSec _).
  set (w := Tasks.followerDeltaWeek snaps).
  destruct (ltb c 3), (geb c 5), (ltb 35 m),
    (ltb 0 m && ltb m 15), (ltb w 0), (ltb 0 w && ltb w 50);
    cbn [Tasks.push List.app List.map Tasks.id];
    repeat first [apply sub_keep | apply sub_skip | apply sub_nil].
Qed.

(** The route builds its tasks when both queries answer, an account is
    connected, the credentials are set and the video list arrives. *)
Lemma get_tasks_built s snaps videos :
  Tasks.findMany s = Some snaps ->
  Tasks.findFirst s = Some true ->
  Tasks.configured s = true ->
  Tasks.video_list s = Tasks.ListOk videos ->
  Tasks.get_tasks getTimezoneOffset s
  = Tasks.Answered 200
      (Tasks.TaskList (Tasks.tasks getTimezoneOffset videos snaps)
         (Some {| Tasks.day := Tasks.followerDeltaDay snaps;
                  Tasks.week := Tasks.followerDeltaWeek snaps;
                  Tasks.month := Tasks.followerDeltaMonth snaps |})).
Proof.
  intros Hm Hf Hc Hv. unfold Tasks.get_tasks.
  now rewrite Hm, Hf, Hc, Hv.
Qed.

(** What a task list of the route comes from. *)
Lemma get_tasks_list s st ts d :
  Tasks.get_tasks getTimezoneOffset s
  = Tasks.Answered st (Tasks.TaskList ts d) ->
  st = 200%nat
  /\ exists snaps,
       Tasks.findMany s = Some snaps
       /\ Tasks.findFirst s = Some true
       /\ ((Tasks.configured s = false
            /\ ts = Tasks.stub_tasks /\ d = None)
           \/ (Tasks.configured s = true
               /\ exists videos,
                    Tasks.video_list s = Tasks.ListOk videos
                    /\ ts = Tasks.tasks getTimezoneOffset videos snaps
                    /\ d <> None)).
Proof.
  unfold Tasks.get_tasks.
  destruct (Tasks.findMany s) as [snaps |]; [| discriminate].
  destruct (Tasks.findFirst s) as [[|] |]; try discriminate.
  destruct (Tasks.configured s); cbn [negb].
  - destruct (Tasks.video_list s) as [| status | videos]; try discriminate.
    intro E. injection E as <- <- <-. split; [reflexivity |].
    exists snaps. split; [reflexivity |]. split; [reflexivity |].
    right. split; [reflexivity |]. exists videos.
    split; [reflexivity |]. split; [reflexivity | discriminate].
  - intro E. injection E as <- <- <-. split; [reflexivity |].
    exists snaps. split; [reflexivity |]. split; [reflexivity |].
    left. now split.
Qed.

(** A task list of the route has the status 200 and an account behind it.
    Without credentials it is the two stub tasks, without deltas.  With
    credentials it comes with the deltas and in one fixed order without
    repetition; the timing task is always in it and the double-down task
    never; of the two tasks on cadence, on length and on followers at most
    one is pushed. *)
Theorem tasks_shape s st ts d :
  Tasks.get_tasks getTimezoneOffset s
  = Tasks.Answered st (Tasks.TaskList ts d) ->
  let ids := List.map Tasks.id ts in
  st = 200%nat
  /\ Tasks.findFirst s = Some true
  /\ ((Tasks.configured s = false
       /\ ids = [Tasks.stub_1; Tasks.stub_2] /\ d = None)
      \/ (Tasks.configured s = true
          /\ d <> None
          /\ Subsequence ids
               [Tasks.cadence; Tasks.cadence_opt; Tasks.length_down;
                Tasks.length_up; Tasks.timing; Tasks.double_down;
                Tasks.followers_down; Tasks.followers_flat]
          /\ In Tasks.timing ids
          /\ ~ In Tasks.double_down ids
          /\ ~ (In Tasks.cadence ids /\ In Tasks.cadence_opt ids)
          /\ ~ (In Tasks.length_down ids /\ In Tasks.length_up ids)
          /\ ~ (In Tasks.followers_down ids
                /\ In Tasks.followers_flat ids))).
Proof.
  intro Hget. cbv zeta.
  destruct (get_tasks_list s st ts d Hget)
    as (Hst & snaps & _ & Hacct & [(Hc & -> & ->) | (Hc & videos & _ & -> & Hd)]).
  - split; [exact Hst |]. split; [exact Hacct |]. left.
    split; [exact Hc |]. split; reflexivity.
  - split; [exact Hst |]. split; [exact Hacct |]. right.
    split; [exact Hc |]. split; [exact Hd |].
    split; [apply built_tasks_in_order |].
    rewrite !in_tasks. repeat split; try tauto; intros (H1 & H2); lra.
Qed.

(** With an account, credentials and the video list: a first video, or
    several within 24 hours of each other, count as seven posts a week
    each, and the route answers with the task to keep the cadence and not
    with the task to post more. *)
Theorem one_day_of_videos_keeps_cadence s snaps videos :
  Tasks.findMany s = Some snaps ->
  Tasks.findFirst s = Some true ->
  Tasks.configured s = true ->
  Tasks.video_list s = Tasks.ListOk videos ->
  videos <> [] ->
  (forall v w, In v videos -> In w videos ->
     Stats.createdAt w - Stats.createdAt v <= 1000 * 60 * 60 * 24) ->
  exists ts d,
    Tasks.get_tasks getTimezoneOffset s
    = Tasks.Answered 200 (Tasks.TaskList ts d)
    /\ In Tasks.cadence_opt (List.map Tasks.id ts)
    /\ ~ In Tasks.cadence (List.map Tasks.id ts).
Proof.
  intros Hm Hf Hc Hv Hne Hday.
  eexists. eexists. split; [exact (get_tasks_built s snaps videos Hm Hf Hc Hv) |].
  rewrite !in_tasks.
  destruct (cadence_one_day videos Hne Hday) as (_ & Hcad).
  assert (Hn : 1 <= ofNat (List.length videos)).
  { destruct videos as [| v vs]; [now elim Hne |].
    unfold ofNat. change 1 with (inject_Z 1). rewrite <- Zle_Qle.
    cbn [List.length]. lia. }
  split; [| intro H]; lra.
Qed.

Lemma durations_nil videos :
  (forall v d, In v videos -> Stats.durationSec v = Some d -> d <= 0) ->
  Stats.durations videos = [].
Proof.
  intro Hno. destruct (Stats.durations videos) as [| d ds] eqn:E;
    [reflexivity |].
  assert (Hd : In d (Stats.durations videos)) by (rewrite E; now left).
  apply in_durations in Hd. destruct Hd as (Hpos & v & Hv & Ev).
  specialize (Hno v d Hv Ev). lra.
Qed.

(** With an account, credentials and the video list: without videos the
    route asks for three posts a week, and while no video has a positive
    duration it pushes no task on length. *)
Theorem tasks_of_little_data s snaps videos :
  Tasks.findMany s = Some snaps ->
  Tasks.findFirst s = Some true ->
  Tasks.configured s = true ->
  Tasks.video_list s = Tasks.ListOk videos ->
  exists ts d,
    Tasks.get_tasks getTimezoneOffset s
    = Tasks.Answered 200 (Tasks.TaskList ts d)
    /\ (videos = [] ->
        In Tasks.cadence (List.map Tasks.id ts)
        /\ ~ In Tasks.cadence_opt (List.map Tasks.id ts))
    /\ ((forall v x, In v videos -> Stats.durationSec v = Some x -> x <= 0) ->
        ~ In Tasks.length_down (List.map Tasks.id ts)
        /\ ~ In Tasks.length_up (List.map Tasks.id ts)).
Proof.
  intros Hm Hf Hc Hv.
  eexists. eexists. split; [exact (get_tasks_built s snaps videos Hm Hf Hc Hv) |].
  rewrite !in_tasks. split.
  - intros ->.
    change (Stats.cadencePerWeek (List.length (@nil Stats.Video))
              (Stats.daysCovered (Stats.days []))) with 0.
    split; [| intro]; lra.
  - intro Hno. rewrite (durations_nil videos Hno).
    change (Stats.medianDurationSec []) with 0.
    split; [intro | intros (H1 & H2)]; lra.
Qed.

Lemma followerDelta_young span snaps :
  (forall s, In s snaps -> Tasks.age s < span) ->
  Tasks.followerDelta span snaps == 0.
Proof.
  intro Hyoung. unfold Tasks.followerDelta, Tasks.ago.
  assert (Hfind : find (fun s => geb (Tasks.age s) span) snaps = None).
  { destruct (find _ snaps) as [s |] eqn:E; [| reflexivity].
    apply find_some in E as (Hs & Hge). apply geb_le in Hge.
    specialize (Hyoung s Hs). lra. }
  rewrite Hfind. destruct (Tasks.latest snaps); [lra | reflexivity].
Qed.

(** The follower deltas compare the latest snapshot with the first one in
    the list that is old enough: while no snapshot is a week old the week's
    delta is zero and the route pushes neither task on followers. *)
Theorem follower_tasks_need_history videos snaps :
  (forall s, In s snaps -> Tasks.age s < 7 * Tasks.day_ms) ->
  let ids := List.map Tasks.id (Tasks.tasks getTimezoneOffset videos snaps) in
  Tasks.followerDeltaWeek snaps == 0
  /\ ~ In Tasks.followers_down ids
  /\ ~ In Tasks.followers_flat ids.
Proof.
  intro Hyoung. cbv zeta. rewrite !in_tasks.
  pose proof (followerDelta_young _ _ Hyoung) as H0.
  fold (Tasks.followerDeltaWeek snaps) in H0.
  split; [exact H0 |]. split; [intro H | intros (H1 & H2)]; lra.
Qed.
End TaskFacts.

Lemma tasks_shape_witness :
  let s := {| Tasks.findMany := Some [];
              Tasks.findFirst := Some true;
              Tasks.configured := true;
              Tasks.video_list :=
                Tasks.ListOk [ {| Stats.createdAt := 1756300000000;
                                  Stats.durationSec := Some 31 |} ] |} in
  exists ts d,
    Tasks.get_tasks (fun _ => 0%Z) s
    = Tasks.Answered 200 (Tasks.TaskList ts d)
    /\ In Tasks.timing (List.map Tasks.id ts)
    /\ ~ In Tasks.double_down (List.map Tasks.id ts).
Proof.
  cbv zeta. eexists. eexists. split; [reflexivity |].
  destruct (tasks_shape (fun _ => 0%Z)
              {| Tasks.findMany := Some [];
                 Tasks.findFirst := Some true;
                 Tasks.configured := true;
                 Tasks.video_list :=
                   Tasks.ListOk [ {| Stats.createdAt := 1756300000000;
                                     Stats.durationSec := Some 31 |} ] |}
              200 _ _ eq_refl)
    as (_ & _ & [(Hc & _) | (_ & _ & _ & Ht & Hd & _)]).
  - discriminate Hc.
  - split; [exact Ht | exact Hd].
Defined.

Lemma one_day_of_videos_keeps_cadence_witness :
  let first_video := {| Stats.createdAt := 1756300000000;
                        Stats.durationSec := Some 31 |} in
  let s := {| Tasks.findMany := Some [];
              Tasks.findFirst := Some true;
              Tasks.configured := true;
              Tasks.video_list := Tasks.ListOk [first_video] |} in
  exists ts d,
    Tasks.get_tasks (fun _ => 0%Z) s
    = Tasks.Answered 200 (Tasks.TaskList ts d)
    /\ In Tasks.cadence_opt (List.map Tasks.id ts)
    /\ ~ In Tasks.cadence (List.map Tasks.id ts).
Proof.
  cbv zeta.
  apply (one_day_of_videos_keeps_cadence (fun _ => 0%Z) _ []
           [ {| Stats.createdAt := 1756300000000;
                Stats.durationSec := Some 31 |} ]);
    try reflexivity.
  - discriminate.
  - intros v w [<- | []] [<- | []]. vm_compute. discriminate.
Defined.

Lemma tasks_of_little_data_witness :
  let untimed := [ {| Stats.createdAt := 1756300000000;
                      Stats.durationSec := None |};
                   {| Stats.createdAt := 1757300000000;
                      Stats.durationSec := Some 0 |} ] in
  let s := {| Tasks.findMany := Some [];
              Tasks.findFirst := Some true;
              Tasks.configured := true;
              Tasks.video_list := Tasks.ListOk untimed |} in
  exists ts d,
    Tasks.get_tasks (fun _ => 0%Z) s
    = Tasks.Answered 200 (Tasks.TaskList ts d)
    /\ ~ In Tasks.length_down (List.map Tasks.id ts)
    /\ ~ In Tasks.length_up (List.map Tasks.id ts).
Proof.
  cbv zeta.
  destruct (tasks_of_little_data (fun _ => 0%Z)
              {| Tasks.findMany := Some [];
                 Tasks.findFirst := Some true;
                 Tasks.configured := true;
                 Tasks.video_list :=
                   Tasks.ListOk
                     [ {| Stats.createdAt := 1756300000000;
                          Stats.durationSec := None |};
                       {| Stats.createdAt := 1757300000000;
                          Stats.durationSec := Some 0 |} ] |}
              [] _ eq_refl eq_refl eq_refl eq_refl)
    as (ts & d & Hget & _ & Hlen).
  exists ts, d. split; [exact Hget |].
  apply Hlen.
  intros v x [<- | [<- | []]] E; cbn in E; [discriminate E |].
  injection E as <-. apply Qle_refl.
Defined.

Lemma follower_tasks_need_history_witness :
  let snaps := [ {| Tasks.age := 3600000; Tasks.followerCount := 1200 |};
                 {| Tasks.age := 90000000; Tasks.followerCount := 1180 |} ] in
  Tasks.followerDeltaDay snaps == 20
  /\ Tasks.followerDeltaWeek snaps == 0
  /\ ~ In Tasks.followers_down
        (List.map Tasks.id (Tasks.tasks (fun _ => 0%Z) [] snaps))
  /\ ~ In Tasks.followers_flat
        (List.map Tasks.id (Tasks.tasks (fun _ => 0%Z) [] snaps)).
Proof.
  cbv zeta. split; [reflexivity |].
  apply follower_tasks_need_history.
  intros s [<- | [<- | []]]; vm_compute; reflexivity.
Defined.

(* ------------------------------------------------------------------ *)
(** ** The average duration *)
(* ------------------------------------------------------------------ *)

Lemma sorted_last_greatest (l : list Q) :
  StronglySorted Qle l -> forall e, In e l -> e <= last l 0.
Proof.
  induction 1 as [| x l Hs IH Hx]; intros e He; [destruct He |].
  destruct l as [| y l].
  - destruct He as [<- | []]. apply Qle_refl.
  - change (last (x :: y :: l) 0) with (last (y :: l) 0).
    destruct He as [<- | He]; [| now apply IH].
    rewrite Forall_forall in Hx.
    apply Qle_trans with y; [apply Hx; now left | apply IH; now left].
Qed.

Lemma ofNat_succ n : ofNat (S n) == ofNat n + 1.
Proof.
  unfold ofNat. rewrite Nat2Z.inj_succ, <- Z.add_1_r, inject_Z_plus.
  reflexivity.
Qed.

Lemma fold_sum_bounds lo hi xs :
  (forall x, In x xs -> lo <= x /\ x <= hi) ->
  forall a,
    a + lo * ofNat (List.length xs) <= fold_left Qplus xs a
    /\ fold_left Qplus xs a <= a + hi * ofNat (List.length xs).
Proof.
  induction xs as [| x xs IH]; intros Hall a; cbn [fold_left List.length].
  - change (ofNat 0) with 0. split; lra.
  - destruct (Hall x (or_introl eq_refl)) as (Hlo & Hhi).
    destruct (IH (fun y Hy => Hall y (or_intror Hy)) (a + x)) as (H1 & H2).
    rewrite ofNat_succ. split; lra.
Qed.

Lemma Math_round_mono x y : x <= y -> Math_round x <= Math_round y.
Proof.
  intro H. unfold Math_round. rewrite <- Zle_Qle.
  apply Qfloor_resp_le. lra.
Qed.

(** The average duration is the rounded mean of the positive durations:
    it lies between the shortest and the longest of them, rounded, and is
    never negative. *)
Theorem average_between_extremes videos :
  let ds := Stats.durations videos in
  ds <> [] ->
  Math_round (hd 0 ds) <= Stats.avgDurationSec ds
  /\ Stats.avgDurationSec ds <= Math_round (last ds 0)
  /\ 0 <= Stats.avgDurationSec ds.
Proof.
  cbv zeta. intro Hne.
  pose proof (sort_numbers_sorted
                (filter (fun n => ltb 0 n)
                   (List.map (fun v => match Stats.durationSec v with
                                       | Some d => d
                                       | None => 0
                                       end) videos))) as Hs.
  fold (Stats.durations videos) in Hs.
  assert (Hpos : forall d, In d (Stats.durations videos) -> 0 < d)
    by (intros d Hd; now apply in_durations in Hd).
  destruct (Stats.durations videos) as [| d ds] eqn:E; [now elim Hne |].
  assert (Hall : forall x, In x (d :: ds) ->
            d <= x /\ x <= last (d :: ds) 0).
  { intros x Hx. split; [now apply (sorted_head_least _ _ Hs) |].
    now apply sorted_last_greatest. }
  destruct (fold_sum_bounds _ _ _ Hall 0) as (H1 & H2).
  fold (sum_numbers (d :: ds)) in H1, H2.
  assert (Hn : 0 < ofNat (List.length (d :: ds))).
  { cbn [List.length]. rewrite ofNat_succ.
    assert (0 <= ofNat (List.length ds)).
    { unfold ofNat. change 0 with (inject_Z 0). rewrite <- Zle_Qle. lia. }
    lra. }
  assert (Hlow : Math_round d <= Stats.avgDurationSec (d :: ds)).
  { apply Math_round_mono. apply Qle_shift_div_l; [exact Hn | lra]. }
  cbn [hd]. split; [exact Hlow |]. split.
  - apply Math_round_mono. apply Qle_shift_div_r; [exact Hn | lra].
  - apply Qle_trans with (Math_round d); [| exact Hlow].
    apply Math_round_nonneg. apply Qlt_le_weak, Hpos. now left.
Qed.

Lemma average_between_extremes_witness :
  let videos := [ {| Stats.createdAt := 1756300000000;
                     Stats.durationSec := Some 31 |};
                  {| Stats.createdAt := 1756400000000;
                     Stats.durationSec := Some (25 # 2) |};
                  {| Stats.createdAt := 1756500000000;
                     Stats.durationSec := None |} ] in
  Stats.avgDurationSec (Stats.durations videos) = 22
  /\ 13 <= Stats.avgDurationSec (Stats.durations videos)
  /\ Stats.avgDurationSec (Stats.durations videos) <= 31.
Proof.
  cbv zeta. split; [reflexivity |].
  pose proof (average_between_extremes
                [ {| Stats.createdAt := 1756300000000;
                     Stats.durationSec := Some 31 |};
                  {| Stats.createdAt := 1756400000000;
                     Stats.durationSec := Some (25 # 2) |};
                  {| Stats.createdAt := 1756500000000;
                     Stats.durationSec := None |} ]) as H.
  cbv zeta in H.
  destruct H as (H1 & H2 & _); [vm_compute; discriminate |].
  split; [exact H1 | exact H2].
Defined.
